(** * ThreatFox ETL connector: a shallow embedding of [etl_connector.py]

    The connector fetches a JSON feed, validates and reshapes its records and
    upserts them into a document store.  The Python values the code handles
    (parsed JSON, [datetime] objects) are embedded as the inductive type
    [value]; exceptions are embedded as the [Raise] branch of [result];
    printing, the clock and the store driver are threaded through an explicit
    [world]. *)

From Stdlib Require Import ZArith String Ascii List Bool Lia.
Import ListNotations.

Set Warnings "-register-all".
Local Open Scope Z_scope.

(** ** Python data *)

(** A Python [str] is a sequence of Unicode code points. *)
Definition str := list N.

(** [u "abc"] is the [str] of an ASCII literal of the source. *)
Definition u (s : string) : str := map N_of_ascii (list_ascii_of_string s).

Fixpoint str_eqb (a b : str) : bool :=
  match a, b with
  | [], [] => true
  | x :: a', y :: b' => (x =? y)%N && str_eqb a' b'
  | _, _ => false
  end.

(** A Python [float]: not-a-number, an infinity, or the dyadic [m * 2^e].
    The two signed zeros are not told apart: they compare equal and both are
    falsy. *)
Inductive pyfloat : Type :=
| FNan
| FInf (negative : bool)
| FFinite (m e : Z).

(** A [datetime] object. *)
Record datetime : Type := mk_datetime {
  year : Z; month : Z; day : Z; hour : Z; minute : Z; second : Z;
  microsecond : Z
}.

(** The values the pipeline handles: what [json] parsing produces, plus
    [datetime] objects, which the transformer puts into documents.  A [dict]
    is kept as its items in insertion order; the keys of a Python dict are
    pairwise distinct, and a lookup reads the first item of a key. *)
Inductive value : Type :=
| VNone
| VBool (b : bool)
| VInt (z : Z)
| VFloat (f : pyfloat)
| VStr (s : str)
| VList (l : list value)
| VDict (d : list (str * value))
| VDatetime (t : datetime).

Definition dict := list (str * value).

(** Messages of the [ValueError]s the connector raises itself. *)
Inductive message : Type :=
| MissingField (field : str) (id : value)
| InvalidIndicator (v : value)
| InvalidDomain (v : value)
| InvalidConfidence (v : value)
| ApiReturned (status : Z) (text : str)
| EmptyResponse
| InvalidJSON
| DataLoss (expected actual : Z)
| LibraryMessage.

(** Exceptions, all of them subclasses of [Exception].  [LibraryError] stands
    for any exception class of [requests] or [pymongo] that is not a
    [ValueError]. *)
Inductive exn : Type :=
| ValueError (m : message)
| JSONDecodeError
| TypeError
| KeyError (k : str)
| AttributeError
| UnboundLocalError (name : str)
| UnicodeEncodeError
| LibraryError (code : nat).

(** [isinstance(e, ValueError)]: [json.JSONDecodeError] and
    [UnicodeEncodeError] derive from [ValueError]. *)
Definition is_ValueError (e : exn) : bool :=
  match e with
  | ValueError _ | JSONDecodeError | UnicodeEncodeError => true
  | _ => false
  end.

(** [isinstance(e, json.JSONDecodeError)]. *)
Definition is_JSONDecodeError (e : exn) : bool :=
  match e with
  | JSONDecodeError => true
  | _ => false
  end.

Inductive result (A : Type) : Type :=
| Ok (a : A)
| Raise (e : exn).
Arguments Ok {A} a.
Arguments Raise {A} e.

Definition rbind {A B : Type} (c : result A) (k : A -> result B) : result B :=
  match c with
  | Ok a => k a
  | Raise e => Raise e
  end.

Declare Scope result_scope.
Delimit Scope result_scope with result.
Notation "x <- c ;; k" := (rbind c (fun x => k))
  (at level 61, c at next level, right associativity) : result_scope.
Notation "c ;; k" := (rbind c (fun _ => k))
  (at level 61, right associativity) : result_scope.

(** *** Dictionaries *)

Fixpoint lookup (k : str) (d : dict) : option value :=
  match d with
  | [] => None
  | (k', v) :: rest => if str_eqb k k' then Some v else lookup k rest
  end.


Definition keys (d : dict) : list str := map fst d.

(** *** Text *)

(** [str.isspace] on one code point, the characters [str.strip()] removes. *)
Definition is_space (c : N) : bool :=
  ((9 <=? c) && (c <=? 13) || (28 <=? c) && (c <=? 32) ||
   (c =? 133) || (c =? 160) || (c =? 5760) ||
   (8192 <=? c) && (c <=? 8202) ||
   (c =? 8232) || (c =? 8233) || (c =? 8239) || (c =? 8287) ||
   (c =? 12288))%N.

Fixpoint lstrip (s : str) : str :=
  match s with
  | [] => []
  | c :: rest => if is_space c then lstrip rest else s
  end.

Definition rstrip (s : str) : str := rev (lstrip (rev s)).

(** [s.strip()] *)
Definition strip (s : str) : str := rstrip (lstrip s).

Fixpoint starts_with (p s : str) : bool :=
  match p, s with
  | [], _ => true
  | _ :: _, [] => false
  | a :: p', b :: s' => (a =? b)%N && starts_with p' s'
  end.

(** [p in s] on two [str]: substring test. *)
Fixpoint substring_of (p s : str) : bool :=
  starts_with p s ||
  match s with
  | [] => false
  | _ :: s' => substring_of p s'
  end.

(** *** Text that can be written

    The output stream is taken to encode as UTF-8, as the literals of the
    source need.  A [str] may hold a lone surrogate (the JSON escape
    [\ud800] parses to one), and that is the one kind of code point UTF-8
    cannot encode. *)
Definition lone_surrogate (c : N) : bool := ((55296 <=? c) && (c <=? 57343))%N.

Definition encodable (s : str) : bool := negb (existsb lone_surrogate s).

(** Whether [f"{v}"] can be written: a [str] is formatted as it is; every
    other value is formatted through [repr], which escapes what cannot be
    printed, the surrogates among it. *)
Definition printable_value (v : value) : bool :=
  match v with
  | VStr s => encodable s
  | _ => true
  end.

(** Whether the message of a [ValueError] of the connector can be written,
    by the f-string that builds it. *)
Definition printable_message (m : message) : bool :=
  match m with
  | MissingField _ id => printable_value id
  | InvalidIndicator v => printable_value v
  | InvalidDomain v => printable_value v
  | InvalidConfidence v => printable_value v
  | ApiReturned _ text => encodable text
  | EmptyResponse | InvalidJSON | DataLoss _ _ | LibraryMessage => true
  end.

(** Whether [str(e)] can be written.  The messages of the interpreter and of
    the libraries are escaped text: a [KeyError] shows the [repr] of its key,
    a [UnicodeEncodeError] the escape of the offending character. *)
Definition printable_exn (e : exn) : bool :=
  match e with
  | ValueError m => printable_message m
  | _ => true
  end.

(** *** Truth, equality and order *)

(** [bool(v)] *)
Definition truthy (v : value) : bool :=
  match v with
  | VNone => false
  | VBool b => b
  | VInt z => negb (z =? 0)
  | VFloat FNan => true
  | VFloat (FInf _) => true
  | VFloat (FFinite m _) => negb (m =? 0)
  | VStr s => match s with [] => false | _ => true end
  | VList l => match l with [] => false | _ => true end
  | VDict d => match d with [] => false | _ => true end
  | VDatetime _ => true
  end.

(** [isinstance(v, str)] *)
Definition isinstance_str (v : value) : bool :=
  match v with VStr _ => true | _ => false end.

(** [v == s] for a [str] constant [s]: only an equal [str] is equal. *)
Definition eq_str (v : value) (s : str) : bool :=
  match v with VStr s' => str_eqb s' s | _ => false end.

(** [v == None] *)
Definition eq_None (v : value) : bool :=
  match v with VNone => true | _ => false end.

(** [v == []] *)
Definition eq_empty_list (v : value) : bool :=
  match v with VList [] => true | _ => false end.

(** Numbers: [int], [bool] (a subclass of [int]) and [float]. *)
Inductive number : Type :=
| NInt (z : Z)
| NFloat (f : pyfloat).

Definition as_number (v : value) : option number :=
  match v with
  | VInt z => Some (NInt z)
  | VBool b => Some (NInt (if b then 1 else 0))
  | VFloat f => Some (NFloat f)
  | _ => None
  end.

(** Exact comparison of [m1 * 2^e1] with [m2 * 2^e2]. *)
Definition dyadic_compare (m1 e1 m2 e2 : Z) : comparison :=
  let e := Z.min e1 e2 in
  Z.compare (m1 * 2 ^ (e1 - e)) (m2 * 2 ^ (e2 - e)).

(** Order of two numbers; [None] when a not-a-number is involved, in which
    case every one of [<], [<=], [>], [>=] is false. *)
Definition number_compare (a b : number) : option comparison :=
  match a, b with
  | NInt x, NInt y => Some (Z.compare x y)
  | NFloat FNan, _ | _, NFloat FNan => None
  | NFloat (FInf s), NFloat (FInf s') =>
      Some (if Bool.eqb s s' then Eq else if s then Lt else Gt)
  | NFloat (FInf s), _ => Some (if s then Lt else Gt)
  | _, NFloat (FInf s) => Some (if s then Gt else Lt)
  | NInt x, NFloat (FFinite m e) => Some (dyadic_compare x 0 m e)
  | NFloat (FFinite m e), NInt y => Some (dyadic_compare m e y 0)
  | NFloat (FFinite m e), NFloat (FFinite m' e') =>
      Some (dyadic_compare m e m' e')
  end.

(** [a ? b] between the integer constant [a] of the source and a value [b]:
    a [TypeError] unless [b] is a number. *)
Definition compare_int (a : Z) (b : value) : result (option comparison) :=
  match as_number b with
  | Some n => Ok (number_compare (NInt a) n)
  | None => Raise TypeError
  end.

(** [a <= b], [a >= b], [a < b], [a > b] for an integer constant [a]. *)
Definition int_le (a : Z) (b : value) : result bool :=
  (c <- compare_int a b ;;
   Ok match c with Some Lt | Some Eq => true | _ => false end)%result.

Definition int_ge (a : Z) (b : value) : result bool :=
  (c <- compare_int a b ;;
   Ok match c with Some Gt | Some Eq => true | _ => false end)%result.

Definition int_lt (a : Z) (b : value) : result bool :=
  (c <- compare_int a b ;;
   Ok match c with Some Lt => true | _ => false end)%result.

Definition int_gt (a : Z) (b : value) : result bool :=
  (c <- compare_int a b ;;
   Ok match c with Some Gt => true | _ => false end)%result.

(** [max(v, a)] for an integer constant [a]: the first argument is kept
    unless [a > v]. *)
Definition max_int (v : value) (a : Z) : result value :=
  (b <- int_gt a v ;; Ok (if b then VInt a else v))%result.

(** [min(v, a)] for an integer constant [a]: the first argument is kept
    unless [a < v]. *)
Definition min_int (v : value) (a : Z) : result value :=
  (b <- int_lt a v ;; Ok (if b then VInt a else v))%result.

(** *** Subscripts, membership and [.get] *)

(** [k in v] for a [str] key [k]. *)
Definition contains (k : str) (v : value) : result bool :=
  match v with
  | VDict d => Ok (match lookup k d with Some _ => true | None => false end)
  | VList l => Ok (existsb (fun x => eq_str x k) l)
  | VStr s => Ok (substring_of k s)
  | _ => Raise TypeError
  end.

(** [v[k]] for a [str] key [k]. *)
Definition getitem (v : value) (k : str) : result value :=
  match v with
  | VDict d =>
      match lookup k d with
      | Some x => Ok x
      | None => Raise (KeyError k)
      end
  | _ => Raise TypeError
  end.

(** [v.get(k, default)]: only a dict has the method. *)
Definition get_default (v : value) (k : str) (default : value) : result value :=
  match v with
  | VDict d =>
      Ok match lookup k d with Some x => x | None => default end
  | _ => Raise AttributeError
  end.

(** [v.get(k)] *)
Definition get (v : value) (k : str) : result value := get_default v k VNone.

(** ** Validation *)

(** The HTTP response object, as far as the connector reads it:
    [json] is the outcome of calling [response.json()]. *)
Record response : Type := mk_response {
  status_code : Z;
  text : str;
  json : result value
}.

(** [validate_response]: check the API response for errors or empty data. *)
Definition validate_response (resp : response) : result value :=
  if negb (status_code resp =? 200) then
    Raise (ValueError (ApiReturned (status_code resp) (text resp)))
  else
    match json resp with
    | Ok data =>
        if negb (truthy data) then Raise (ValueError EmptyResponse)
        else Ok data
    | Raise e =>
        if is_JSONDecodeError e then Raise (ValueError InvalidJSON)
        else Raise e
    end.

Definition required_fields : list str :=
  [u "ioc_value"; u "ioc_type"; u "malware"].

(** The loop over [required_fields] of [validate_ioc]. *)
Fixpoint check_required (ioc : value) (fields : list str) : result unit :=
  match fields with
  | [] => Ok tt
  | field :: rest =>
      (present <- contains field ioc ;;
       if negb present then
         id <- get ioc (u "id") ;;
         Raise (ValueError (MissingField field id))
       else check_required ioc rest)%result
  end.

(** [not isinstance(v, str) or not v.strip()] *)
Definition not_text_or_blank (v : value) : bool :=
  match v with
  | VStr s => negb (truthy (VStr (strip s)))
  | _ => true
  end.

(** [validate_ioc]: validate the fields of one record; returns normally when
    the record is accepted. *)
Definition validate_ioc (ioc : value) : result unit :=
  (check_required ioc required_fields ;;
   v <- getitem ioc (u "ioc_value") ;;
   (if not_text_or_blank v then Raise (ValueError (InvalidIndicator v))
    else Ok tt) ;;
   t <- getitem ioc (u "ioc_type") ;;
   (if eq_str t (u "domain") then
      v <- getitem ioc (u "ioc_value") ;;
      dotted <- contains (u ".") v ;;
      if negb dotted then Raise (ValueError (InvalidDomain v)) else Ok tt
    else Ok tt) ;;
   has_conf <- contains (u "confidence_level") ioc ;;
   if has_conf then
     c <- getitem ioc (u "confidence_level") ;;
     lo <- int_le 0 c ;;
     hi <- (if lo then int_ge 100 c else Ok false) ;;
     if negb hi then Raise (ValueError (InvalidConfidence c)) else Ok tt
   else Ok tt)%result.

(** ** The world: output, clock and store driver *)

(** Lines printed by the connector, by the [print] call that writes them. *)
Inductive line : Type :=
| SkippingInvalidIOC (e : exn)
| ExtractedValidIOCs (n : nat)
| ExtractionFailed (e : exn)
| CouldNotParseTimestamp (dt_str : value)
| TransformationFailed (id : value) (e : exn)
| MongoVerification (actual : Z)
| NoDataToLoad
| ProcessedRecords (n : nat) (inserted updated : Z)
| LoadingFailed (e : exn)
| Rule (leading_newline : bool)
| Starting
| Extracting
| Transforming
| Loading
| Completed
| CriticalFailure (e : exn).

(** One [UpdateOne(filter, {'$set': doc}, upsert=...)] request. *)
Record update_one : Type := UpdateOne {
  op_filter : dict;
  op_set : value;
  op_upsert : bool
}.

(** The fields of a [BulkWriteResult] the loader reads. *)
Record bulk_result : Type := mk_bulk_result {
  upserted_count : Z;
  modified_count : Z
}.

(** Calls made to the store driver, in the order they are made. *)
Inductive call : Type :=
| CallMongoClient
| CallGetDatabase
| CallGetCollection
| CallCountDocuments
| CallIndexInformation
| CallCreateIndex (name : str)
| CallBulkWrite (operations : list update_one)
| CallClose.

(** The [pymongo] driver as the loader uses it, over a store state [W].
    Every operation may raise. *)
Record Driver (W : Type) : Type := mk_Driver {
  MongoClient : value -> W -> result unit * W;
  get_database : value -> W -> result unit * W;
  get_collection : value -> W -> result unit * W;
  count_documents : W -> result Z * W;
  index_information : W -> result (list str) * W;
  create_index : list (str * Z) -> str -> W -> result unit * W;
  bulk_write : list update_one -> W -> result bulk_result * W;
  close : W -> result unit * W
}.
Arguments MongoClient {W}.
Arguments get_database {W}.
Arguments get_collection {W}.
Arguments count_documents {W}.
Arguments index_information {W}.
Arguments create_index {W}.
Arguments bulk_write {W}.
Arguments close {W}.

(** [config.Config]: the module is not part of the sources; its three
    attributes are taken as given. *)
Record config : Type := mk_config {
  MONGO_URI : value;
  MONGO_DB : value;
  MONGO_COLLECTION : value
}.

Record world (W : Type) : Type := mk_world {
  stdout : list line;
  ticks : nat;
  store : W;
  calls : list call
}.
Arguments mk_world {W}.
Arguments stdout {W}.
Arguments ticks {W}.
Arguments store {W}.
Arguments calls {W}.

(** Computations that read and change the world and may raise. *)
Definition M (W A : Type) : Type := world W -> result A * world W.

Definition ret {W A} (a : A) : M W A := fun w => (Ok a, w).

Definition raise {W A} (e : exn) : M W A := fun w => (Raise e, w).

Definition bind {W A B} (c : M W A) (k : A -> M W B) : M W B :=
  fun w =>
    match c w with
    | (Ok a, w') => k a w'
    | (Raise e, w') => (Raise e, w')
    end.

Declare Scope py_scope.
Delimit Scope py_scope with py.
Notation "x <- c ;; k" := (bind c (fun x => k))
  (at level 61, c at next level, right associativity) : py_scope.
Notation "c ;; k" := (bind c (fun _ => k))
  (at level 61, right associativity) : py_scope.

(** A pure computation run inside [M]. *)
Definition lift {W A} (r : result A) : M W A := fun w => (r, w).

(** The world after one [print]. *)
Definition after_print {W} (l : line) (w : world W) : world W :=
  mk_world (stdout w ++ [l]) (ticks w) (store w) (calls w).

(** Whether a line can be written, by the [print] call that writes it.  The
    lines of the feed carry text of the feed: a rejected record's message
    (source line 69), the failure of the request or of the envelope (line
    76), a timestamp (line 86), a record's [id] (line 111).  The two
    handlers of the loader and of the orchestrator (lines 167 and 206) print
    exceptions of the driver, of the interpreter or of a failed [print],
    whose messages are escaped text; the other lines are literals and
    numbers. *)
Definition printable (l : line) : bool :=
  match l with
  | SkippingInvalidIOC e => printable_exn e
  | ExtractionFailed e => printable_exn e
  | CouldNotParseTimestamp dt_str => printable_value dt_str
  | TransformationFailed id e => printable_value id && printable_exn e
  | _ => true
  end.

(** [print(...)]: the line is written, or nothing is and the encoder raises
    [UnicodeEncodeError]. *)
Definition print {W} (l : line) : M W unit :=
  fun w =>
    if printable l then (Ok tt, after_print l w)
    else (Raise UnicodeEncodeError, w).

(** The world after one reading of the clock. *)
Definition tick {W} (w : world W) : world W :=
  mk_world (stdout w) (S (ticks w)) (store w) (calls w).

(** [try: c / except cls as e: handler e], where [catches e] tells whether
    [e] is an instance of [cls]. *)
Definition try_except {W A} (c : M W A) (catches : exn -> bool)
    (handler : exn -> M W A) : M W A :=
  fun w =>
    match c w with
    | (Ok a, w') => (Ok a, w')
    | (Raise e, w') => if catches e then handler e w' else (Raise e, w')
    end.

(** [except Exception]: every exception of [exn] is an [Exception]. *)
Definition Exception (e : exn) : bool := true.

(** [try: c / finally: f]: [f] runs on every exit of [c]; an exception raised
    by [f] replaces the outcome of [c]. *)
Definition try_finally {W A} (c : M W A) (f : M W unit) : M W A :=
  fun w =>
    match c w with
    | (r, w') =>
        match f w' with
        | (Ok _, w'') => (r, w'')
        | (Raise e, w'') => (Raise e, w'')
        end
    end.

(** Runs [c] and hands back its outcome instead of raising. *)
Definition attempt {W A} (c : M W A) : M W (result A) :=
  fun w => match c w with (r, w') => (Ok r, w') end.

(** A driver operation, recorded in [calls]. *)
Definition driver_call {W A} (c : call) (op : W -> result A * W) : M W A :=
  fun w =>
    match op (store w) with
    | (r, s') => (r, mk_world (stdout w) (ticks w) s' (calls w ++ [c]))
    end.

(** ** Stand-ins for the driver

    The theorems hold for every driver.  The examples need drivers that can
    be run; the two below are stand-ins, not models of MongoDB.  The first
    keeps nothing but a count, and takes every operation of a bulk write for
    an insert. *)
Definition counting_driver : Driver Z := {|
  MongoClient := fun _ n => (Ok tt, n);
  get_database := fun _ n => (Ok tt, n);
  get_collection := fun _ n => (Ok tt, n);
  count_documents := fun n => (Ok n, n);
  index_information := fun n => (Ok [], n);
  create_index := fun _ _ n => (Ok tt, n);
  bulk_write := fun ops n =>
    (Ok (mk_bulk_result (Z.of_nat (length ops)) 0),
     n + Z.of_nat (length ops));
  close := fun n => (Ok tt, n)
|}.

(** A deployment whose client cannot be constructed (for instance the name
    of a [mongodb+srv] host does not resolve): [MongoClient(...)] raises. *)
Definition unreachable_driver : Driver unit := {|
  MongoClient := fun _ s => (Raise (LibraryError 1), s);
  get_database := fun _ s => (Ok tt, s);
  get_collection := fun _ s => (Ok tt, s);
  count_documents := fun s => (Ok 0, s);
  index_information := fun s => (Ok [], s);
  create_index := fun _ _ s => (Ok tt, s);
  bulk_write := fun _ s => (Ok (mk_bulk_result 0 0), s);
  close := fun s => (Ok tt, s)
|}.

(** ** A reading of the timestamp pattern

    [datetime.strptime] belongs to the Python library; the connector is
    verified for every parser.  The examples run with [strptime_strict],
    which reads the zero-padded layout [YYYY-MM-DD HH:MM:SS] only; the
    library also reads fields that are not padded. *)

Fixpoint digits (s : str) (acc : Z) : option Z :=
  match s with
  | [] => Some acc
  | c :: rest =>
      if ((48 <=? c) && (c <=? 57))%N
      then digits rest (10 * acc + (Z.of_N c - 48))
      else None
  end.

Definition field (s : str) (start len : nat) : option Z :=
  digits (firstn len (skipn start s)) 0.

Definition separator (s : str) (pos : nat) (c : N) : bool :=
  match nth_error s pos with
  | Some x => (x =? c)%N
  | None => false
  end.

Definition leap_year (y : Z) : bool :=
  ((y mod 4 =? 0) && negb (y mod 100 =? 0)) || (y mod 400 =? 0).

Definition days_in_month (y m : Z) : Z :=
  if m =? 2 then (if leap_year y then 29 else 28)
  else if (m =? 4) || (m =? 6) || (m =? 9) || (m =? 11) then 30
  else 31.

Definition strptime_strict (s : str) : option datetime :=
  if negb (Nat.eqb (length s) 19) then None
  else if negb (separator s 4 45 && separator s 7 45 && separator s 10 32 &&
                separator s 13 58 && separator s 16 58) then None
  else
    match field s 0 4, field s 5 2, field s 8 2,
          field s 11 2, field s 14 2, field s 17 2 with
    | Some y, Some mo, Some d, Some h, Some mi, Some sec =>
        if (1 <=? y) && (1 <=? mo) && (mo <=? 12) &&
           (1 <=? d) && (d <=? days_in_month y mo) &&
           (h <=? 23) && (mi <=? 59) && (sec <=? 59)
        then Some (mk_datetime y mo d h mi sec 0)
        else None
    | _, _, _, _, _, _ => None
    end.

(** ** The connector *)

Section Connector.

Context {W : Type}.

(** The store driver, the configuration, the library's timestamp parser
    ([None] when it raises its [ValueError]), the reading of the clock at
    its n-th call, and the outcome of the one HTTP request. *)
Variable driver : Driver W.
Variable Config : config.
Variable strptime : str -> option datetime.
Variable utcnow : nat -> datetime.
Variable requests_get : str -> list (str * str) -> Z -> result response.

Local Open Scope py_scope.

(** *** Extraction *)

(** The loop over one group of the feed: a record is appended when
    [validate_ioc] returns, skipped when it raises a [ValueError]. *)
Fixpoint validate_items (items iocs : list value) : M W (list value) :=
  match items with
  | [] => ret iocs
  | ioc :: rest =>
      iocs' <- try_except
                 (lift (validate_ioc ioc) ;; ret (iocs ++ [ioc]))
                 is_ValueError
                 (fun e => print (SkippingInvalidIOC e) ;; ret iocs) ;;
      validate_items rest iocs'
  end.

(** The loop over [data.items()]: only list-valued groups are read. *)
Fixpoint collect (groups : dict) (iocs : list value) : M W (list value) :=
  match groups with
  | [] => ret iocs
  | (key, items) :: rest =>
      iocs' <- match items with
               | VList l => validate_items l iocs
               | _ => ret iocs
               end ;;
      collect rest iocs'
  end.

(** [data.items()]: only a dict has the method. *)
Definition items_of (data : value) : result dict :=
  match data with
  | VDict d => Ok d
  | _ => Raise AttributeError
  end.

Definition url : str := u "https://threatfox.abuse.ch/export/json/recent/".

Definition headers : list (str * str) :=
  [(u "User-Agent", u "ThreatFox-ETL-Connector/1.0");
   (u "Accept", u "application/json")].

(** [extract_data]: fetch the feed and keep its valid records.  The fixed
    [time.sleep(2)] before the request has no effect on the world. *)
Definition extract_data : M W (list value) :=
  try_except
    (resp <- lift (requests_get url headers 30) ;;
     data <- lift (validate_response resp) ;;
     groups <- lift (items_of data) ;;
     iocs <- collect groups [] ;;
     print (ExtractedValidIOCs (length iocs)) ;;
     ret iocs)
    Exception
    (fun e => print (ExtractionFailed e) ;; ret []).

(** *** Transformation *)

(** [datetime.strptime(v, '%Y-%m-%d %H:%M:%S')]: a [TypeError] unless [v]
    is a [str]. *)
Definition datetime_strptime (v : value) : result value :=
  match v with
  | VStr s =>
      match strptime s with
      | Some t => Ok (VDatetime t)
      | None => Raise (ValueError LibraryMessage)
      end
  | _ => Raise TypeError
  end.

(** [parse_datetime]: parse a datetime string into a datetime object. *)
Definition parse_datetime (dt_str : value) : M W value :=
  if negb (truthy dt_str) then ret VNone
  else
    try_except
      (lift (datetime_strptime dt_str))
      is_ValueError
      (fun _ => print (CouldNotParseTimestamp dt_str) ;; ret VNone).

(** [datetime.utcnow()] *)
Definition datetime_utcnow : M W value :=
  fun w => (Ok (VDatetime (utcnow (ticks w))), tick w).

(** The dict display of [transform_data], its entries evaluated in order. *)
Definition build_document (item : value) : M W dict :=
  ioc_id <- lift (get item (u "id")) ;;
  indicator <- lift (getitem item (u "ioc_value")) ;;
  ioc_type <- lift (getitem item (u "ioc_type")) ;;
  threat_type <- lift (get item (u "threat_type")) ;;
  malware <- lift (getitem item (u "malware")) ;;
  malware_alias <- lift (get_default item (u "malware_alias") (VList [])) ;;
  first_seen_utc <- lift (get item (u "first_seen_utc")) ;;
  first_seen <- parse_datetime first_seen_utc ;;
  last_seen_utc <- lift (get item (u "last_seen_utc")) ;;
  last_seen <- parse_datetime last_seen_utc ;;
  confidence <- lift (get_default item (u "confidence_level") (VInt 50)) ;;
  raised <- lift (max_int confidence 0) ;;
  confidence_level <- lift (min_int raised 100) ;;
  reference <- lift (get_default item (u "reference") (VList [])) ;;
  tags <- lift (get_default item (u "tags") (VList [])) ;;
  etl_timestamp <- datetime_utcnow ;;
  ret [(u "ioc_id", ioc_id);
       (u "indicator", indicator);
       (u "ioc_type", ioc_type);
       (u "threat_type", threat_type);
       (u "malware", malware);
       (u "malware_alias", malware_alias);
       (u "first_seen", first_seen);
       (u "last_seen", last_seen);
       (u "confidence_level", confidence_level);
       (u "reference", reference);
       (u "tags", tags);
       (u "etl_timestamp", etl_timestamp)].

(** [v not in (None, [])] *)
Definition present (v : value) : bool :=
  negb (eq_None v || eq_empty_list v).

(** [{k: v for k, v in doc.items() if v not in (None, [])}] *)
Definition clean (doc : dict) : dict :=
  filter (fun kv => present (snd kv)) doc.

(** The loop of [transform_data] with its accumulator [transformed]. *)
Fixpoint transform_items (raw_data transformed : list value)
    : M W (list value) :=
  match raw_data with
  | [] => ret transformed
  | item :: rest =>
      transformed' <-
        try_except
          (doc <- build_document item ;;
           ret (transformed ++ [VDict (clean doc)]))
          Exception
          (fun e =>
             id <- lift (get item (u "id")) ;;
             print (TransformationFailed id e) ;;
             ret transformed) ;;
      transform_items rest transformed'
  end.

(** [transform_data]: transform raw records for the store. *)
Definition transform_data (raw_data : list value) : M W (list value) :=
  transform_items raw_data [].

(** *** Loading *)

(** [verify_mongodb_insert]: verify documents were inserted correctly. *)
Definition verify_mongodb_insert (expected_count : Z) : M W unit :=
  actual_count <- driver_call CallCountDocuments (count_documents driver) ;;
  if actual_count <? expected_count
  then raise (ValueError (DataLoss expected_count actual_count))
  else print (MongoVerification actual_count).

Definition indexes : list (str * list (str * Z)) :=
  [(u "indicator_1", [(u "indicator", 1)]);
   (u "ioc_type_1", [(u "ioc_type", 1)]);
   (u "malware_1", [(u "malware", 1)])].

(** The loop creating the missing indexes. *)
Fixpoint ensure_indexes (ixs : list (str * list (str * Z))) : M W unit :=
  match ixs with
  | [] => ret tt
  | (name, fields) :: rest =>
      info <- driver_call CallIndexInformation (index_information driver) ;;
      (if negb (existsb (str_eqb name) info)
       then driver_call (CallCreateIndex name)
              (create_index driver fields name)
       else ret tt) ;;
      ensure_indexes rest
  end.

(** The list of [UpdateOne({'indicator': doc['indicator']}, {'$set': doc},
    upsert=True)], one per document. *)
Fixpoint build_operations (transformed_data : list value)
    : result (list update_one) :=
  match transformed_data with
  | [] => Ok []
  | doc :: rest =>
      (indicator <- getitem doc (u "indicator") ;;
       operations <- build_operations rest ;;
       Ok (UpdateOne [(u "indicator", indicator)] doc true :: operations)
      )%result
  end.

(** The [try] body of [load_data] from the second statement on, once
    [client] is bound. *)
Definition load_with_client (transformed_data : list value) : M W bool :=
  driver_call CallGetDatabase (get_database driver (MONGO_DB Config)) ;;
  driver_call CallGetCollection
    (get_collection driver (MONGO_COLLECTION Config)) ;;
  initial_count <-
    driver_call CallCountDocuments (count_documents driver) ;;
  ensure_indexes indexes ;;
  operations <- lift (build_operations transformed_data) ;;
  result <- driver_call (CallBulkWrite operations)
              (bulk_write driver operations) ;;
  print (ProcessedRecords (length operations) (upserted_count result)
           (modified_count result)) ;;
  verify_mongodb_insert (initial_count + upserted_count result) ;;
  ret true.

(** The [except Exception] handler of [load_data]. *)
Definition loading_failed (e : exn) : M W bool :=
  print (LoadingFailed e) ;; ret false.

(** [load_data]: load the documents into the store.  The local name
    [client] is bound only when [MongoClient(...)] returns; the [finally]
    clause reads it on every exit of the [try] statement. *)
Definition load_data (transformed_data : list value) : M W bool :=
  if negb (truthy (VList transformed_data)) then
    print NoDataToLoad ;; ret false
  else
    client <- attempt (driver_call CallMongoClient
                         (MongoClient driver (MONGO_URI Config))) ;;
    match client with
    | Ok _ =>
        try_finally
          (try_except (load_with_client transformed_data) Exception
             loading_failed)
          (driver_call CallClose (close driver))
    | Raise e =>
        try_finally
          (loading_failed e)
          (raise (UnboundLocalError (u "client")))
    end.

(** *** Orchestration *)

(** [run_etl]: orchestrate the pipeline. *)
Definition run_etl : M W bool :=
  print (Rule true) ;; print Starting ;; print (Rule false) ;;
  try_except
    (print Extracting ;;
     raw_data <- extract_data ;;
     if negb (truthy (VList raw_data)) then ret false
     else
       print Transforming ;;
       transformed_data <- transform_data raw_data ;;
       if negb (truthy (VList transformed_data)) then ret false
       else
         print Loading ;;
         success <- load_data transformed_data ;;
         (if success
          then print (Rule true) ;; print Completed ;; print (Rule false)
          else ret tt) ;;
         ret success)
    Exception
    (fun e => print (CriticalFailure e) ;; ret false).

End Connector.

Arguments u : simpl never.

(** ** Sample data *)

Definition sample_config : config :=
  mk_config (VStr (u "mongodb://localhost:27017")) (VStr (u "threatfox"))
    (VStr (u "iocs")).

(** A clock that advances one second per reading. *)
Definition sample_clock (n : nat) : datetime :=
  mk_datetime 2024 1 1 0 0 (Z.of_nat n) 0.

(** A feed answering 200 with the given records grouped under one day. *)
Definition feed_of (records : list value)
    : str -> list (str * str) -> Z -> result response :=
  fun _ _ _ =>
    Ok (mk_response 200 [] (Ok (VDict [(u "2024-01-01", VList records)]))).

Definition fields_of (id : Z) (ioc_value : value) (extra : dict) : dict :=
  [(u "id", VInt id);
   (u "ioc_value", ioc_value);
   (u "ioc_type", VStr (u "domain"));
   (u "malware", VStr (u "X"))] ++ extra.

Definition record_of (id : Z) (ioc_value : value) (extra : dict) : value :=
  VDict (fields_of id ioc_value extra).

Definition valid_record : value :=
  record_of 1 (VStr (u "evil.com")) [(u "confidence_level", VInt 75)].

Definition text_confidence_record : value :=
  record_of 2 (VStr (u "bad.example"))
    [(u "confidence_level", VStr (u "high"))].

Definition padded_record : value :=
  record_of 3 (VStr (u " evil.com ")) [].

Definition epoch_first_seen_record : value :=
  record_of 4 (VStr (u "evil.com")) [(u "first_seen_utc", VInt 1700000000)].

Definition garbled_last_seen_record : value :=
  record_of 5 (VStr (u "evil.com"))
    [(u "first_seen_utc", VStr (u "2024-01-01 10:00:00"));
     (u "last_seen_utc", VStr (u "yesterday"))].

Definition confidence_150_record : value :=
  record_of 6 (VStr (u "evil.com")) [(u "confidence_level", VInt 150)].

Definition confidence_minus_10_record : value :=
  record_of 7 (VStr (u "evil.com")) [(u "confidence_level", VInt (-10))].


(** A record without [malware] whose [id] is a lone low surrogate. *)
Definition surrogate_id_record : value :=
  VDict [(u "id", VStr [56320%N]);
         (u "ioc_value", VStr (u "evil.com"));
         (u "ioc_type", VStr (u "domain"))].

(** A feed answering 404. *)
Definition not_found_feed : str -> list (str * str) -> Z -> result response :=
  fun _ _ _ => Ok (mk_response 404 (u "Not Found") (Raise JSONDecodeError)).

(** A document as the transformer hands them to the loader. *)
Definition new_document_fields : dict :=
  [(u "indicator", VStr (u "evil.com"));
   (u "ioc_type", VStr (u "domain"));
   (u "malware", VStr (u "X"));
   (u "confidence_level", VInt 100);
   (u "etl_timestamp", VDatetime (mk_datetime 2024 1 2 12 0 0 0))].

Definition new_document : value := VDict new_document_fields.


Definition fresh_world {W : Type} (s : W) : world W := mk_world [] 0%nat s [].

(** ** Specification predicates *)

(** A number lies in [[0, 100]]; the float [m * 2^e] is compared exactly. *)
Definition within_0_100 (c : value) : Prop :=
  match c with
  | VInt z => 0 <= z <= 100
  | VBool _ => True
  | VFloat (FFinite m e) =>
      0 <= m /\ m * 2 ^ Z.max e 0 <= 100 * 2 ^ Z.max (- e) 0
  | _ => False
  end.

(** A text value that is non-empty after trimming. *)
Definition non_blank_text (v : value) : Prop :=
  exists s, v = VStr s /\ strip s <> [].

(** The four grounds on which a record is rejected. *)
Definition required_absent (d : dict) : Prop :=
  lookup (u "ioc_value") d = None \/
  lookup (u "ioc_type") d = None \/
  lookup (u "malware") d = None.

Definition indicator_not_text (d : dict) : Prop :=
  exists v, lookup (u "ioc_value") d = Some v /\ ~ non_blank_text v.

Definition undotted_domain (d : dict) : Prop :=
  lookup (u "ioc_type") d = Some (VStr (u "domain")) /\
  exists s, lookup (u "ioc_value") d = Some (VStr s) /\ ~ In 46%N s.

Definition confidence_out_of_range (d : dict) : Prop :=
  exists c, lookup (u "confidence_level") d = Some c /\ ~ within_0_100 c.

Definition rejected (d : dict) : Prop :=
  required_absent d \/ indicator_not_text d \/ undotted_domain d \/
  confidence_out_of_range d.

Definition stdout_grows {W} (w w' : world W) : Prop :=
  exists lines, stdout w' = stdout w ++ lines.

Definition is_mapping (v : value) : Prop := exists d, v = VDict d.

Definition or_default (o : option value) (default : value) : value :=
  match o with Some x => x | None => default end.

(** [min(max(c, 0), 100)] *)
Definition clamp_confidence (c : value) : result value :=
  (raised <- max_int c 0 ;; min_int raised 100)%result.

(** The dict display of [transform_data] on the mapping [d], given its
    parsed timestamps, its clamped confidence and the clock reading. *)
Definition document (d : dict) (first_seen last_seen confidence_level : value)
    (now : datetime) : dict :=
  [(u "ioc_id", or_default (lookup (u "id") d) VNone);
   (u "indicator", or_default (lookup (u "ioc_value") d) VNone);
   (u "ioc_type", or_default (lookup (u "ioc_type") d) VNone);
   (u "threat_type", or_default (lookup (u "threat_type") d) VNone);
   (u "malware", or_default (lookup (u "malware") d) VNone);
   (u "malware_alias", or_default (lookup (u "malware_alias") d) (VList []));
   (u "first_seen", first_seen);
   (u "last_seen", last_seen);
   (u "confidence_level", confidence_level);
   (u "reference", or_default (lookup (u "reference") d) (VList []));
   (u "tags", or_default (lookup (u "tags") d) (VList []));
   (u "etl_timestamp", VDatetime now)].

(** How the [confidence_level] of a document [d] follows from its record
    [r]: the default, the clamped integer with the two cases the
    specification names, and any other number but not-a-number. *)
Definition confidence_rule (r d : dict) : Prop :=
  (lookup (u "confidence_level") r = None ->
   lookup (u "confidence_level") d = Some (VInt 50)) /\
  (forall z,
     lookup (u "confidence_level") r = Some (VInt z) ->
     lookup (u "confidence_level") d = Some (VInt (Z.min (Z.max z 0) 100))) /\
  (lookup (u "confidence_level") r = Some (VInt 150) ->
   lookup (u "confidence_level") d = Some (VInt 100)) /\
  (lookup (u "confidence_level") r = Some (VInt (-10)) ->
   lookup (u "confidence_level") d = Some (VInt 0)) /\
  (forall c n,
     lookup (u "confidence_level") r = Some c ->
     as_number c = Some n ->
     n <> NFloat FNan ->
     exists v,
       lookup (u "confidence_level") d = Some v /\
       within_0_100 v /\ (within_0_100 c -> v = c)).

(** A timestamp field [parse_datetime] gets through: absent, falsy, or a
    text that parses or, when it does not, can at least be printed. *)
Definition readable (strptime : str -> option datetime) (o : option value)
    : Prop :=
  match o with
  | None => True
  | Some v =>
      truthy v = false \/
      exists s, v = VStr s /\ (strptime s = None -> encodable s = true)
  end.

(** The records [transform_data] makes a document of: mappings that carry
    the three fields the dict display subscripts, whose timestamps
    [parse_datetime] gets through, and whose [confidence_level], when there
    is one, is a number. *)
Definition transformable (strptime : str -> option datetime) (d : dict)
    : Prop :=
  lookup (u "ioc_value") d <> None /\
  lookup (u "ioc_type") d <> None /\
  lookup (u "malware") d <> None /\
  readable strptime (lookup (u "first_seen_utc") d) /\
  readable strptime (lookup (u "last_seen_utc") d) /\
  (forall c, lookup (u "confidence_level") d = Some c -> as_number c <> None).

(** The items the record loop of [transform_data] gets past: mappings that
    are made into a document, or whose [id] can be printed with the
    failure. *)
Definition harmless (strptime : str -> option datetime) (item : value)
    : Prop :=
  exists d,
    item = VDict d /\
    (transformable strptime d \/
     printable_value (or_default (lookup (u "id") d) VNone) = true).

(** [keeps R c]: running [c] relates the world before to the world after. *)
Definition keeps {W A} (R : world W -> world W -> Prop) (c : M W A) : Prop :=
  forall w, R w (snd (c w)).

(** The driver calls made between two worlds, none of them [close]. *)
Definition calls_open {W} (w w' : world W) : Prop :=
  exists made, calls w' = calls w ++ made /\ ~ In CallClose made.

(** The world in which [run_etl] calls the extractor. *)
Definition at_extraction {W} (w : world W) : world W :=
  after_print Extracting
    (after_print (Rule false)
       (after_print Starting (after_print (Rule true) w))).

Definition accepted (v : value) : bool :=
  match validate_ioc v with Ok _ => true | Raise _ => false end.

(** A record is orderly when [validate_ioc] either returns or raises a
    [ValueError]. *)
Definition orderly (v : value) : Prop :=
  match validate_ioc v with
  | Ok _ => True
  | Raise e => is_ValueError e = true
  end.

(** The records of a feed, group after group. *)
Definition records_of (groups : dict) : list value :=
  flat_map (fun kv => match snd kv with VList l => l | _ => [] end) groups.

(** What the document [doc] of the record [d] says of the record's
    timestamps, and what has been printed in the world [w']: a text that
    does not parse is reported and leaves no key. *)
Definition unparsed_absent {W} (strptime : str -> option datetime)
    (d doc : dict) (w' : world W) : Prop :=
  (forall s,
     lookup (u "first_seen_utc") d = Some (VStr s) -> s <> [] ->
     strptime s = None ->
     lookup (u "first_seen") doc = None /\
     In (CouldNotParseTimestamp (VStr s)) (stdout w')) /\
  (forall s,
     lookup (u "last_seen_utc") d = Some (VStr s) -> s <> [] ->
     strptime s = None ->
     lookup (u "last_seen") doc = None /\
     In (CouldNotParseTimestamp (VStr s)) (stdout w')).

(** *** Predicates of the further properties *)

(** A field after presence reduction: kept unless it is [None] or [[]]. *)
Definition reduced (o : option value) : option value :=
  match o with
  | Some v => if present v then Some v else None
  | None => None
  end.

(** The fields [transform_data] copies, as (record key, document key). *)
Definition copied_fields : list (str * str) :=
  [(u "id", u "ioc_id");
   (u "ioc_value", u "indicator");
   (u "ioc_type", u "ioc_type");
   (u "threat_type", u "threat_type");
   (u "malware", u "malware");
   (u "malware_alias", u "malware_alias");
   (u "reference", u "reference");
   (u "tags", u "tags")].

(** The exceptions [validate_ioc] raises on the records of a feed, in feed
    order. *)
Definition rejections (records : list value) : list exn :=
  flat_map
    (fun r => match validate_ioc r with Ok _ => [] | Raise e => [e] end)
    records.

(** The exception that ends the record loop on [records]: the one
    [validate_ioc] raises on a record when it is no [ValueError], or the
    [UnicodeEncodeError] of printing a rejection whose message cannot be
    written. *)
Definition ends_loop (records : list value) (e : exn) : Prop :=
  exists r e0,
    In r records /\ validate_ioc r = Raise e0 /\
    (is_ValueError e0 = false /\ e = e0 \/
     is_ValueError e0 = true /\ printable_exn e0 = false /\
     e = UnicodeEncodeError).

(** The driver calls of [load_data] up to the first count: client,
    database, collection and [count_documents]. *)
Definition count_before {W} (driver : Driver W) (Config : config) : M W Z :=
  (driver_call CallMongoClient (MongoClient driver (MONGO_URI Config)) ;;
   driver_call CallGetDatabase (get_database driver (MONGO_DB Config)) ;;
   driver_call CallGetCollection
     (get_collection driver (MONGO_COLLECTION Config)) ;;
   driver_call CallCountDocuments (count_documents driver))%py.

(** The worlds differ by printed lines only. *)
Definition only_prints {W} (w w' : world W) : Prop :=
  ticks w' = ticks w /\ store w' = store w /\ calls w' = calls w.

(** A record as the pipeline hands it to the transformer: a mapping that
    [validate_ioc] accepts, with timestamps [parse_datetime] gets
    through. *)
Definition pipeline_record (strptime : str -> option datetime) (r : value)
    : Prop :=
  exists d,
    r = VDict d /\ validate_ioc r = Ok tt /\
    readable strptime (lookup (u "first_seen_utc") d) /\
    readable strptime (lookup (u "last_seen_utc") d).

(** The document of a pipeline record: its indicator is the record's
    [ioc_value] and its confidence the record's, or 50. *)
Definition document_for (r doc : value) : Prop :=
  exists d dd,
    r = VDict d /\ doc = VDict dd /\
    lookup (u "indicator") dd = lookup (u "ioc_value") d /\
    lookup (u "confidence_level") dd =
    Some (or_default (lookup (u "confidence_level") d) (VInt 50)).

(** The operation the loader builds for a document: an upsert of the whole
    document under its [indicator]. *)
Definition upsert_of (doc : value) (op : update_one) : Prop :=
  exists i,
    getitem doc (u "indicator") = Ok i /\
    op = UpdateOne [(u "indicator", i)] doc true.

(** The calls of the index setup. *)
Definition is_index_call (c : call) : bool :=
  match c with
  | CallIndexInformation | CallCreateIndex _ => true
  | _ => false
  end.

(** The operation lists handed to [bulk_write] by a sequence of calls. *)
Definition bulk_writes (made : list call) : list (list update_one) :=
  flat_map
    (fun c => match c with CallBulkWrite ops => [ops] | _ => [] end)
    made.


(** The lines printed between two worlds, the success banner not among
    them. *)
Definition quiet {W} (w w' : world W) : Prop :=
  exists added, stdout w' = stdout w ++ added /\ ~ In Completed added.

(** ** Basic facts *)

Lemma str_eqb_eq (a b : str) : str_eqb a b = true <-> a = b.
Proof.
  revert b. induction a as [|x a IH]; intros [|y b]; cbn;
    try (split; [discriminate | congruence]); [tauto|].
  rewrite andb_true_iff, N.eqb_eq, IH. split.
  - intros [-> ->]. reflexivity.
  - intros [= -> ->]. tauto.
Qed.

Lemma str_eqb_refl (a : str) : str_eqb a a = true.
Proof. apply str_eqb_eq. reflexivity. Qed.

Lemma str_eqb_neq (a b : str) : str_eqb a b = false <-> a <> b.
Proof.
  rewrite <- str_eqb_eq. destruct (str_eqb a b); split; congruence.
Qed.

Lemma starts_with_dot (s : str) :
  starts_with (u ".") s = match s with c :: _ => (46 =? c)%N | [] => false end.
Proof. destruct s as [|c s]; [reflexivity|]. cbn. apply andb_true_r. Qed.

(** ['.' in s] holds exactly when the code point 46 occurs in [s]. *)
Lemma substring_dot (s : str) : substring_of (u ".") s = true <-> In 46%N s.
Proof.
  induction s as [|c s IH].
  - cbn. split; [discriminate | tauto].
  - cbn [substring_of In]. rewrite orb_true_iff, IH, starts_with_dot.
    rewrite N.eqb_eq. intuition congruence.
Qed.

Lemma dyadic_compare_antisym (m1 e1 m2 e2 : Z) :
  dyadic_compare m1 e1 m2 e2 = CompOpp (dyadic_compare m2 e2 m1 e1).
Proof.
  unfold dyadic_compare. rewrite (Z.min_comm e2 e1). apply Z.compare_antisym.
Qed.

(** [0 <= c <= 100] evaluates to true exactly on the numbers of the range,
    and raises on anything that is not a number. *)
Lemma range_check_spec (c : value) :
  match (lo <- int_le 0 c ;; if lo then int_ge 100 c else Ok false)%result with
  | Ok b => b = true <-> within_0_100 c
  | Raise _ => ~ within_0_100 c
  end.
Proof.
  destruct c as [|b|z|f|s|l|d|t];
    cbn -[Z.compare Z.mul Z.pow dyadic_compare]; try tauto.
  - destruct b; cbn; tauto.
  - destruct (0 ?= z) eqn:H0; cbn -[Z.compare];
      destruct (100 ?= z) eqn:H1; cbn -[Z.compare];
      try (apply Z.compare_eq in H0); try (apply Z.compare_eq in H1);
      rewrite ?Z.compare_lt_iff, ?Z.compare_gt_iff in *;
      split; intros; try discriminate; try lia; reflexivity.
  - destruct f as [|n|m e]; cbn -[Z.compare Z.mul Z.pow dyadic_compare].
    + intuition discriminate.
    + destruct n; cbn; intuition discriminate.
    + unfold dyadic_compare.
      replace (0 - Z.min 0 e) with (Z.max (- e) 0) by lia.
      replace (e - Z.min 0 e) with (Z.max e 0) by lia.
      rewrite Z.mul_0_l.
      assert (He : 0 < 2 ^ Z.max e 0) by (apply Z.pow_pos_nonneg; lia).
      assert (Hne : 0 < 2 ^ Z.max (- e) 0) by (apply Z.pow_pos_nonneg; lia).
      set (p := 2 ^ Z.max e 0) in *. set (q := 2 ^ Z.max (- e) 0) in *.
      destruct (0 ?= m * p) eqn:H0; cbn -[Z.compare Z.mul Z.pow];
        destruct (100 * q ?= m * p) eqn:H1; cbn -[Z.compare Z.mul Z.pow];
        try (apply Z.compare_eq in H0); try (apply Z.compare_eq in H1);
        rewrite ?Z.compare_lt_iff, ?Z.compare_gt_iff in *;
        split; intros; try discriminate; try reflexivity; try nia.
Qed.

(** ** Validation of one record *)

(** The required-field loop on a mapping: it returns exactly when the three
    fields are present. *)
Lemma check_required_dict (d : dict) :
  match check_required (VDict d) required_fields with
  | Ok _ => ~ required_absent d
  | Raise _ => required_absent d
  end.
Proof.
  unfold required_absent, required_fields, check_required, contains, get,
    get_default, rbind.
  destruct (lookup (u "ioc_value") d); cbn; [|tauto].
  destruct (lookup (u "ioc_type") d); cbn; [|tauto].
  destruct (lookup (u "malware") d); cbn; [|tauto].
  intuition discriminate.
Qed.

Lemma not_text_or_blank_spec (v : value) :
  not_text_or_blank v = false <-> non_blank_text v.
Proof.
  unfold non_blank_text.
  destruct v as [| | | |s| | |]; cbn;
    try (split; [discriminate | intros (s' & H & _); discriminate]).
  destruct (strip s) eqn:Hs; cbn.
  - split; [discriminate|]. intros (s' & H & Hne). injection H as <-.
    congruence.
  - split; [|reflexivity]. intros _. exists s. split; congruence.
Qed.

(** The domain rule on a record whose [ioc_value] is the text [s]. *)
Lemma domain_rule_spec (t : value) (s : str) :
  match (if eq_str t (u "domain") then
           dotted <- contains (u ".") (VStr s) ;;
           if negb dotted then Raise (ValueError (InvalidDomain (VStr s)))
           else Ok tt
         else Ok tt)%result with
  | Ok _ => ~ (t = VStr (u "domain") /\ ~ In 46%N s)
  | Raise _ => t = VStr (u "domain") /\ ~ In 46%N s
  end.
Proof.
  destruct (eq_str t (u "domain")) eqn:Hd.
  - destruct t; try discriminate. cbn in Hd. apply str_eqb_eq in Hd. subst.
    cbn [contains rbind]. pose proof (substring_dot s) as Hdot.
    destruct (substring_of (u ".") s); cbn.
    + intros [_ Hn]. apply Hn, Hdot. reflexivity.
    + split; [reflexivity|]. intros Hin. apply Hdot in Hin. discriminate.
  - intros [-> _]. cbn in Hd. rewrite str_eqb_refl in Hd. discriminate.
Qed.

(** The outcome of [validate_ioc] on a mapping, by the four grounds. *)
Lemma validate_ioc_dict (d : dict) :
  match validate_ioc (VDict d) with
  | Ok _ => ~ rejected d
  | Raise _ => rejected d
  end.
Proof.
  unfold validate_ioc, rejected.
  pose proof (check_required_dict d) as Hreq.
  destruct (check_required (VDict d) required_fields) as [[]|e];
    cbn [rbind]; [|tauto].
  unfold required_absent in Hreq.
  unfold indicator_not_text, undotted_domain, confidence_out_of_range.
  unfold getitem. cbn [contains].
  destruct (lookup (u "ioc_value") d) as [v|] eqn:Hv; [|tauto].
  destruct (lookup (u "ioc_type") d) as [t|] eqn:Ht; [|tauto].
  cbn [rbind].
  pose proof (not_text_or_blank_spec v) as Hnb.
  destruct (not_text_or_blank v); cbn [rbind].
  { right; left. exists v. split; [reflexivity|].
    intros H. apply Hnb in H. discriminate. }
  destruct Hnb as [Hnb _]. destruct (Hnb eq_refl) as (s & -> & Hs).
  assert (Hna : ~ required_absent d).
  { unfold required_absent. rewrite Hv, Ht. exact Hreq. }
  assert (Hnt : ~ exists v, Some (VStr s) = Some v /\ ~ non_blank_text v).
  { intros (v & [= <-] & Hn). apply Hn. exists s. tauto. }
  pose proof (domain_rule_spec t s) as Hdom. revert Hdom.
  match goal with
  | |- match ?X with _ => _ end -> _ => destruct X as [[]|e]
  end; intros Hdom; cbn [rbind].
  2:{ do 2 right. left. destruct Hdom as [-> Hn].
      split; [reflexivity|]. exists s. tauto. }
  assert (Hnd : ~ (Some t = Some (VStr (u "domain")) /\
                   exists s0, Some (VStr s) = Some (VStr s0) /\ ~ In 46%N s0)).
  { intros ([= ->] & s0 & [= <-] & Hn). tauto. }
  destruct (lookup (u "confidence_level") d) as [c|] eqn:Hc; cbn [rbind].
  - pose proof (range_check_spec c) as Hr.
    destruct (int_le 0 c) as [lo|e]; cbn [rbind] in *.
    + destruct (if lo then int_ge 100 c else Ok false) as [hi|e];
        cbn [rbind].
      * destruct hi; cbn.
        -- intros [H|[H|[H|(c' & [= <-] & H)]]]; tauto.
        -- do 3 right. exists c. split; [reflexivity|].
           intros H. apply Hr in H. discriminate.
      * do 3 right. exists c. tauto.
    + do 3 right. exists c. tauto.
  - intros [H|[H|[H|(c' & [=] & _)]]]; tauto.
Qed.

(** Anything that is not a mapping makes [validate_ioc] raise an exception
    that is not a [ValueError]. *)
Lemma validate_ioc_not_mapping (v : value) :
  (forall d, v <> VDict d) ->
  exists e, validate_ioc v = Raise e /\ is_ValueError e = false.
Proof.
  intros Hv. unfold validate_ioc, required_fields.
  destruct v as [|b|z|f|s|l|d|t]; cbn [check_required contains rbind];
    try (eexists; split; reflexivity).
  - destruct (substring_of (u "ioc_value") s); cbn;
      [|eexists; split; reflexivity].
    destruct (substring_of (u "ioc_type") s); cbn;
      [|eexists; split; reflexivity].
    destruct (substring_of (u "malware") s); cbn;
      eexists; split; reflexivity.
  - destruct (existsb (fun x => eq_str x (u "ioc_value")) l); cbn;
      [|eexists; split; reflexivity].
    destruct (existsb (fun x => eq_str x (u "ioc_type")) l); cbn;
      [|eexists; split; reflexivity].
    destruct (existsb (fun x => eq_str x (u "malware")) l); cbn;
      eexists; split; reflexivity.
  - exfalso. apply (Hv d). reflexivity.
Qed.

(** C4. On every record (a mapping), [validate_ioc] fails exactly when a
    required field is absent, or [ioc_value] is not a text that is non-empty
    after trimming, or [ioc_type] is ["domain"] and [ioc_value] has no ["."],
    or [confidence_level] is present and not within [[0, 100]]; otherwise the
    record is accepted. *)
Theorem validate_ioc_fails_exactly_when (d : dict) :
  ((exists e, validate_ioc (VDict d) = Raise e) <-> rejected d) /\
  (validate_ioc (VDict d) = Ok tt <-> ~ rejected d).
Proof.
  pose proof (validate_ioc_dict d) as H.
  destruct (validate_ioc (VDict d)) as [[]|e].
  - split; split; intros; try tauto.
    destruct H0 as (e & He). discriminate.
  - split; split; intros; try tauto; try discriminate.
    exists e. reflexivity.
Qed.

(** ** Documents and confidence *)

Lemma clean_present (d : dict) (k : str) (v : value) :
  In (k, v) (clean d) -> v <> VNone /\ v <> VList [].
Proof.
  unfold clean. rewrite filter_In. intros [_ H]. cbn in H.
  unfold present in H. split; intros ->; discriminate.
Qed.

Lemma lookup_not_key (k : str) (d : dict) :
  ~ In k (keys d) -> lookup k d = None.
Proof.
  induction d as [|[k' v] d IH]; cbn; [reflexivity|]. intros H.
  destruct (str_eqb k k') eqn:E.
  - apply str_eqb_eq in E. subst. tauto.
  - apply IH. tauto.
Qed.

Lemma keys_clean (k : str) (d : dict) : In k (keys (clean d)) -> In k (keys d).
Proof.
  unfold keys, clean. rewrite !in_map_iff.
  intros (kv & <- & H). apply filter_In in H. exists kv. tauto.
Qed.

(** Cleaning a dict with distinct keys removes the absent entries and
    leaves the others where they are. *)
Lemma lookup_clean (k : str) (d : dict) :
  NoDup (keys d) ->
  lookup k (clean d) =
  match lookup k d with
  | Some v => if present v then Some v else None
  | None => None
  end.
Proof.
  induction d as [|[k' v] d IH]; cbn; [reflexivity|].
  intros Hnd. inversion Hnd as [|? ? Hk Hnd']; subst.
  destruct (present v) eqn:Hp; cbn.
  - destruct (str_eqb k k'); [rewrite Hp; reflexivity | apply IH, Hnd'].
  - destruct (str_eqb k k') eqn:E; [|apply IH, Hnd'].
    apply str_eqb_eq in E. subst. rewrite Hp.
    apply lookup_not_key. intros H. apply Hk. apply keys_clean, H.
Qed.

Lemma keys_clean_distinct (d : dict) : NoDup (keys d) -> NoDup (keys (clean d)).
Proof.
  induction d as [|[k v] d IH]; cbn; [constructor|].
  intros Hnd. inversion Hnd as [|? ? Hk Hnd']; subst.
  destruct (present v); cbn; [|apply IH, Hnd'].
  constructor; [|apply IH, Hnd']. intros H. apply Hk.
  apply (keys_clean k d), H.
Qed.

Lemma document_keys_distinct (d : dict) (fs ls cl : value) (now : datetime) :
  NoDup (keys (document d fs ls cl now)).
Proof.
  cbn. repeat (constructor; [cbv; intuition discriminate|]). constructor.
Qed.

Lemma lookup_clean_document (k : str) (d : dict) (fs ls cl : value)
    (now : datetime) :
  lookup k (clean (document d fs ls cl now)) =
  match lookup k (document d fs ls cl now) with
  | Some v => if present v then Some v else None
  | None => None
  end.
Proof. apply lookup_clean, document_keys_distinct. Qed.

Lemma clamp_confidence_int (z : Z) :
  clamp_confidence (VInt z) = Ok (VInt (Z.min (Z.max z 0) 100)).
Proof.
  unfold clamp_confidence, max_int, min_int, int_gt, int_lt, compare_int.
  cbn [rbind as_number number_compare].
  destruct (Z.compare_spec 0 z) as [H0|H0|H0]; cbn [rbind as_number number_compare].
  - subst. reflexivity.
  - destruct (Z.compare_spec 100 z); do 2 f_equal; lia.
  - replace (Z.min (Z.max z 0) 100) with 0 by lia. reflexivity.
Qed.

(** A confidence that passed validation is stored unchanged. *)
Lemma clamp_confidence_within (c : value) :
  within_0_100 c -> clamp_confidence c = Ok c.
Proof.
  intros H. pose proof (range_check_spec c) as Hr.
  unfold clamp_confidence, max_int, min_int, int_gt, int_lt, int_le, int_ge in *.
  destruct (compare_int 0 c) as [c0|e] eqn:H0; cbn [rbind] in *; [|tauto].
  destruct c0 as [[]|]; cbn [rbind] in *;
    try (apply Hr in H; discriminate);
    destruct (compare_int 100 c) as [c1|e] eqn:H1; cbn [rbind] in *;
    try tauto; apply Hr in H; destruct c1 as [[]|]; cbn in *; congruence.
Qed.

Lemma number_compare_int_none (a : Z) (n : number) :
  number_compare (NInt a) n = None -> n = NFloat FNan.
Proof. destruct n as [z|[|neg|m e]]; cbn; congruence. Qed.

(** Every number other than not-a-number is clamped into [[0, 100]]. *)
Lemma clamp_confidence_number (c : value) (n : number) :
  as_number c = Some n ->
  n <> NFloat FNan ->
  exists r, clamp_confidence c = Ok r /\ within_0_100 r.
Proof.
  intros Hn Hnan. pose proof (range_check_spec c) as Hr.
  unfold clamp_confidence, max_int, min_int, int_gt, int_lt, int_le, int_ge,
    compare_int in *.
  rewrite Hn in *. cbn [rbind] in *.
  destruct (number_compare (NInt 0) n) as [c0|] eqn:H0;
    [|apply number_compare_int_none in H0; congruence].
  destruct (number_compare (NInt 100) n) as [c100|] eqn:H100;
    [|apply number_compare_int_none in H100; congruence].
  destruct c0; cbn [rbind] in *; try rewrite Hn, H100; cbn [rbind] in *.
  3:{ exists (VInt 0). split; [reflexivity | cbn; lia]. }
  all: destruct c100; cbn [rbind] in *;
    try (exists (VInt 100); split; [reflexivity | cbn; lia]);
    exists c; (split; [reflexivity | apply Hr; reflexivity]).
Qed.

(** A not-a-number is stored as it is. *)
Example clamp_confidence_nan :
  clamp_confidence (VFloat FNan) = Ok (VFloat FNan).
Proof. reflexivity. Qed.

Lemma within_0_100_present (v : value) : within_0_100 v -> present v = true.
Proof. destruct v; cbn; try reflexivity; contradiction. Qed.

Lemma within_0_100_dec (c : value) : within_0_100 c \/ ~ within_0_100 c.
Proof.
  pose proof (range_check_spec c) as H.
  destruct (lo <- int_le 0 c ;; if lo then int_ge 100 c else Ok false)%result
    as [[]|e]; [left; tauto | right | right; exact H].
  intros Hc. apply H in Hc. discriminate.
Qed.

Lemma accepted_record (d : dict) :
  validate_ioc (VDict d) = Ok tt ->
  (exists s, lookup (u "ioc_value") d = Some (VStr s) /\ strip s <> []) /\
  lookup (u "ioc_type") d <> None /\
  lookup (u "malware") d <> None /\
  (forall c, lookup (u "confidence_level") d = Some c -> within_0_100 c).
Proof.
  intros H. pose proof (validate_ioc_dict d) as Hd. rewrite H in Hd.
  unfold rejected, required_absent, indicator_not_text,
    confidence_out_of_range in Hd.
  split; [|split; [|split]].
  - destruct (lookup (u "ioc_value") d) as [v|] eqn:Hv; [|tauto].
    pose proof (not_text_or_blank_spec v) as Hnb.
    destruct (not_text_or_blank v).
    + exfalso. apply Hd. right; left. exists v. split; [reflexivity|].
      intros Hn. apply Hnb in Hn. discriminate.
    + destruct Hnb as [Hnb _]. destruct (Hnb eq_refl) as (s & -> & Hs).
      exists s. tauto.
  - tauto.
  - tauto.
  - intros c Hc. destruct (within_0_100_dec c) as [Hw|Hw]; [exact Hw|].
    exfalso. apply Hd. do 3 right. exists c. tauto.
Qed.

(** ** Properties kept by every step of a computation *)

Section Preserved.

Context {W : Type}.
Variable R : world W -> world W -> Prop.
Hypothesis R_refl : forall w, R w w.
Hypothesis R_trans : forall a b c, R a b -> R b c -> R a c.

Lemma keeps_ret {A} (a : A) : keeps R (ret a).
Proof. intros w. apply R_refl. Qed.

Lemma keeps_raise {A} (e : exn) : keeps R (@raise W A e).
Proof. intros w. apply R_refl. Qed.

Lemma keeps_lift {A} (r : result A) : keeps R (lift r).
Proof. intros w. apply R_refl. Qed.

Lemma keeps_bind {A B} (c : M W A) (k : A -> M W B) :
  keeps R c -> (forall a, keeps R (k a)) -> keeps R (bind c k).
Proof.
  intros Hc Hk w. unfold bind. specialize (Hc w).
  destruct (c w) as [[a|e] w1]; cbn in *; [|exact Hc].
  eapply R_trans; [exact Hc | apply Hk].
Qed.

Lemma keeps_try_except {A} (c : M W A) (catches : exn -> bool)
    (handler : exn -> M W A) :
  keeps R c -> (forall e, keeps R (handler e)) ->
  keeps R (try_except c catches handler).
Proof.
  intros Hc Hh w. unfold try_except. specialize (Hc w).
  destruct (c w) as [[a|e] w1]; cbn in *; [exact Hc|].
  destruct (catches e); [|exact Hc].
  eapply R_trans; [exact Hc | apply Hh].
Qed.

Lemma keeps_try_finally {A} (c : M W A) (f : M W unit) :
  keeps R c -> keeps R f -> keeps R (try_finally c f).
Proof.
  intros Hc Hf w. unfold try_finally. specialize (Hc w).
  destruct (c w) as [r w1]; cbn in *. specialize (Hf w1).
  destruct (f w1) as [[[]|e] w2]; cbn in *; eapply R_trans; eassumption.
Qed.

Lemma keeps_attempt {A} (c : M W A) : keeps R c -> keeps R (attempt c).
Proof.
  intros Hc w. unfold attempt. specialize (Hc w).
  destruct (c w) as [r w1]; exact Hc.
Qed.

Lemma keeps_if {A} (b : bool) (c1 c2 : M W A) :
  keeps R c1 -> keeps R c2 -> keeps R (if b then c1 else c2).
Proof. destruct b; tauto. Qed.

End Preserved.

Ltac keeps_step Hr Ht :=
  first
    [ apply (keeps_bind _ Ht); [|intros ?]
    | apply (keeps_lift _ Hr)
    | apply (keeps_ret _ Hr)
    | apply (keeps_raise _ Hr)
    | apply (keeps_try_except _ Ht); [|intros ?]
    | apply (keeps_try_finally _ Ht)
    | apply keeps_attempt
    | apply keeps_if ].

Section Output.

Context {W : Type}.

Lemma bind_print {A} (l : line) (k : unit -> M W A) (w : world W) :
  bind (print l) k w =
  if printable l then k tt (after_print l w)
  else (Raise UnicodeEncodeError, w).
Proof. unfold bind, print. destruct (printable l); reflexivity. Qed.

(** A [print] leaves clock, store and calls alone; it adds its line or
    nothing. *)
Lemma print_world (l : line) (w : world W) :
  snd (print l w) =
  mk_world (stdout w ++ if printable l then [l] else []) (ticks w) (store w)
    (calls w).
Proof.
  unfold print. destruct (printable l); cbn; [reflexivity|].
  rewrite app_nil_r. destruct w; reflexivity.
Qed.

Lemma stdout_grows_refl (w : world W) : stdout_grows w w.
Proof. exists []. symmetry. apply app_nil_r. Qed.

Lemma stdout_grows_trans (a b c : world W) :
  stdout_grows a b -> stdout_grows b c -> stdout_grows a c.
Proof.
  intros [l Hl] [l' Hl']. exists (l ++ l'). rewrite Hl', Hl.
  symmetry. apply app_assoc.
Qed.

Lemma print_grows (l : line) : keeps (W := W) stdout_grows (print l).
Proof. intros w. eexists. rewrite print_world. reflexivity. Qed.

Lemma calls_open_refl (w : world W) : calls_open w w.
Proof. exists []. split; [symmetry; apply app_nil_r | tauto]. Qed.

Lemma calls_open_trans (a b c : world W) :
  calls_open a b -> calls_open b c -> calls_open a c.
Proof.
  intros (l & Hl & Hn) (l' & Hl' & Hn'). exists (l ++ l'). split.
  - rewrite Hl', Hl. symmetry. apply app_assoc.
  - intros H. apply in_app_or in H. tauto.
Qed.

Lemma print_calls_open (l : line) : keeps (W := W) calls_open (print l).
Proof.
  intros w. exists []. rewrite print_world. cbn.
  split; [symmetry; apply app_nil_r | tauto].
Qed.

Lemma driver_call_calls_open {A} (c : call) (op : W -> result A * W) :
  c <> CallClose -> keeps calls_open (driver_call c op).
Proof.
  intros Hc w. unfold driver_call. destruct (op (store w)) as [r s'].
  exists [c]. cbn. split; [reflexivity|]. intros [H|[]]. congruence.
Qed.

End Output.

(** ** Extraction *)

Section Extraction.

Context {W : Type}.

Lemma validate_items_cons (ioc : value) (rest iocs : list value)
    (w : world W) :
  validate_items (ioc :: rest) iocs w =
  match validate_ioc ioc with
  | Ok _ => validate_items rest (iocs ++ [ioc]) w
  | Raise e =>
      if is_ValueError e then
        if printable_exn e
        then validate_items rest iocs (after_print (SkippingInvalidIOC e) w)
        else (Raise UnicodeEncodeError, w)
      else (Raise e, w)
  end.
Proof.
  cbn [validate_items]. unfold bind at 1. unfold try_except, bind at 1, lift.
  destruct (validate_ioc ioc) as [[]|e]; cbn [fst snd]; [reflexivity|].
  destruct (is_ValueError e); [|reflexivity].
  rewrite bind_print. cbn [printable].
  destruct (printable_exn e); reflexivity.
Qed.

Lemma validate_items_accepted (items iocs out : list value)
    (w w' : world W) :
  validate_items items iocs w = (Ok out, w') ->
  exists added,
    out = iocs ++ added /\ Forall (fun r => validate_ioc r = Ok tt) added.
Proof.
  revert iocs w. induction items as [|ioc rest IH]; intros iocs w.
  - cbn. intros [= <- <-]. exists []. rewrite app_nil_r. split; constructor.
  - rewrite validate_items_cons.
    destruct (validate_ioc ioc) as [[]|e] eqn:Hv.
    + intros H. apply IH in H as (added & -> & Hall).
      exists (ioc :: added). rewrite <- app_assoc. split; [reflexivity|].
      constructor; assumption.
    + destruct (is_ValueError e); [|discriminate].
      destruct (printable_exn e); [apply IH | discriminate].
Qed.

Lemma collect_cons (key : str) (items : value) (rest : dict)
    (iocs : list value) (w : world W) :
  collect ((key, items) :: rest) iocs w =
  match items with
  | VList l =>
      match validate_items l iocs w with
      | (Ok iocs', w') => collect rest iocs' w'
      | (Raise e, w') => (Raise e, w')
      end
  | _ => collect rest iocs w
  end.
Proof. cbn [collect]. unfold bind. destruct items; reflexivity. Qed.


Lemma collect_accepted (groups : dict) (iocs out : list value)
    (w w' : world W) :
  collect groups iocs w = (Ok out, w') ->
  exists added,
    out = iocs ++ added /\ Forall (fun r => validate_ioc r = Ok tt) added.
Proof.
  revert iocs w. induction groups as [|[key items] rest IH]; intros iocs w.
  - cbn. intros [= <- <-]. exists []. rewrite app_nil_r. split; constructor.
  - rewrite collect_cons.
    destruct items as [| | | | |l| |]; try apply IH.
    destruct (validate_items l iocs w) as [[iocs'|e] w1] eqn:Hl;
      [|discriminate].
    intros H. apply IH in H as (added' & -> & Hall').
    apply validate_items_accepted in Hl as (added & -> & Hall).
    exists (added ++ added'). rewrite app_assoc. split; [reflexivity|].
    apply Forall_app. tauto.
Qed.

Variable requests_get : str -> list (str * str) -> Z -> result response.


(** Whatever [extract_data] returns passed [validate_ioc]. *)
Lemma extract_data_accepted (w w' : world W) (iocs : list value) :
  extract_data requests_get w = (Ok iocs, w') ->
  Forall (fun r => validate_ioc r = Ok tt) iocs.
Proof.
  assert (Hfail : forall e (w0 : world W),
            (print (ExtractionFailed e) ;; ret [])%py w0 = (Ok iocs, w') ->
            Forall (fun r => validate_ioc r = Ok tt) iocs).
  { intros e w0. rewrite bind_print.
    destruct (printable (ExtractionFailed e)); [|discriminate].
    intros [= <- _]. constructor. }
  unfold extract_data, try_except, Exception. unfold bind at 1, lift at 1.
  destruct (requests_get url headers 30) as [resp|e]; [|apply Hfail].
  unfold bind at 1, lift at 1.
  destruct (validate_response resp) as [data|e]; [|apply Hfail].
  unfold bind at 1, lift at 1.
  destruct (items_of data) as [groups|e]; [|apply Hfail].
  unfold bind at 1.
  destruct (collect groups [] w) as [[out|e] w1] eqn:Hc; [|apply Hfail].
  rewrite bind_print. cbn [printable]. unfold ret.
  intros [= <- _]. apply collect_accepted in Hc as (added & -> & Hall).
  exact Hall.
Qed.

End Extraction.

(** ** Transformation *)

Section Transformation.

Context {W : Type}.
Variable strptime : str -> option datetime.
Variable utcnow : nat -> datetime.

Lemma build_document_iff (item : value) (w w' : world W) (doc : dict) :
  build_document strptime utcnow item w = (Ok doc, w') <->
  exists d fs ls cl w1 w2,
    item = VDict d /\
    lookup (u "ioc_value") d <> None /\
    lookup (u "ioc_type") d <> None /\
    lookup (u "malware") d <> None /\
    parse_datetime strptime
      (or_default (lookup (u "first_seen_utc") d) VNone) w = (Ok fs, w1) /\
    parse_datetime strptime
      (or_default (lookup (u "last_seen_utc") d) VNone) w1 = (Ok ls, w2) /\
    clamp_confidence
      (or_default (lookup (u "confidence_level") d) (VInt 50)) = Ok cl /\
    w' = tick w2 /\
    doc = document d fs ls cl (utcnow (ticks w2)).
Proof.
  unfold build_document, bind, lift, get, get_default, getitem,
    clamp_confidence, rbind, document, datetime_utcnow, ret, tick, or_default.
  split.
  - destruct item as [| | | | | |d|]; try discriminate.
    destruct (lookup (u "ioc_value") d) as [ind|] eqn:Ei; [|discriminate].
    destruct (lookup (u "ioc_type") d) as [ty|] eqn:Et; [|discriminate].
    destruct (lookup (u "malware") d) as [mal|] eqn:Em; [|discriminate].
    destruct (parse_datetime _ _ w) as [[fs|e] w1] eqn:Ef; [|discriminate].
    destruct (parse_datetime _ _ w1) as [[ls|e] w2] eqn:El; [|discriminate].
    destruct (max_int _ 0) as [raised|e] eqn:Er; [|discriminate].
    destruct (min_int raised 100) as [cl|e] eqn:Ec; [|discriminate].
    intros [= <- <-].
    exists d, fs, ls, cl, w1, w2.
    rewrite Ei, Et, Em, Ef, El, Er, Ec.
    repeat split; congruence.
  - intros (d & fs & ls & cl & w1 & w2 & -> & Hi & Ht & Hm & Hfs & Hls & Hc & -> & ->).
    destruct (lookup (u "ioc_value") d) as [ind|]; [|congruence].
    destruct (lookup (u "ioc_type") d) as [ty|]; [|congruence].
    destruct (lookup (u "malware") d) as [mal|]; [|congruence].
    rewrite Hfs, Hls.
    destruct (max_int _ 0) as [raised|e]; [|discriminate].
    rewrite Hc. reflexivity.
Qed.

Lemma world_eta (w : world W) :
  mk_world (stdout w ++ []) (ticks w) (store w) (calls w) = w.
Proof. rewrite app_nil_r. destruct w; reflexivity. Qed.

Lemma parse_datetime_falsy (v : value) (w : world W) :
  truthy v = false -> parse_datetime strptime v w = (Ok VNone, w).
Proof. intros H. unfold parse_datetime. rewrite H. reflexivity. Qed.

Lemma parse_datetime_not_text (v : value) (w : world W) :
  truthy v = true -> isinstance_str v = false ->
  parse_datetime strptime v w = (Raise TypeError, w).
Proof.
  intros Hv Hs. unfold parse_datetime. rewrite Hv. cbn [negb].
  destruct v; try discriminate; reflexivity.
Qed.

(** [parse_datetime] on a non-empty text: the parsed timestamp, or [None]
    after the report of the failure, or the [UnicodeEncodeError] of a
    report that cannot be written. *)
Lemma parse_datetime_text (s : str) (w : world W) :
  s <> [] ->
  parse_datetime strptime (VStr s) w =
  match strptime s with
  | Some t => (Ok (VDatetime t), w)
  | None =>
      if encodable s
      then (Ok VNone, after_print (CouldNotParseTimestamp (VStr s)) w)
      else (Raise UnicodeEncodeError, w)
  end.
Proof.
  intros Hs. unfold parse_datetime, try_except, lift, datetime_strptime.
  destruct s as [|c s]; [congruence|]. cbn [truthy negb].
  destruct (strptime (c :: s)); [reflexivity|]. cbn [is_ValueError].
  rewrite bind_print. reflexivity.
Qed.

Lemma truthy_text (s : str) : truthy (VStr s) = true -> s <> [].
Proof. destruct s; [discriminate | discriminate]. Qed.

(** Whatever it is given, [parse_datetime] only adds to the output. *)
Lemma parse_datetime_world (v : value) (w : world W) :
  exists lines,
    snd (parse_datetime strptime v w) =
    mk_world (stdout w ++ lines) (ticks w) (store w) (calls w).
Proof.
  destruct (truthy v) eqn:Hv.
  - destruct (isinstance_str v) eqn:Hs.
    + destruct v; try discriminate.
      rewrite (parse_datetime_text s w (truthy_text s Hv)).
      destruct (strptime s); [exists []; symmetry; apply world_eta|].
      destruct (encodable s); [eexists; reflexivity|].
      exists []. symmetry. apply world_eta.
    + rewrite (parse_datetime_not_text v w Hv Hs).
      exists []. symmetry. apply world_eta.
  - rewrite (parse_datetime_falsy v w Hv). exists []. symmetry.
    apply world_eta.
Qed.

(** [parse_datetime] raises nothing but a [TypeError] or a
    [UnicodeEncodeError]. *)
Lemma parse_datetime_raises (v : value) (w w' : world W) (e : exn) :
  parse_datetime strptime v w = (Raise e, w') ->
  e = TypeError \/ e = UnicodeEncodeError.
Proof.
  destruct (truthy v) eqn:Hv.
  - destruct (isinstance_str v) eqn:Hs.
    + destruct v; try discriminate.
      rewrite (parse_datetime_text s w (truthy_text s Hv)).
      destruct (strptime s); [discriminate|].
      destruct (encodable s); [discriminate|]. intros [= <- _]. tauto.
    + rewrite (parse_datetime_not_text v w Hv Hs). intros [= <- _]. tauto.
  - rewrite (parse_datetime_falsy v w Hv). discriminate.
Qed.

Lemma parse_datetime_grows (v : value) :
  keeps (W := W) stdout_grows (parse_datetime strptime v).
Proof.
  intros w. destruct (parse_datetime_world v w) as [lines H].
  exists lines. rewrite H. reflexivity.
Qed.

Lemma datetime_utcnow_grows : keeps (W := W) stdout_grows (datetime_utcnow utcnow).
Proof. intros w. exists []. cbn. symmetry. apply app_nil_r. Qed.

Lemma build_document_grows (item : value) :
  keeps (W := W) stdout_grows (build_document strptime utcnow item).
Proof.
  unfold build_document.
  repeat keeps_step (@stdout_grows_refl W) (@stdout_grows_trans W);
    first [ apply print_grows | apply parse_datetime_grows
          | apply datetime_utcnow_grows ].
Qed.

Lemma max_int_raises (v : value) (a : Z) (e : exn) :
  max_int v a = Raise e -> e = TypeError.
Proof.
  unfold max_int, int_gt, compare_int.
  destruct (as_number v); cbn; [discriminate | congruence].
Qed.

Lemma min_int_raises (v : value) (a : Z) (e : exn) :
  min_int v a = Raise e -> e = TypeError.
Proof.
  unfold min_int, int_lt, compare_int.
  destruct (as_number v); cbn; [discriminate | congruence].
Qed.

(** The exceptions of the dict display are exceptions of the interpreter:
    their messages can be written. *)
Lemma build_document_raises (item : value) (w w' : world W) (e : exn) :
  build_document strptime utcnow item w = (Raise e, w') ->
  printable_exn e = true.
Proof.
  unfold build_document, get, get_default, getitem.
  destruct item as [| | | | | |d|]; try (intros [= <- _]; reflexivity).
  unfold bind at 1, lift at 1. unfold bind at 1, lift at 1.
  destruct (lookup (u "ioc_value") d); [|intros [= <- _]; reflexivity].
  unfold bind at 1, lift at 1.
  destruct (lookup (u "ioc_type") d); [|intros [= <- _]; reflexivity].
  unfold bind at 1, lift at 1. unfold bind at 1, lift at 1.
  destruct (lookup (u "malware") d); [|intros [= <- _]; reflexivity].
  unfold bind at 1, lift at 1. unfold bind at 1, lift at 1.
  unfold bind at 1.
  match goal with
  | |- context [parse_datetime strptime ?v w] =>
      destruct (parse_datetime strptime v w) as [[fs|e1] w1] eqn:Hp1
  end.
  2:{ intros [= <- _].
      destruct (parse_datetime_raises _ _ _ _ Hp1) as [->| ->]; reflexivity. }
  unfold bind at 1, lift at 1. unfold bind at 1.
  match goal with
  | |- context [parse_datetime strptime ?v w1] =>
      destruct (parse_datetime strptime v w1) as [[ls|e2] w2] eqn:Hp2
  end.
  2:{ intros [= <- _].
      destruct (parse_datetime_raises _ _ _ _ Hp2) as [->| ->]; reflexivity. }
  unfold bind at 1, lift at 1. unfold bind at 1, lift at 1.
  match goal with
  | |- context [max_int ?v 0] =>
      destruct (max_int v 0) as [raised|e3] eqn:Hmax
  end.
  2:{ intros [= <- _]. rewrite (max_int_raises _ _ _ Hmax). reflexivity. }
  unfold bind at 1, lift at 1.
  destruct (min_int raised 100) as [cl|e4] eqn:Hmin.
  2:{ intros [= <- _]. rewrite (min_int_raises _ _ _ Hmin). reflexivity. }
  discriminate.
Qed.

Lemma transform_items_cons (item : value) (rest acc : list value)
    (w : world W) :
  transform_items strptime utcnow (item :: rest) acc w =
  match build_document strptime utcnow item w with
  | (Ok d, w1) =>
      transform_items strptime utcnow rest (acc ++ [VDict (clean d)]) w1
  | (Raise e, w1) =>
      match get item (u "id") with
      | Ok id =>
          if printable (TransformationFailed id e)
          then transform_items strptime utcnow rest acc
                 (after_print (TransformationFailed id e) w1)
          else (Raise UnicodeEncodeError, w1)
      | Raise e' => (Raise e', w1)
      end
  end.
Proof.
  cbn [transform_items]. unfold bind at 1. unfold try_except, bind at 1.
  destruct (build_document strptime utcnow item w) as [[d|e] w1];
    cbn [fst snd Exception ret]; [reflexivity|].
  unfold bind at 1, lift. destruct (get item (u "id")) as [id|e'];
    [|reflexivity].
  rewrite bind_print. destruct (printable (TransformationFailed id e));
    reflexivity.
Qed.

Lemma transform_items_grows (raw acc : list value) :
  keeps (W := W) stdout_grows (transform_items strptime utcnow raw acc).
Proof.
  revert acc. induction raw as [|item rest IH]; intros acc; cbn [transform_items].
  - apply (keeps_ret _ (@stdout_grows_refl W)).
  - repeat keeps_step (@stdout_grows_refl W) (@stdout_grows_trans W);
      first [ apply print_grows | apply parse_datetime_grows
            | apply datetime_utcnow_grows | apply build_document_grows
            | apply IH ].
Qed.

(** Every document the loop adds was built from a record of the batch. *)
Lemma transform_items_origin (raw acc out : list value) (w w' : world W) :
  transform_items strptime utcnow raw acc w = (Ok out, w') ->
  exists added,
    out = acc ++ added /\
    Forall
      (fun doc =>
         exists item (w1 w2 : world W) d,
           In item raw /\
           build_document strptime utcnow item w1 = (Ok d, w2) /\
           doc = VDict (clean d))
      added.
Proof.
  revert acc w. induction raw as [|item rest IH]; intros acc w.
  - cbn. intros [= <- <-]. exists []. rewrite app_nil_r. split; constructor.
  - rewrite transform_items_cons.
    destruct (build_document _ _ _ w) as [[d|e] w1] eqn:Hb.
    + intros H. apply IH in H as (added & -> & Hall).
      exists (VDict (clean d) :: added). rewrite <- app_assoc. split; [reflexivity|].
      constructor.
      * exists item, w, w1, d. cbn. tauto.
      * eapply Forall_impl; [|exact Hall].
        intros doc (i & a & b & c & Hi & Hd). exists i, a, b, c. cbn. tauto.
    + destruct (get item (u "id")) as [id|e']; [|discriminate].
      destruct (printable (TransformationFailed id e)); [|discriminate].
      intros H. apply IH in H as (added & -> & Hall). exists added.
      split; [reflexivity|].
      eapply Forall_impl; [|exact Hall].
      intros doc (i & a & b & c & Hi & Hd). exists i, a, b, c. cbn. tauto.
Qed.

(** C5. Every document produced by [transform_data] has no key bound to
    [None] or to an empty list, and has the key [etl_timestamp]. *)
Theorem transform_data_presence_reduction (raw out : list value)
    (w w' : world W) :
  transform_data strptime utcnow raw w = (Ok out, w') ->
  Forall
    (fun doc =>
       exists d,
         doc = VDict d /\
         (forall k v, In (k, v) d -> v <> VNone /\ v <> VList []) /\
         exists t, lookup (u "etl_timestamp") d = Some (VDatetime t))
    out.
Proof.
  intros H. apply transform_items_origin in H as (added & -> & Hall).
  cbn [app]. eapply Forall_impl; [|exact Hall].
  intros doc (item & w1 & w2 & d & _ & Hb & ->).
  exists (clean d). split; [reflexivity|]. split.
  - intros k v. apply clean_present.
  - apply build_document_iff in Hb
      as (r & fs & ls & cl & wa & wb & _ & _ & _ & _ & _ & _ & _ & _ & ->).
    exists (utcnow (ticks wb)). rewrite lookup_clean_document. reflexivity.
Qed.

(** *** Which records are made into documents *)

Lemma parse_datetime_readable (o : option value) (w : world W) :
  readable strptime o ->
  exists r lines,
    parse_datetime strptime (or_default o VNone) w =
    (Ok r, mk_world (stdout w ++ lines) (ticks w) (store w) (calls w)) /\
    (forall s,
       o = Some (VStr s) -> s <> [] -> strptime s = None ->
       r = VNone /\ In (CouldNotParseTimestamp (VStr s)) lines).
Proof.
  intros Ho. destruct o as [v|]; cbn [or_default].
  - destruct (truthy v) eqn:Hv.
    + destruct Ho as [Ho|(s & -> & Hp)]; [congruence|].
      pose proof (truthy_text s Hv) as Hs.
      rewrite (parse_datetime_text s w Hs).
      destruct (strptime s) as [t|] eqn:Ht.
      * exists (VDatetime t), []. rewrite world_eta.
        split; [reflexivity|]. intros s' [= <-]. congruence.
      * rewrite (Hp eq_refl).
        exists VNone, [CouldNotParseTimestamp (VStr s)].
        split; [reflexivity|]. intros s' [= <-] _ _.
        split; [reflexivity | left; reflexivity].
    + rewrite (parse_datetime_falsy v w Hv). exists VNone, [].
      rewrite world_eta. split; [reflexivity|].
      intros s [= ->] Hs. destruct s; [congruence | discriminate].
  - rewrite parse_datetime_falsy by reflexivity. exists VNone, [].
    rewrite world_eta. split; [reflexivity | discriminate].
Qed.

Lemma parse_datetime_returns (o : option value) (w w' : world W)
    (r : value) :
  parse_datetime strptime (or_default o VNone) w = (Ok r, w') ->
  readable strptime o.
Proof.
  destruct o as [v|]; cbn [or_default readable]; [|tauto].
  destruct (truthy v) eqn:Hv; [|tauto].
  destruct (isinstance_str v) eqn:Hs.
  - destruct v; try discriminate.
    rewrite (parse_datetime_text s w (truthy_text s Hv)).
    intros H. right. exists s. split; [reflexivity|]. intros Hnone.
    rewrite Hnone in H. destruct (encodable s); [reflexivity | discriminate].
  - rewrite (parse_datetime_not_text v w Hv Hs). discriminate.
Qed.

Lemma clamp_confidence_total (c : value) :
  as_number c <> None <-> exists cl, clamp_confidence c = Ok cl.
Proof.
  unfold clamp_confidence, max_int, min_int, int_gt, int_lt, compare_int.
  destruct (as_number c) as [n|] eqn:Hn; cbn [rbind].
  - split; [intros _ | discriminate].
    match goal with
    | |- context [if ?b then VInt 0 else c] => destruct b
    end; cbn [as_number]; rewrite ?Hn; cbn [rbind]; eexists; reflexivity.
  - split; [congruence | intros [cl H]; discriminate].
Qed.

(** [transformable] says which mappings the dict display of
    [transform_data] turns into a document, in whatever world. *)
Lemma transformable_iff (d : dict) (w : world W) :
  transformable strptime d <->
  exists doc w', build_document strptime utcnow (VDict d) w = (Ok doc, w').
Proof.
  split.
  - intros (Hi & Ht & Hm & Hfs & Hls & Hc).
    destruct (parse_datetime_readable _ w Hfs) as (fs & l1 & Hp1 & _).
    destruct (parse_datetime_readable _
                (mk_world (stdout w ++ l1) (ticks w) (store w) (calls w)) Hls)
      as (ls & l2 & Hp2 & _).
    assert (Hcl : exists cl,
               clamp_confidence
                 (or_default (lookup (u "confidence_level") d) (VInt 50)) =
               Ok cl).
    { apply clamp_confidence_total.
      destruct (lookup (u "confidence_level") d) as [c|]; cbn [or_default];
        [apply Hc; reflexivity | discriminate]. }
    destruct Hcl as (cl & Hcl).
    eexists _, _. apply build_document_iff.
    exists d, fs, ls, cl. eexists _, _.
    split; [reflexivity|]. split; [exact Hi|]. split; [exact Ht|].
    split; [exact Hm|]. split; [exact Hp1|]. split; [exact Hp2|].
    split; [exact Hcl|]. split; reflexivity.
  - intros (doc & w' & Hb).
    apply build_document_iff in Hb
      as (d' & fs & ls & cl & w1 & w2 & [= <-] & Hi & Ht & Hm & Hp1 & Hp2 &
          Hc & _).
    split; [exact Hi|]. split; [exact Ht|]. split; [exact Hm|].
    split; [exact (parse_datetime_returns _ _ _ _ Hp1)|].
    split; [exact (parse_datetime_returns _ _ _ _ Hp2)|].
    intros c Hl. rewrite Hl in Hc. cbn [or_default] in Hc.
    apply clamp_confidence_total. exists cl. exact Hc.
Qed.

(** The document of a transformable record, and the world it leaves. *)
Lemma transformable_document (d : dict) (w : world W) :
  transformable strptime d ->
  exists fs ls cl lines,
    build_document strptime utcnow (VDict d) w =
    (Ok (document d fs ls cl (utcnow (ticks w))),
     tick (mk_world (stdout w ++ lines) (ticks w) (store w) (calls w))) /\
    clamp_confidence
      (or_default (lookup (u "confidence_level") d) (VInt 50)) = Ok cl /\
    (forall s,
       lookup (u "first_seen_utc") d = Some (VStr s) -> s <> [] ->
       strptime s = None ->
       fs = VNone /\ In (CouldNotParseTimestamp (VStr s)) lines) /\
    (forall s,
       lookup (u "last_seen_utc") d = Some (VStr s) -> s <> [] ->
       strptime s = None ->
       ls = VNone /\ In (CouldNotParseTimestamp (VStr s)) lines).
Proof.
  intros (Hi & Ht & Hm & Hfs & Hls & Hc).
  destruct (parse_datetime_readable _ w Hfs) as (fs & l1 & Hp1 & Hf1).
  destruct (parse_datetime_readable _
              (mk_world (stdout w ++ l1) (ticks w) (store w) (calls w)) Hls)
    as (ls & l2 & Hp2 & Hf2).
  cbn [stdout ticks store calls] in Hp2.
  assert (Hcl : exists cl,
             clamp_confidence
               (or_default (lookup (u "confidence_level") d) (VInt 50)) =
             Ok cl).
  { apply clamp_confidence_total.
    destruct (lookup (u "confidence_level") d) as [c|]; cbn [or_default];
      [apply Hc; reflexivity | discriminate]. }
  destruct Hcl as (cl & Hcl).
  exists fs, ls, cl, (l1 ++ l2). split; [|split; [exact Hcl|split]].
  - apply build_document_iff. exists d, fs, ls, cl. eexists _, _.
    split; [reflexivity|]. split; [exact Hi|]. split; [exact Ht|].
    split; [exact Hm|]. split; [exact Hp1|]. split; [exact Hp2|].
    split; [exact Hcl|]. cbn [ticks]. rewrite <- app_assoc.
    split; reflexivity.
  - intros s H1 H2 H3. destruct (Hf1 s H1 H2 H3) as [-> Hin].
    split; [reflexivity|]. apply in_or_app. left. exact Hin.
  - intros s H1 H2 H3. destruct (Hf2 s H1 H2 H3) as [-> Hin].
    split; [reflexivity|]. apply in_or_app. right. exact Hin.
Qed.

(** *** The record loop, record by record *)

Lemma transform_items_app (a b acc : list value) (w : world W) :
  transform_items strptime utcnow (a ++ b) acc w =
  match transform_items strptime utcnow a acc w with
  | (Ok acc', w1) => transform_items strptime utcnow b acc' w1
  | (Raise e, w1) => (Raise e, w1)
  end.
Proof.
  revert acc w. induction a as [|item a IH]; intros acc w; [reflexivity|].
  cbn [app]. rewrite !transform_items_cons.
  destruct (build_document strptime utcnow item w) as [[d|e] w1];
    [apply IH|].
  destruct (get item (u "id")) as [id|e']; [|reflexivity].
  destruct (printable (TransformationFailed id e)); [apply IH | reflexivity].
Qed.

(** The documents the loop adds do not depend on the accumulator. *)
Lemma transform_items_acc (raw acc : list value) (w : world W) :
  transform_items strptime utcnow raw acc w =
  match transform_items strptime utcnow raw [] w with
  | (Ok added, w') => (Ok (acc ++ added), w')
  | (Raise e, w') => (Raise e, w')
  end.
Proof.
  revert acc w. induction raw as [|item rest IH]; intros acc w.
  - cbn. rewrite app_nil_r. reflexivity.
  - rewrite !transform_items_cons.
    destruct (build_document strptime utcnow item w) as [[d|e] w1].
    + rewrite (IH (acc ++ [VDict (clean d)])), (IH ([] ++ [VDict (clean d)])).
      destruct (transform_items strptime utcnow rest [] w1) as [[added|e] w2];
        [|reflexivity].
      cbn [app]. rewrite <- app_assoc. reflexivity.
    + destruct (get item (u "id")) as [id|e']; [|reflexivity].
      destruct (printable (TransformationFailed id e)); [apply IH|].
      reflexivity.
Qed.

(** The loop gets past every harmless item. *)
Lemma transform_items_harmless (raw acc : list value) (w : world W) :
  Forall (harmless strptime) raw ->
  exists out w', transform_items strptime utcnow raw acc w = (Ok out, w').
Proof.
  intros H. revert acc w.
  induction H as [|item rest (d & -> & Hd) _ IH]; intros acc w.
  - eexists _, _. reflexivity.
  - rewrite transform_items_cons.
    destruct (build_document strptime utcnow (VDict d) w) as [[doc|e] w1]
      eqn:Hb; [apply IH|].
    cbn [get get_default]. cbn [printable].
    rewrite (build_document_raises _ _ _ _ Hb), andb_true_r.
    destruct Hd as [Hd|Hd].
    + apply (transformable_iff d w) in Hd as (doc & w2 & Hd). congruence.
    + unfold or_default in Hd. rewrite Hd. apply IH.
Qed.

(** In a batch whose other items are harmless, a transformable record gets
    its document, at its place. *)
Lemma transform_data_record (before after : list value) (d : dict)
    (w : world W) :
  Forall (harmless strptime) (before ++ after) ->
  transformable strptime d ->
  exists out_b doc out_a w1 w2 w',
    transform_data strptime utcnow before w = (Ok out_b, w1) /\
    build_document strptime utcnow (VDict d) w1 = (Ok doc, w2) /\
    transform_data strptime utcnow (before ++ VDict d :: after) w =
    (Ok (out_b ++ VDict (clean doc) :: out_a), w') /\
    stdout_grows w2 w'.
Proof.
  intros Hall Hd. apply Forall_app in Hall as [Hb Ha]. unfold transform_data.
  destruct (transform_items_harmless before [] w Hb) as (out_b & w1 & Hrun1).
  pose proof (proj1 (transformable_iff d w1) Hd) as (doc & w2 & Hdoc).
  destruct (transform_items_harmless after [] w2 Ha) as (out_a & w' & Hrun2).
  exists out_b, doc, out_a, w1, w2, w'.
  split; [exact Hrun1|]. split; [exact Hdoc|]. split.
  - rewrite transform_items_app, Hrun1, transform_items_cons, Hdoc.
    rewrite transform_items_acc, Hrun2, <- app_assoc. reflexivity.
  - pose proof (transform_items_grows after [] w2) as Hg.
    rewrite Hrun2 in Hg. exact Hg.
Qed.

(** A record [validate_ioc] accepts is transformable when its timestamps
    are readable. *)
Lemma accepted_transformable (d : dict) :
  validate_ioc (VDict d) = Ok tt ->
  readable strptime (lookup (u "first_seen_utc") d) ->
  readable strptime (lookup (u "last_seen_utc") d) ->
  transformable strptime d.
Proof.
  intros Hv Hfs Hls.
  destruct (accepted_record d Hv) as ((s & Hi & _) & Ht & Hm & Hc).
  split; [congruence|]. split; [exact Ht|]. split; [exact Hm|].
  split; [exact Hfs|]. split; [exact Hls|].
  intros c Hl. specialize (Hc c Hl).
  destruct c as [| | |[| |]| | | |]; cbn in Hc |- *;
    first [discriminate | contradiction].
Qed.

(** C6. In a batch whose other items the record loop gets past, every
    record the transformer makes a document of gets its own document, at
    its place, and the [confidence_level] of that document is 50 when the
    record has none, and the record's integer clamped into [[0, 100]]
    otherwise; 150 yields 100 and -10 yields 0. *)
Theorem transform_data_confidence (before after : list value) (d : dict)
    (w : world W) :
  Forall (harmless strptime) (before ++ after) ->
  transformable strptime d ->
  exists out_b doc out_a w',
    transform_data strptime utcnow (before ++ VDict d :: after) w =
    (Ok (out_b ++ VDict doc :: out_a), w') /\
    fst (transform_data strptime utcnow before w) = Ok out_b /\
    confidence_rule d doc.
Proof.
  intros Hall Hd.
  destruct (transform_data_record before after d w Hall Hd)
    as (out_b & doc & out_a & w1 & w2 & w' & Hb & Hdoc & Hrun & _).
  exists out_b, (clean doc), out_a, w'. split; [exact Hrun|].
  split; [rewrite Hb; reflexivity|].
  apply build_document_iff in Hdoc
    as (r & fs & ls & cl & wa & wb & [= <-] & _ & _ & _ & _ & _ & Hc & _ & ->).
  unfold confidence_rule. rewrite !lookup_clean_document.
  change (lookup (u "confidence_level")
            (document d fs ls cl (utcnow (ticks wb)))) with (Some cl).
  assert (Hint : forall z,
             lookup (u "confidence_level") d = Some (VInt z) ->
             (if present cl then Some cl else None) =
             Some (VInt (Z.min (Z.max z 0) 100))).
  { intros z Hz. rewrite Hz in Hc. cbn [or_default] in Hc.
    rewrite clamp_confidence_int in Hc. injection Hc as <-. reflexivity. }
  split; [|split; [|split; [|split]]].
  - intros Hnone. rewrite Hnone in Hc. cbn [or_default] in Hc.
    rewrite clamp_confidence_int in Hc. injection Hc as <-. reflexivity.
  - exact Hint.
  - intros Hz. apply (Hint 150 Hz).
  - intros Hz. apply (Hint (-10) Hz).
  - intros c n Hl Hn Hnan. rewrite Hl in Hc. cbn [or_default] in Hc.
    destruct (clamp_confidence_number c n Hn Hnan) as (v & Hv & Hw).
    rewrite Hv in Hc. injection Hc as <-. exists v.
    rewrite (within_0_100_present v Hw). split; [reflexivity|].
    split; [exact Hw|]. intros Hcw.
    rewrite (clamp_confidence_within c Hcw) in Hv. congruence.
Qed.

Lemma unparsed_absent_stable (d doc : dict) (w1 w2 : world W) :
  unparsed_absent strptime d doc w1 -> stdout_grows w1 w2 ->
  unparsed_absent strptime d doc w2.
Proof.
  intros (Hf & Hl) [lines Hg]. unfold unparsed_absent. rewrite Hg.
  split; intros s H1 H2 H3.
  - destruct (Hf s H1 H2 H3). split; [assumption|]. apply in_or_app. tauto.
  - destruct (Hl s H1 H2 H3). split; [assumption|]. apply in_or_app. tauto.
Qed.

(** C8, as amended.  In a batch whose other items the record loop gets
    past, a mapping that carries the three subscripted fields, whose
    [confidence_level] if any is a number and whose timestamps are absent,
    falsy or texts that parse or can be printed, gets its own document at
    its place; a timestamp text that fails to parse is printed and the
    corresponding [first_seen] / [last_seen] key is absent. *)
Theorem unparsed_text_timestamp_keeps_record (before after : list value)
    (d : dict) (w : world W) :
  Forall (harmless strptime) (before ++ after) ->
  transformable strptime d ->
  exists out_b doc out_a w',
    transform_data strptime utcnow (before ++ VDict d :: after) w =
    (Ok (out_b ++ VDict doc :: out_a), w') /\
    fst (transform_data strptime utcnow before w) = Ok out_b /\
    lookup (u "indicator") doc = reduced (lookup (u "ioc_value") d) /\
    unparsed_absent strptime d doc w'.
Proof.
  intros Hall Hd.
  destruct (transform_data_record before after d w Hall Hd)
    as (out_b & doc & out_a & w1 & w2 & w' & Hb & Hdoc & Hrun & Hg).
  exists out_b, (clean doc), out_a, w'. split; [exact Hrun|].
  split; [rewrite Hb; reflexivity|].
  destruct (transformable_document d w1 Hd)
    as (fs & ls & cl & lines & Hdoc' & _ & Hf & Hl).
  rewrite Hdoc in Hdoc'. injection Hdoc' as -> ->. split.
  - rewrite lookup_clean_document.
    replace (lookup (u "indicator")
               (document d fs ls cl (utcnow (ticks w1))))
      with (Some (or_default (lookup (u "ioc_value") d) VNone))
      by reflexivity.
    destruct Hd as (Hi & _).
    destruct (lookup (u "ioc_value") d); [reflexivity | congruence].
  - eapply unparsed_absent_stable; [|exact Hg].
    unfold unparsed_absent. rewrite !lookup_clean_document. cbn [stdout tick].
    split; intros s H1 H2 H3.
    + destruct (Hf s H1 H2 H3) as [-> Hin]. split; [reflexivity|].
      apply in_or_app. right. exact Hin.
    + destruct (Hl s H1 H2 H3) as [-> Hin]. split; [reflexivity|].
      apply in_or_app. right. exact Hin.
Qed.


End Transformation.

(** ** Loading *)

Section Loading.

Context {W : Type}.
Variable driver : Driver W.
Variable Config : config.

Lemma ensure_indexes_calls_open (ixs : list (str * list (str * Z))) :
  keeps calls_open (ensure_indexes driver ixs).
Proof.
  induction ixs as [|[name fields] rest IH]; cbn [ensure_indexes].
  - apply (keeps_ret _ (@calls_open_refl W)).
  - repeat keeps_step (@calls_open_refl W) (@calls_open_trans W);
      first [apply driver_call_calls_open; discriminate | exact IH].
Qed.

Lemma load_with_client_calls_open (docs : list value) :
  keeps calls_open (load_with_client driver Config docs).
Proof.
  unfold load_with_client, verify_mongodb_insert.
  repeat keeps_step (@calls_open_refl W) (@calls_open_trans W);
    first [ apply driver_call_calls_open; discriminate
          | apply ensure_indexes_calls_open
          | apply print_calls_open ].
Qed.

(** C3. Once [MongoClient(...)] has returned a client, every exit of
    [load_data] -- returning true, returning false after a failed
    verification or any other exception, or raising -- is preceded by
    [client.close()]: it is the last driver call, and the only [close]. *)
Theorem load_data_closes_client (docs : list value) (w : world W) :
  docs <> [] ->
  fst (MongoClient driver (MONGO_URI Config) (store w)) = Ok tt ->
  exists made,
    calls (snd (load_data driver Config docs w)) =
    calls w ++ CallMongoClient :: made ++ [CallClose] /\
    ~ In CallClose made.
Proof.
  intros Hdocs Hopen. unfold load_data.
  destruct docs as [|doc docs]; [congruence|]. cbn [truthy negb].
  unfold bind at 1, attempt, driver_call at 1.
  destruct (MongoClient driver (MONGO_URI Config) (store w)) as [r s1].
  cbn in Hopen. subst r. cbn [fst snd].
  set (w1 := mk_world (stdout w) (ticks w) s1 (calls w ++ [CallMongoClient])).
  unfold try_finally.
  assert (Hk : keeps calls_open
                 (try_except (load_with_client driver Config (doc :: docs))
                    Exception loading_failed)).
  { apply (keeps_try_except _ (@calls_open_trans W)).
    - apply load_with_client_calls_open.
    - intros e. unfold loading_failed.
      repeat keeps_step (@calls_open_refl W) (@calls_open_trans W).
      apply print_calls_open. }
  specialize (Hk w1).
  destruct (try_except _ _ _ w1) as [r w2]. cbn [snd] in Hk.
  destruct Hk as (made & Hmade & Hn). exists made.
  unfold driver_call. destruct (close driver (store w2)) as [[[]|e] s3];
    cbn; rewrite Hmade; cbn; rewrite <- !app_assoc; cbn; tauto.
Qed.

(** With a client in hand and a [close] that returns, [load_data] returns
    a boolean: every exception of the loading sequence becomes [false]. *)
Lemma load_data_returns_when_opened (docs : list value) (w : world W) :
  docs <> [] ->
  fst (MongoClient driver (MONGO_URI Config) (store w)) = Ok tt ->
  (forall s, fst (close driver s) = Ok tt) ->
  exists b, fst (load_data driver Config docs w) = Ok b.
Proof.
  intros Hdocs Hopen Hclose. unfold load_data.
  destruct docs as [|doc docs]; [congruence|]. cbn [truthy negb].
  unfold bind at 1, attempt, driver_call at 1.
  destruct (MongoClient driver (MONGO_URI Config) (store w)) as [r s1].
  cbn in Hopen. subst r. cbn [fst snd].
  unfold try_finally, try_except, Exception, loading_failed.
  match goal with
  | |- context [match ?c ?x with _ => _ end] =>
      destruct (c x) as [[b|e] w2]
  end.
  - unfold driver_call. specialize (Hclose (store w2)).
    destruct (close driver (store w2)) as [[[]|e] s3]; cbn in *;
      [exists b; reflexivity | discriminate].
  - unfold bind, print, ret, driver_call. cbn.
    specialize (Hclose (store w2)).
    destruct (close driver (store w2)) as [[[]|e'] s3]; cbn in *;
      [exists false; reflexivity | discriminate].
Qed.

(** When [MongoClient(...)] raises, the handler prints and returns false,
    and then the [finally] clause raises on the unbound name [client]. *)
Lemma load_data_raises_when_unopened (docs : list value) (w : world W)
    (e : exn) :
  docs <> [] ->
  fst (MongoClient driver (MONGO_URI Config) (store w)) = Raise e ->
  load_data driver Config docs w =
  (Raise (UnboundLocalError (u "client")),
   after_print (LoadingFailed e)
     (mk_world (stdout w) (ticks w)
        (snd (MongoClient driver (MONGO_URI Config) (store w)))
        (calls w ++ [CallMongoClient]))).
Proof.
  intros Hdocs Hopen. unfold load_data.
  destruct docs as [|doc docs]; [congruence|]. cbn [truthy negb].
  unfold bind, attempt, driver_call, try_finally, loading_failed, print,
    ret, raise.
  destruct (MongoClient driver (MONGO_URI Config) (store w)) as [r s1].
  cbn in Hopen. subst r. reflexivity.
Qed.

End Loading.

(** ** Orchestration *)

Section Orchestration.

Context {W : Type}.
Variable driver : Driver W.
Variable Config : config.
Variable strptime : str -> option datetime.
Variable utcnow : nat -> datetime.
Variable requests_get : str -> list (str * str) -> Z -> result response.

Lemma run_etl_unfold (w : world W) :
  run_etl driver Config strptime utcnow requests_get w =
  match extract_data requests_get (at_extraction w) with
  | (Ok [], w1) => (Ok false, w1)
  | (Ok (r :: raw), w1) =>
      match transform_data strptime utcnow (r :: raw)
              (after_print Transforming w1) with
      | (Ok [], w2) => (Ok false, w2)
      | (Ok (doc :: docs), w2) =>
          match load_data driver Config (doc :: docs)
                  (after_print Loading w2) with
          | (Ok true, w3) =>
              (Ok true,
               after_print (Rule false)
                 (after_print Completed (after_print (Rule true) w3)))
          | (Ok false, w3) => (Ok false, w3)
          | (Raise e, w3) => (Ok false, after_print (CriticalFailure e) w3)
          end
      | (Raise e, w2) => (Ok false, after_print (CriticalFailure e) w2)
      end
  | (Raise e, w1) => (Ok false, after_print (CriticalFailure e) w1)
  end.
Proof.
  unfold run_etl. rewrite !bind_print. unfold try_except, Exception.
  rewrite bind_print. fold (at_extraction w). unfold bind at 1.
  destruct (extract_data requests_get (at_extraction w)) as [[raw|e] w1];
    [|reflexivity].
  destruct raw as [|r raw]; [reflexivity|]. cbn [truthy negb].
  rewrite bind_print. unfold bind at 1.
  destruct (transform_data strptime utcnow (r :: raw) _) as [[docs|e] w2];
    [|reflexivity].
  destruct docs as [|doc docs]; [reflexivity|]. cbn [truthy negb].
  rewrite bind_print. unfold bind at 1.
  destruct (load_data driver Config (doc :: docs) _) as [[[]|e] w3];
    reflexivity.
Qed.

(** C7. [run_etl] returns false straight after an empty extraction and
    straight after an empty transformation, returns the loader's boolean
    otherwise, turns every exception of a stage into false, and never
    raises. *)
Theorem run_etl_orchestration (w : world W) :
  (exists b w',
     run_etl driver Config strptime utcnow requests_get w = (Ok b, w')) /\
  (forall w1,
     extract_data requests_get (at_extraction w) = (Ok [], w1) ->
     run_etl driver Config strptime utcnow requests_get w = (Ok false, w1)) /\
  (forall raw w1 w2,
     extract_data requests_get (at_extraction w) = (Ok raw, w1) ->
     raw <> [] ->
     transform_data strptime utcnow raw (after_print Transforming w1) =
     (Ok [], w2) ->
     run_etl driver Config strptime utcnow requests_get w = (Ok false, w2)) /\
  (forall raw w1 docs w2 b w3,
     extract_data requests_get (at_extraction w) = (Ok raw, w1) ->
     raw <> [] ->
     transform_data strptime utcnow raw (after_print Transforming w1) =
     (Ok docs, w2) ->
     docs <> [] ->
     load_data driver Config docs (after_print Loading w2) = (Ok b, w3) ->
     fst (run_etl driver Config strptime utcnow requests_get w) = Ok b) /\
  (forall raw w1 docs w2 e w3,
     extract_data requests_get (at_extraction w) = (Ok raw, w1) ->
     raw <> [] ->
     transform_data strptime utcnow raw (after_print Transforming w1) =
     (Ok docs, w2) ->
     docs <> [] ->
     load_data driver Config docs (after_print Loading w2) = (Raise e, w3) ->
     run_etl driver Config strptime utcnow requests_get w =
     (Ok false, after_print (CriticalFailure e) w3)) /\
  (forall raw w1 e w2,
     extract_data requests_get (at_extraction w) = (Ok raw, w1) ->
     raw <> [] ->
     transform_data strptime utcnow raw (after_print Transforming w1) =
     (Raise e, w2) ->
     run_etl driver Config strptime utcnow requests_get w =
     (Ok false, after_print (CriticalFailure e) w2)).
Proof.
  rewrite run_etl_unfold. repeat split.
  - destruct (extract_data requests_get (at_extraction w))
      as [[[|r raw]|e] w1]; try (eexists _, _; reflexivity).
    destruct (transform_data strptime utcnow (r :: raw) _)
      as [[[|doc docs]|e] w2]; try (eexists _, _; reflexivity).
    destruct (load_data driver Config (doc :: docs) _) as [[[]|e] w3];
      eexists _, _; reflexivity.
  - intros w1 ->. reflexivity.
  - intros raw w1 w2 -> Hraw. destruct raw; [congruence|].
    intros ->. reflexivity.
  - intros raw w1 docs w2 b w3 -> Hraw. destruct raw; [congruence|].
    intros -> Hdocs. destruct docs; [congruence|]. intros ->.
    destruct b; reflexivity.
  - intros raw w1 docs w2 e w3 -> Hraw. destruct raw; [congruence|].
    intros -> Hdocs. destruct docs; [congruence|]. intros ->. reflexivity.
  - intros raw w1 e w2 -> Hraw. destruct raw; [congruence|].
    intros ->. reflexivity.
Qed.

End Orchestration.

(** ** The claims on concrete runs *)

(** C1. A feed of a valid record followed by a record whose
    [confidence_level] is a text: [validate_ioc] raises a [TypeError] on the
    second, the record loop does not catch it, and the extractor returns no
    record at all. *)
Theorem extract_data_loses_valid_record :
  validate_ioc valid_record = Ok tt /\
  validate_ioc text_confidence_record = Raise TypeError /\
  extract_data (feed_of [valid_record; text_confidence_record])
    (fresh_world tt) =
  (Ok [], after_print (ExtractionFailed TypeError) (fresh_world tt)).
Proof. repeat split; vm_compute; reflexivity. Qed.

(** A record rejected with a [ValueError] is skipped and the valid one is
    kept. *)
Example extract_data_skips_value_error :
  fst (extract_data (feed_of [valid_record; confidence_150_record])
         (fresh_world tt)) = Ok [valid_record].
Proof. vm_compute. reflexivity. Qed.

(** C2. With a client that cannot be constructed, [load_data] prints the
    failure and then raises [UnboundLocalError] out of its [finally]
    clause. *)
Theorem load_data_raises_on_unreachable_store :
  load_data unreachable_driver sample_config [new_document] (fresh_world tt) =
  (Raise (UnboundLocalError (u "client")),
   mk_world [LoadingFailed (LibraryError 1)] 0%nat tt [CallMongoClient]).
Proof. vm_compute. reflexivity. Qed.

Lemma load_data_closes_client_witness :
  exists made,
    calls (snd (load_data counting_driver sample_config [new_document]
                  (fresh_world 0))) =
    calls (fresh_world 0)
    ++ CallMongoClient :: made ++ [CallClose] /\
    ~ In CallClose made.
Proof.
  apply (load_data_closes_client counting_driver sample_config [new_document]
           (fresh_world 0)).
  - discriminate.
  - reflexivity.
Defined.

Lemma transform_data_presence_reduction_witness :
  exists out w',
    transform_data strptime_strict sample_clock
      [valid_record; garbled_last_seen_record] (fresh_world tt) = (Ok out, w') /\
    Forall
      (fun doc =>
         exists d,
           doc = VDict d /\
           (forall k v, In (k, v) d -> v <> VNone /\ v <> VList []) /\
           exists t, lookup (u "etl_timestamp") d = Some (VDatetime t))
      out.
Proof.
  eexists _, _. split; [vm_compute; reflexivity|].
  eapply (transform_data_presence_reduction strptime_strict sample_clock
            [valid_record; garbled_last_seen_record] _ (fresh_world tt)).
  vm_compute. reflexivity.
Defined.

Lemma transform_data_confidence_witness :
  let d := fields_of 6 (VStr (u "evil.com")) [(u "confidence_level", VInt 150)]
  in
  exists out_b doc out_a w',
    transform_data strptime_strict sample_clock
      ([confidence_minus_10_record] ++ VDict d :: [padded_record])
      (fresh_world tt) = (Ok (out_b ++ VDict doc :: out_a), w') /\
    fst (transform_data strptime_strict sample_clock
           [confidence_minus_10_record] (fresh_world tt)) = Ok out_b /\
    confidence_rule d doc.
Proof.
  apply (transform_data_confidence strptime_strict sample_clock
           [confidence_minus_10_record] [padded_record]
           (fields_of 6 (VStr (u "evil.com"))
              [(u "confidence_level", VInt 150)])
           (fresh_world tt)).
  - constructor; [|constructor; [|constructor]];
      (eexists; split; [reflexivity|]; right; reflexivity).
  - split; [vm_compute; discriminate|]. split; [vm_compute; discriminate|].
    split; [vm_compute; discriminate|]. split; [exact I|].
    split; [exact I|]. intros c H. vm_compute in H. injection H as <-.
    discriminate.
Defined.

(** The three confidences of the specification: 150, -10 and none. *)
Example confidence_of_sample_records :
  map (fun doc => get doc (u "confidence_level"))
    (match fst (transform_data strptime_strict sample_clock
                  [confidence_150_record; confidence_minus_10_record;
                   padded_record] (fresh_world tt)) with
     | Ok out => out
     | Raise _ => []
     end) =
  [Ok (VInt 100); Ok (VInt 0); Ok (VInt 50)].
Proof. vm_compute. reflexivity. Qed.

Lemma run_etl_orchestration_witness :
  run_etl counting_driver sample_config strptime_strict sample_clock
    not_found_feed (fresh_world 0) =
  (Ok false,
   after_print
     (ExtractionFailed (ValueError (ApiReturned 404 (u "Not Found"))))
     (at_extraction (fresh_world 0))).
Proof.
  apply (proj1 (proj2 (run_etl_orchestration counting_driver sample_config
                         strptime_strict sample_clock not_found_feed
                         (fresh_world 0)))).
  vm_compute. reflexivity.
Defined.

(** C8 as stated fails: a record that passes validation and carries a number
    in [first_seen_utc] makes [strptime] raise a [TypeError], and
    [transform_data] drops the record. *)
Lemma epoch_timestamp_drops_record :
  validate_ioc epoch_first_seen_record = Ok tt /\
  datetime_strptime strptime_strict (VInt 1700000000) = Raise TypeError /\
  transform_data strptime_strict sample_clock [epoch_first_seen_record]
    (fresh_world tt) =
  (Ok [],
   after_print (TransformationFailed (VInt 4) TypeError) (fresh_world tt)).
Proof. repeat split; vm_compute; reflexivity. Qed.

Lemma unparsed_text_timestamp_keeps_record_witness :
  let d :=
    fields_of 5 (VStr (u "evil.com"))
      [(u "first_seen_utc", VStr (u "2024-01-01 10:00:00"));
       (u "last_seen_utc", VStr (u "yesterday"))] in
  exists out_b doc out_a w',
    transform_data strptime_strict sample_clock
      ([valid_record] ++ VDict d :: [epoch_first_seen_record])
      (fresh_world tt) = (Ok (out_b ++ VDict doc :: out_a), w') /\
    fst (transform_data strptime_strict sample_clock [valid_record]
           (fresh_world tt)) = Ok out_b /\
    lookup (u "indicator") doc = reduced (lookup (u "ioc_value") d) /\
    unparsed_absent strptime_strict d doc w'.
Proof.
  apply (unparsed_text_timestamp_keeps_record strptime_strict sample_clock
           [valid_record] [epoch_first_seen_record]
           (fields_of 5 (VStr (u "evil.com"))
              [(u "first_seen_utc", VStr (u "2024-01-01 10:00:00"));
               (u "last_seen_utc", VStr (u "yesterday"))])
           (fresh_world tt)).
  - constructor; [|constructor; [|constructor]];
      (eexists; split; [reflexivity|]; right; reflexivity).
  - split; [vm_compute; discriminate|]. split; [vm_compute; discriminate|].
    split; [vm_compute; discriminate|].
    split; [right; eexists; split; [reflexivity|]; intros _; reflexivity|].
    split; [right; eexists; split; [reflexivity|]; intros _; reflexivity|].
    intros c H. vm_compute in H. discriminate.
Defined.

(** The run of the witness: the record with the garbled [last_seen_utc]
    gets the second document, without [last_seen], and the record with a
    number in [first_seen_utc] gets none. *)
Example garbled_timestamp_run :
  let run :=
    transform_data strptime_strict sample_clock
      [valid_record; garbled_last_seen_record; epoch_first_seen_record]
      (fresh_world tt) in
  match fst run with
  | Ok out =>
      map (fun doc => get doc (u "first_seen")) out =
      [Ok VNone; Ok (VDatetime (mk_datetime 2024 1 1 10 0 0 0))] /\
      map (fun doc => get doc (u "last_seen")) out = [Ok VNone; Ok VNone]
  | Raise _ => False
  end /\
  stdout (snd run) =
  [CouldNotParseTimestamp (VStr (u "yesterday"));
   TransformationFailed (VInt 4) TypeError].
Proof. vm_compute. repeat split. Qed.


(** ** Further properties of the connector *)

(** *** The envelope *)

(** X1. [validate_response] returns the parsed body exactly when the status
    is 200 and the body parses to a truthy value; the status is checked
    before the body; a failure is a [ValueError] of its own or the library
    exception of [response.json()] passed on. *)
Theorem validate_response_outcome (resp : response) :
  (forall data,
     validate_response resp = Ok data <->
     status_code resp = 200 /\ json resp = Ok data /\ truthy data = true) /\
  (status_code resp <> 200 ->
   validate_response resp =
   Raise (ValueError (ApiReturned (status_code resp) (text resp)))) /\
  (forall e,
     validate_response resp = Raise e ->
     (exists m, e = ValueError m) \/
     (json resp = Raise e /\ is_JSONDecodeError e = false)).
Proof.
  unfold validate_response.
  destruct (Z.eqb_spec (status_code resp) 200) as [Hs|Hs]; cbn [negb].
  - destruct (json resp) as [data|e] eqn:Hj.
    + destruct (truthy data) eqn:Ht; cbn [negb].
      * split; [|split].
        -- intros d. split.
           ++ intros [= <-]. tauto.
           ++ intros (_ & [= <-] & _). reflexivity.
        -- congruence.
        -- discriminate.
      * split; [|split].
        -- intros d. split; [discriminate|].
           intros (_ & [= <-] & H). congruence.
        -- congruence.
        -- intros e [= <-]. left. eexists. reflexivity.
    + split; [|split].
      * intros d. split.
        -- destruct (is_JSONDecodeError e); discriminate.
        -- intros (_ & H & _). discriminate.
      * congruence.
      * intros e'. destruct (is_JSONDecodeError e) eqn:He.
        -- intros [= <-]. left. eexists. reflexivity.
        -- intros [= <-]. right. tauto.
  - split; [|split].
    + intros d. split; [discriminate | tauto].
    + reflexivity.
    + intros e [= <-]. left. eexists. reflexivity.
Qed.

(** *** Which exception a record raises *)

Lemma confidence_check_class (c : value) :
  match (lo <- int_le 0 c ;;
         hi <- (if lo then int_ge 100 c else Ok false) ;;
         if negb hi then Raise (ValueError (InvalidConfidence c))
         else Ok tt)%result with
  | Ok _ => as_number c <> None
  | Raise e =>
      (e = TypeError /\ as_number c = None) \/
      (as_number c <> None /\ exists m, e = ValueError m)
  end.
Proof.
  unfold int_le, int_ge, compare_int.
  destruct (as_number c) as [n|]; cbn [rbind]; [|left; tauto].
  destruct (number_compare (NInt 0) n) as [[]|]; cbn [rbind];
    try (right; split; [discriminate | eexists; reflexivity]);
    destruct (number_compare (NInt 100) n) as [[]|]; cbn;
    try discriminate;
    right; split; try discriminate; eexists; reflexivity.
Qed.

Lemma confidence_tail_outcome (d : dict) (s : str) (t : value) :
  lookup (u "ioc_value") d = Some (VStr s) ->
  strip s <> [] ->
  lookup (u "ioc_type") d = Some t ->
  lookup (u "malware") d <> None ->
  (t = VStr (u "domain") -> In 46%N s) ->
  let tail :=
    (has_conf <- contains (u "confidence_level") (VDict d) ;;
     if has_conf then
       c <- getitem (VDict d) (u "confidence_level") ;;
       lo <- int_le 0 c ;;
       hi <- (if lo then int_ge 100 c else Ok false) ;;
       if negb hi then Raise (ValueError (InvalidConfidence c)) else Ok tt
     else Ok tt)%result in
  (tail = Raise TypeError <->
   exists s' t' c,
     lookup (u "ioc_value") d = Some (VStr s') /\ strip s' <> [] /\
     lookup (u "ioc_type") d = Some t' /\
     lookup (u "malware") d <> None /\
     (t' = VStr (u "domain") -> In 46%N s') /\
     lookup (u "confidence_level") d = Some c /\ as_number c = None) /\
  (forall e, tail = Raise e -> e = TypeError \/ exists m, e = ValueError m).
Proof.
  intros Hv Hs Ht Hm Hdot. cbn [contains getitem rbind].
  destruct (lookup (u "confidence_level") d) as [c|] eqn:Hc; cbn [rbind].
  - pose proof (confidence_check_class c) as Hcls.
    match goal with
    | H : match ?X with _ => _ end |- _ => destruct X as [[]|e]
    end.
    + split; [|discriminate]. split; [discriminate|].
      intros (s' & t' & c' & _ & _ & _ & _ & _ & [= <-] & Hn). congruence.
    + split.
      * split.
        -- intros [= ->]. exists s, t, c.
           destruct Hcls as [[_ Hn]|[_ (m & Hm')]]; [|discriminate].
           tauto.
        -- intros (s' & t' & c' & _ & _ & _ & _ & _ & [= <-] & Hn).
           destruct Hcls as [[-> _]|[Hn' _]]; [reflexivity | congruence].
      * intros e' [= <-]. destruct Hcls as [[-> _]|[_ Hm']]; tauto.
  - split; [|discriminate]. split; [discriminate|].
    intros (s' & t' & c' & _ & _ & _ & _ & _ & H & _). discriminate.
Qed.

(** X2. On a mapping, [validate_ioc] raises a [TypeError] exactly when the
    record passes the three earlier rules and its [confidence_level] is
    present and not a number; every other failure is a [ValueError]. *)
Theorem validate_ioc_type_error (d : dict) :
  (validate_ioc (VDict d) = Raise TypeError <->
   exists s t c,
     lookup (u "ioc_value") d = Some (VStr s) /\ strip s <> [] /\
     lookup (u "ioc_type") d = Some t /\
     lookup (u "malware") d <> None /\
     (t = VStr (u "domain") -> In 46%N s) /\
     lookup (u "confidence_level") d = Some c /\ as_number c = None) /\
  (forall e,
     validate_ioc (VDict d) = Raise e ->
     e = TypeError \/ exists m, e = ValueError m).
Proof.
  unfold validate_ioc, required_fields, check_required, get, get_default,
    getitem.
  cbn [contains rbind].
  destruct (lookup (u "ioc_value") d) as [v|] eqn:Hv; cbn [negb rbind].
  2:{ split.
      - split; [discriminate|]. intros (s & t & c & H & _). discriminate.
      - intros e [= <-]. right. eexists. reflexivity. }
  destruct (lookup (u "ioc_type") d) as [t|] eqn:Ht; cbn [negb rbind].
  2:{ split.
      - split; [discriminate|].
        intros (s & t & c & _ & _ & H & _). discriminate.
      - intros e [= <-]. right. eexists. reflexivity. }
  destruct (lookup (u "malware") d) as [m|] eqn:Hm; cbn [negb rbind].
  2:{ split.
      - split; [discriminate|].
        intros (s & t' & c & _ & _ & _ & H & _). congruence.
      - intros e [= <-]. right. eexists. reflexivity. }
  pose proof (not_text_or_blank_spec v) as Hnb.
  destruct (not_text_or_blank v); cbn [rbind].
  { split.
    - split; [discriminate|].
      intros (s & t' & c & [= ->] & Hs & _).
      assert (Hn : non_blank_text (VStr s)) by (exists s; tauto).
      apply Hnb in Hn. discriminate.
    - intros e [= <-]. right. eexists. reflexivity. }
  destruct Hnb as [Hnb _]. destruct (Hnb eq_refl) as (s & -> & Hs).
  cbn [contains].
  pose proof (domain_rule_spec t s) as Hdom. cbn [contains] in Hdom.
  destruct (eq_str t (u "domain")) eqn:Hd; cbn [rbind] in *.
  - pose proof (substring_dot s) as Hdot.
    destruct (substring_of (u ".") s) eqn:Hsub; cbn [negb rbind] in *.
    + assert (Hin : t = VStr (u "domain") -> In 46%N s)
        by (intros _; apply Hdot; reflexivity).
      assert (Hmal : lookup (u "malware") d <> None) by congruence.
      pose proof (confidence_tail_outcome d s t Hv Hs Ht Hmal Hin) as Hfin.
      cbn [contains getitem rbind] in Hfin. rewrite Hv, Ht, Hm in Hfin.
      exact Hfin.
    + split.
      * split; [discriminate|].
        intros (s' & t' & c & [= <-] & _ & [= <-] & _ & Hin & _).
        exfalso. destruct Hdom as [Ht' Hn]. apply Hn, Hin, Ht'.
      * intros e [= <-]. right. eexists. reflexivity.
  - assert (Hin : t = VStr (u "domain") -> In 46%N s).
    { intros ->. cbn in Hd. rewrite str_eqb_refl in Hd. discriminate. }
    assert (Hmal : lookup (u "malware") d <> None) by congruence.
    pose proof (confidence_tail_outcome d s t Hv Hs Ht Hmal Hin) as Hfin.
    cbn [contains getitem rbind] in Hfin. rewrite Hv, Ht, Hm in Hfin.
    exact Hfin.
Qed.

(** X3. Anything that is not a mapping makes [validate_ioc] raise a
    [TypeError] or an [AttributeError], never a [ValueError]. *)
Theorem validate_ioc_rejects_non_mapping (v : value) :
  ~ is_mapping v ->
  exists e,
    validate_ioc v = Raise e /\ (e = TypeError \/ e = AttributeError).
Proof.
  intros Hv. unfold validate_ioc, required_fields.
  destruct v as [|b|z|f|s|l|d|t]; cbn [check_required contains rbind];
    try (eexists; split; [reflexivity | tauto]).
  - destruct (substring_of (u "ioc_value") s); cbn;
      [|eexists; split; [reflexivity | tauto]].
    destruct (substring_of (u "ioc_type") s); cbn;
      [|eexists; split; [reflexivity | tauto]].
    destruct (substring_of (u "malware") s); cbn;
      eexists; (split; [reflexivity | tauto]).
  - destruct (existsb (fun x => eq_str x (u "ioc_value")) l); cbn;
      [|eexists; split; [reflexivity | tauto]].
    destruct (existsb (fun x => eq_str x (u "ioc_type")) l); cbn;
      [|eexists; split; [reflexivity | tauto]].
    destruct (existsb (fun x => eq_str x (u "malware")) l); cbn;
      eexists; (split; [reflexivity | tauto]).
  - exfalso. apply Hv. exists d. reflexivity.
Qed.

(** *** Extraction *)

Lemma accepted_is_mapping (v : value) : validate_ioc v = Ok tt -> is_mapping v.
Proof.
  intros H.
  assert (Hm : (forall d, v <> VDict d) -> False).
  { intros Hn. destruct (validate_ioc_not_mapping v Hn) as (e & He & _).
    congruence. }
  destruct v as [| | | | | |d|]; try (exfalso; apply Hm; discriminate).
  exists d. reflexivity.
Qed.

Section ExtractionRuns.

Context {W : Type}.

Lemma only_prints_refl (w : world W) : only_prints w w.
Proof. unfold only_prints. tauto. Qed.

Lemma only_prints_trans (a b c : world W) :
  only_prints a b -> only_prints b c -> only_prints a c.
Proof. unfold only_prints. intuition congruence. Qed.

Lemma print_only_prints (l : line) : keeps (W := W) only_prints (print l).
Proof.
  intros w. rewrite print_world. unfold only_prints. cbn.
  split; [reflexivity | split; reflexivity].
Qed.

Lemma validate_items_only_prints (items iocs : list value) :
  keeps (W := W) only_prints (validate_items items iocs).
Proof.
  revert iocs. induction items as [|ioc rest IH]; intros iocs;
    cbn [validate_items].
  - apply (keeps_ret _ only_prints_refl).
  - repeat keeps_step only_prints_refl only_prints_trans;
      first [apply print_only_prints | apply IH].
Qed.

Lemma collect_only_prints (groups : dict) (iocs : list value) :
  keeps (W := W) only_prints (collect groups iocs).
Proof.
  revert iocs. induction groups as [|[key items] rest IH]; intros iocs;
    cbn [collect].
  - apply (keeps_ret _ only_prints_refl).
  - apply (keeps_bind _ only_prints_trans); [|intros ?; apply IH].
    destruct items; first [ apply validate_items_only_prints
                          | apply (keeps_ret _ only_prints_refl) ].
Qed.

Lemma rejections_cons (r : value) (rest : list value) :
  rejections (r :: rest) =
  match validate_ioc r with Ok _ => [] | Raise e => [e] end ++
  rejections rest.
Proof. reflexivity. Qed.

Lemma rejections_app (a b : list value) :
  rejections (a ++ b) = rejections a ++ rejections b.
Proof. unfold rejections. apply flat_map_app. Qed.

(** The record loop on orderly records whose rejections can be printed:
    what it returns and prints. *)
Lemma validate_items_orderly_run (items iocs : list value) (w : world W) :
  Forall orderly items ->
  Forall (fun e => printable_exn e = true) (rejections items) ->
  validate_items items iocs w =
  (Ok (iocs ++ filter accepted items),
   mk_world (stdout w ++ map SkippingInvalidIOC (rejections items))
     (ticks w) (store w) (calls w)).
Proof.
  intros H. revert iocs w.
  induction H as [|ioc rest Ho _ IH]; intros iocs w Hp.
  - cbn. rewrite !app_nil_r. destruct w; reflexivity.
  - rewrite validate_items_cons. rewrite rejections_cons in Hp |- *.
    cbn [filter]. unfold accepted at 1. unfold orderly in Ho.
    destruct (validate_ioc ioc) as [[]|e]; cbn [app] in Hp |- *.
    + rewrite (IH _ _ Hp), <- app_assoc. reflexivity.
    + inversion Hp as [|? ? He Hrest]; subst.
      rewrite Ho, He, (IH _ _ Hrest). cbn. rewrite <- app_assoc.
      reflexivity.
Qed.

Lemma collect_orderly_run (groups : dict) (iocs : list value) (w : world W) :
  Forall orderly (records_of groups) ->
  Forall (fun e => printable_exn e = true) (rejections (records_of groups)) ->
  collect groups iocs w =
  (Ok (iocs ++ filter accepted (records_of groups)),
   mk_world
     (stdout w ++ map SkippingInvalidIOC (rejections (records_of groups)))
     (ticks w) (store w) (calls w)).
Proof.
  revert iocs w. induction groups as [|[key items] rest IH];
    intros iocs w H Hp.
  - cbn. rewrite !app_nil_r. destruct w; reflexivity.
  - rewrite collect_cons. cbn [records_of flat_map snd] in H, Hp |- *.
    fold (records_of rest) in H, Hp |- *.
    destruct items as [| | | | |l| |]; cbn [app] in H, Hp |- *;
      try (apply IH; assumption).
    apply Forall_app in H as [Hl Hrest].
    rewrite rejections_app in Hp. apply Forall_app in Hp as [Hpl Hprest].
    rewrite (validate_items_orderly_run l iocs w Hl Hpl),
      (IH _ _ Hrest Hprest). cbn.
    rewrite filter_app, rejections_app, map_app, !app_assoc. reflexivity.
Qed.

Lemma ends_loop_cons (r : value) (rest : list value) (e : exn) :
  ends_loop rest e -> ends_loop (r :: rest) e.
Proof.
  intros (r' & e0 & Hin & H). exists r', e0.
  split; [right; exact Hin | exact H].
Qed.

Lemma ends_loop_app (a b : list value) (e : exn) :
  ends_loop a e \/ ends_loop b e -> ends_loop (a ++ b) e.
Proof.
  intros [(r & e0 & Hin & H)|(r & e0 & Hin & H)]; exists r, e0;
    (split; [apply in_or_app; auto | exact H]).
Qed.

(** The exception that ends the loop can itself be printed. *)
Lemma ends_loop_printable (records : list value) (e : exn) :
  ends_loop records e -> printable_exn e = true.
Proof.
  intros (r & e0 & _ & _ & [[He ->]|(_ & _ & ->)]); [|reflexivity].
  destruct e0; first [reflexivity | discriminate He].
Qed.


(** What the record loop leaves: the lines it printed, and either orderly
    records with printable rejections or the exception that ended it. *)
Lemma validate_items_outcome (items iocs : list value) (w : world W) :
  exists printed,
    stdout (snd (validate_items items iocs w)) = stdout w ++ printed /\
    match fst (validate_items items iocs w) with
    | Ok _ =>
        Forall orderly items /\
        Forall (fun e => printable_exn e = true) (rejections items)
    | Raise e => ends_loop items e
    end.
Proof.
  revert iocs w. induction items as [|ioc rest IH]; intros iocs w.
  - exists []. cbn. rewrite app_nil_r.
    split; [reflexivity | split; constructor].
  - rewrite validate_items_cons, rejections_cons.
    destruct (validate_ioc ioc) as [[]|e] eqn:Hv; cbn [app].
    + destruct (IH (iocs ++ [ioc]) w) as (printed & Hout & Hcase).
      exists printed. split; [exact Hout|].
      destruct (fst (validate_items rest (iocs ++ [ioc]) w)) as [out|e].
      * destruct Hcase as [Ho Hp]. split; [|exact Hp].
        constructor; [unfold orderly; rewrite Hv; exact I | exact Ho].
      * apply ends_loop_cons, Hcase.
    + destruct (is_ValueError e) eqn:He;
        [destruct (printable_exn e) eqn:Hpe|].
      * destruct (IH iocs (after_print (SkippingInvalidIOC e) w))
          as (printed & Hout & Hcase).
        exists (SkippingInvalidIOC e :: printed).
        split; [rewrite Hout; cbn; rewrite <- app_assoc; reflexivity|].
        destruct (fst (validate_items rest iocs
                         (after_print (SkippingInvalidIOC e) w)))
          as [out|e'].
        -- destruct Hcase as [Ho Hp].
           split; constructor;
             [unfold orderly; rewrite Hv; exact He | exact Ho
             | exact Hpe | exact Hp].
        -- apply ends_loop_cons, Hcase.
      * exists []. cbn [fst snd]. rewrite app_nil_r.
        split; [reflexivity|]. exists ioc, e.
        split; [left; reflexivity|]. split; [exact Hv|].
        right. split; [exact He|]. split; [exact Hpe | reflexivity].
      * exists []. cbn [fst snd]. rewrite app_nil_r.
        split; [reflexivity|]. exists ioc, e.
        split; [left; reflexivity|]. split; [exact Hv|].
        left. split; [exact He | reflexivity].
Qed.

Lemma collect_outcome (groups : dict) (iocs : list value) (w : world W) :
  exists printed,
    stdout (snd (collect groups iocs w)) = stdout w ++ printed /\
    match fst (collect groups iocs w) with
    | Ok _ =>
        Forall orderly (records_of groups) /\
        Forall (fun e => printable_exn e = true)
          (rejections (records_of groups))
    | Raise e => ends_loop (records_of groups) e
    end.
Proof.
  revert iocs w. induction groups as [|[key items] rest IH]; intros iocs w.
  - exists []. cbn. rewrite app_nil_r.
    split; [reflexivity | split; constructor].
  - rewrite collect_cons. cbn [records_of flat_map snd].
    fold (records_of rest).
    destruct items as [| | | | |l| |]; cbn [app]; try apply IH.
    rewrite rejections_app.
    destruct (validate_items_outcome l iocs w) as (p1 & Ho1 & Hc1).
    destruct (validate_items l iocs w) as [[iocs'|e] w1]; cbn [fst snd] in *.
    + destruct (IH iocs' w1) as (p2 & Ho2 & Hc2).
      exists (p1 ++ p2). rewrite Ho2, Ho1, <- app_assoc.
      split; [reflexivity|].
      destruct (fst (collect rest iocs' w1)) as [out|e].
      * destruct Hc1 as [Ha Hb], Hc2 as [Hc Hd].
        split; apply Forall_app; split; assumption.
      * apply ends_loop_app. right. exact Hc2.
    + exists p1. split; [exact Ho1|]. apply ends_loop_app. left. exact Hc1.
Qed.

Variable requests_get : str -> list (str * str) -> Z -> result response.

Lemma extract_data_only_prints :
  keeps (W := W) only_prints (extract_data requests_get).
Proof.
  unfold extract_data.
  repeat keeps_step only_prints_refl only_prints_trans;
    first [apply print_only_prints | apply collect_only_prints].
Qed.

(** [extract_data] read step by step: the request, the envelope and the
    groups, then the loop, and the print of either outcome. *)
Lemma extract_data_cases (w : world W) :
  extract_data requests_get w =
  match requests_get url headers 30 with
  | Raise e =>
      if printable_exn e then (Ok [], after_print (ExtractionFailed e) w)
      else (Raise UnicodeEncodeError, w)
  | Ok resp =>
      match validate_response resp with
      | Raise e =>
          if printable_exn e then (Ok [], after_print (ExtractionFailed e) w)
          else (Raise UnicodeEncodeError, w)
      | Ok (VDict groups) =>
          match collect groups [] w with
          | (Ok iocs, w1) =>
              (Ok iocs, after_print (ExtractedValidIOCs (length iocs)) w1)
          | (Raise e, w1) =>
              if printable_exn e
              then (Ok [], after_print (ExtractionFailed e) w1)
              else (Raise UnicodeEncodeError, w1)
          end
      | Ok _ => (Ok [], after_print (ExtractionFailed AttributeError) w)
      end
  end.
Proof.
  unfold extract_data, try_except, Exception. unfold bind at 1, lift at 1.
  destruct (requests_get url headers 30) as [resp|e];
    [|rewrite bind_print; cbn [printable]; destruct (printable_exn e);
      reflexivity].
  unfold bind at 1, lift at 1.
  destruct (validate_response resp) as [data|e];
    [|rewrite bind_print; cbn [printable]; destruct (printable_exn e);
      reflexivity].
  unfold bind at 1, lift at 1.
  destruct data as [| | | | | |groups|]; try reflexivity.
  cbn [items_of]. unfold bind at 1.
  destruct (collect groups [] w) as [[iocs|e] w1].
  - rewrite bind_print. reflexivity.
  - rewrite bind_print. cbn [printable]. destruct (printable_exn e);
      reflexivity.
Qed.

(** X4. [extract_data] changes nothing but the output: it reads no clock
    and makes no store call.  The one exception it lets out is the
    [UnicodeEncodeError] of its own failure print, when the message of a
    failed request or of a refused envelope cannot be written; the world
    is then as before. *)
Theorem extract_data_returns_and_only_prints (w : world W) :
  only_prints w (snd (extract_data requests_get w)) /\
  forall e,
    fst (extract_data requests_get w) = Raise e ->
    e = UnicodeEncodeError /\
    snd (extract_data requests_get w) = w /\
    exists e0,
      printable_exn e0 = false /\
      (requests_get url headers 30 = Raise e0 \/
       exists resp,
         requests_get url headers 30 = Ok resp /\
         validate_response resp = Raise e0).
Proof.
  split; [apply extract_data_only_prints|].
  rewrite extract_data_cases.
  destruct (requests_get url headers 30) as [resp|e0].
  - destruct (validate_response resp) as [data|e0] eqn:Hresp.
    + destruct data as [| | | | | |groups|]; try discriminate.
      pose proof (collect_outcome groups [] w) as (printed & _ & Hcase).
      destruct (collect groups [] w) as [[iocs|e0] w1]; [discriminate|].
      cbn [fst] in Hcase. rewrite (ends_loop_printable _ _ Hcase).
      discriminate.
    + destruct (printable_exn e0) eqn:Hp; [discriminate|].
      cbn [fst snd]. intros e [= <-].
      split; [reflexivity|]. split; [reflexivity|]. exists e0.
      split; [exact Hp|]. right. exists resp.
      split; [reflexivity | exact Hresp].
  - destruct (printable_exn e0) eqn:Hp; [discriminate|].
    cbn [fst snd]. intros e [= <-].
    split; [reflexivity|]. split; [reflexivity|]. exists e0.
    split; [exact Hp|]. left. reflexivity.
Qed.

(** X5. When the request raises, the envelope is refused, or the body is
    not a mapping, [extract_data] returns no record and prints that one
    failure, if the failure's message can be written; if it cannot, the
    print raises [UnicodeEncodeError] out of [extract_data] and nothing is
    printed. *)
Theorem extract_data_envelope_failure (w : world W) :
  (forall e,
     requests_get url headers 30 = Raise e ->
     extract_data requests_get w =
     if printable_exn e then (Ok [], after_print (ExtractionFailed e) w)
     else (Raise UnicodeEncodeError, w)) /\
  (forall resp e,
     requests_get url headers 30 = Ok resp ->
     validate_response resp = Raise e ->
     extract_data requests_get w =
     if printable_exn e then (Ok [], after_print (ExtractionFailed e) w)
     else (Raise UnicodeEncodeError, w)) /\
  (forall resp data,
     requests_get url headers 30 = Ok resp ->
     validate_response resp = Ok data ->
     ~ is_mapping data ->
     extract_data requests_get w =
     (Ok [], after_print (ExtractionFailed AttributeError) w)).
Proof.
  rewrite extract_data_cases. split; [|split].
  - intros e ->. reflexivity.
  - intros resp e -> ->. reflexivity.
  - intros resp data -> -> Hd. destruct data; try reflexivity.
    exfalso. apply Hd. eexists. reflexivity.
Qed.

(** X6. Every record [extract_data] returns is a mapping that
    [validate_ioc] accepts. *)
Theorem extract_data_sound (w w' : world W) (iocs : list value) :
  extract_data requests_get w = (Ok iocs, w') ->
  Forall (fun r => is_mapping r /\ validate_ioc r = Ok tt) iocs.
Proof.
  intros H. apply extract_data_accepted in H.
  eapply Forall_impl; [|exact H]. cbn. intros r Hr.
  split; [apply accepted_is_mapping, Hr | exact Hr].
Qed.

(** X7. On a feed whose records are all orderly and whose rejections can
    all be printed, [extract_data] returns the accepted records of the
    list-valued groups in feed order, and prints one line per rejected
    record and then the count; groups that are not lists are ignored. *)
Theorem extract_data_orderly_run (resp : response) (groups : dict)
    (w : world W) :
  requests_get url headers 30 = Ok resp ->
  validate_response resp = Ok (VDict groups) ->
  Forall orderly (records_of groups) ->
  Forall (fun e => printable_exn e = true) (rejections (records_of groups)) ->
  extract_data requests_get w =
  (Ok (filter accepted (records_of groups)),
   mk_world
     (stdout w ++
      map SkippingInvalidIOC (rejections (records_of groups)) ++
      [ExtractedValidIOCs (length (filter accepted (records_of groups)))])
     (ticks w) (store w) (calls w)).
Proof.
  intros Hget Hresp Hall Hp.
  rewrite extract_data_cases, Hget, Hresp.
  rewrite (collect_orderly_run groups [] w Hall Hp). cbn.
  unfold after_print. cbn. rewrite <- app_assoc. reflexivity.
Qed.

(** X8. One record on which [validate_ioc] raises anything but a
    [ValueError] costs the whole feed: [extract_data] returns no record at
    all, and the last line it prints is the extraction failure, with the
    exception that ended the loop: that of such a record, or the
    [UnicodeEncodeError] of an earlier rejection that could not be
    printed. *)
Theorem extract_data_disorderly_record (resp : response) (groups : dict)
    (w : world W) :
  requests_get url headers 30 = Ok resp ->
  validate_response resp = Ok (VDict groups) ->
  Exists (fun r => ~ orderly r) (records_of groups) ->
  exists printed e,
    extract_data requests_get w =
    (Ok [],
     mk_world (stdout w ++ printed ++ [ExtractionFailed e]) (ticks w)
       (store w) (calls w)) /\
    ends_loop (records_of groups) e.
Proof.
  intros Hget Hresp Hex.
  rewrite extract_data_cases, Hget, Hresp.
  destruct (collect_outcome groups [] w) as (printed & Hout & Hcase).
  pose proof (collect_only_prints groups [] w) as (Ht & Hs & Hc).
  destruct (collect groups [] w) as [[iocs|e] w1]; cbn [fst snd] in *.
  - exfalso. rewrite Exists_exists in Hex. destruct Hex as (r & Hin & Hn).
    destruct Hcase as [Hcase _].
    rewrite Forall_forall in Hcase. exact (Hn (Hcase r Hin)).
  - exists printed, e. split; [|exact Hcase].
    rewrite (ends_loop_printable _ _ Hcase).
    unfold after_print. cbn.
    rewrite Hout, Ht, Hs, Hc, <- app_assoc. reflexivity.
Qed.

(** X28. One rejected record whose message cannot be written costs the
    whole feed too: on orderly records, when the message of one
    [ValueError] holds a lone surrogate, the print of that rejection
    raises, [extract_data] returns no record at all, and the last line it
    prints is the extraction failure with the [UnicodeEncodeError]. *)
Theorem extract_data_unprintable_rejection (resp : response) (groups : dict)
    (w : world W) :
  requests_get url headers 30 = Ok resp ->
  validate_response resp = Ok (VDict groups) ->
  Forall orderly (records_of groups) ->
  Exists (fun e => printable_exn e = false) (rejections (records_of groups)) ->
  exists printed,
    extract_data requests_get w =
    (Ok [],
     mk_world (stdout w ++ printed ++ [ExtractionFailed UnicodeEncodeError])
       (ticks w) (store w) (calls w)).
Proof.
  intros Hget Hresp Hall Hex.
  rewrite extract_data_cases, Hget, Hresp.
  destruct (collect_outcome groups [] w) as (printed & Hout & Hcase).
  pose proof (collect_only_prints groups [] w) as (Ht & Hs & Hc).
  destruct (collect groups [] w) as [[iocs|e] w1]; cbn [fst snd] in *.
  - exfalso. rewrite Exists_exists in Hex. destruct Hex as (e & Hin & Hn).
    destruct Hcase as [_ Hcase].
    rewrite Forall_forall in Hcase. rewrite (Hcase e Hin) in Hn.
    discriminate.
  - exists printed.
    destruct Hcase as (r & e0 & Hin & Hr & [[He ->]|(_ & _ & ->)]).
    + exfalso. rewrite Forall_forall in Hall. specialize (Hall r Hin).
      unfold orderly in Hall. rewrite Hr in Hall. congruence.
    + cbn [printable_exn]. unfold after_print. cbn.
      rewrite Hout, Ht, Hs, Hc, <- app_assoc. reflexivity.
Qed.
End ExtractionRuns.

(** *** Transformation *)

Ltac copied_field default :=
  match goal with
  | |- match lookup ?k ?doc with _ => _ end = reduced (lookup ?src ?r) =>
      replace (lookup k doc) with (Some (or_default (lookup src r) default))
        by reflexivity;
      unfold reduced; destruct (lookup src r); reflexivity
  end.

Section TransformationRuns.

Context {W : Type}.
Variable strptime : str -> option datetime.

(** X9. [parse_datetime] raises a [TypeError] exactly on a truthy value
    that is not a text, and a [UnicodeEncodeError] exactly on a text that
    does not parse and cannot be printed; it raises nothing else.  What it
    returns is [None] or the [datetime] the parser gave for the text. *)
Theorem parse_datetime_outcome (v : value) (w : world W) :
  (fst (parse_datetime strptime v w) = Raise TypeError <->
   truthy v = true /\ isinstance_str v = false) /\
  (fst (parse_datetime strptime v w) = Raise UnicodeEncodeError <->
   exists s,
     v = VStr s /\ s <> [] /\ strptime s = None /\ encodable s = false) /\
  (forall e,
     fst (parse_datetime strptime v w) = Raise e ->
     e = TypeError \/ e = UnicodeEncodeError) /\
  (forall r,
     fst (parse_datetime strptime v w) = Ok r ->
     r = VNone \/
     exists s t, v = VStr s /\ strptime s = Some t /\ r = VDatetime t).
Proof.
  destruct (truthy v) eqn:Hv.
  - destruct (isinstance_str v) eqn:Hs.
    + destruct v as [| | | |s| | |]; try discriminate Hs.
      pose proof (truthy_text s Hv) as Hne.
      rewrite (parse_datetime_text strptime s w Hne).
      destruct (strptime s) as [t|] eqn:Hp; [|destruct (encodable s) eqn:He];
        cbn [fst].
      * split; [split; [discriminate | intros [_ H]; discriminate]|].
        split; [split; [discriminate|]|].
        { intros (s' & [= <-] & _ & H & _). congruence. }
        split; [discriminate|]. intros r [= <-]. right. exists s, t.
        split; [reflexivity|]. split; [exact Hp | reflexivity].
      * split; [split; [discriminate | intros [_ H]; discriminate]|].
        split; [split; [discriminate|]|].
        { intros (s' & [= <-] & _ & _ & H). congruence. }
        split; [discriminate|]. intros r [= <-]. left. reflexivity.
      * split; [split; [discriminate | intros [_ H]; discriminate]|].
        split; [split; [intros _|reflexivity]|].
        { exists s. split; [reflexivity|]. split; [exact Hne|].
          split; [exact Hp | exact He]. }
        split; [|discriminate]. intros e [= <-]. right. reflexivity.
    + rewrite (parse_datetime_not_text strptime v w Hv Hs). cbn [fst].
      split; [split; [intros _; split; reflexivity | reflexivity]|].
      split; [split; [discriminate|]|].
      { intros (s & -> & _). discriminate Hs. }
      split; [|discriminate]. intros e [= <-]. left. reflexivity.
  - rewrite (parse_datetime_falsy strptime v w Hv). cbn [fst].
    split; [split; [discriminate | intros [H _]; discriminate]|].
    split; [split; [discriminate|]|].
    { intros (s & -> & Hne & _). destruct s; [congruence | discriminate Hv]. }
    split; [discriminate|]. intros r [= <-]. left. reflexivity.
Qed.

Variable utcnow : nat -> datetime.

Lemma get_id (d : dict) :
  get (VDict d) (u "id") = Ok (or_default (lookup (u "id") d) VNone).
Proof. reflexivity. Qed.

(** What the record loop leaves: it returns on harmless items only, and
    raises only at an item that is not harmless, with the
    [AttributeError] of [item.get] or the [UnicodeEncodeError] of the
    failure print. *)
Lemma transform_items_outcome (raw acc : list value) (w : world W) :
  match fst (transform_items strptime utcnow raw acc w) with
  | Ok _ => Forall (harmless strptime) raw
  | Raise e =>
      Exists (fun item => ~ harmless strptime item) raw /\
      (e = AttributeError \/ e = UnicodeEncodeError)
  end.
Proof.
  revert acc w. induction raw as [|item rest IH]; intros acc w.
  - cbn [transform_items]. unfold ret. cbn [fst]. constructor.
  - rewrite transform_items_cons.
    destruct (build_document strptime utcnow item w) as [[doc|e] w1] eqn:Hb.
    + assert (Hh : harmless strptime item).
      { pose proof Hb as Hd. apply build_document_iff in Hd
          as (d & fs & ls & cl & wa & wb & -> & _).
        exists d. split; [reflexivity|]. left.
        apply (transformable_iff strptime utcnow d w). eauto. }
      specialize (IH (acc ++ [VDict (clean doc)]) w1).
      destruct (fst (transform_items strptime utcnow rest
                       (acc ++ [VDict (clean doc)]) w1)) as [out|e].
      * constructor; assumption.
      * destruct IH as [Hex He]. split; [constructor 2; exact Hex | exact He].
    + destruct item as [| | | | | |d|];
        try (cbn [get get_default fst]; split; [|left; reflexivity];
             constructor 1; intros (d & Hd & _); discriminate Hd).
      rewrite get_id. cbn [printable].
      rewrite (build_document_raises strptime utcnow _ _ _ _ Hb),
        Bool.andb_true_r.
      destruct (printable_value (or_default (lookup (u "id") d) VNone))
        eqn:Hid.
      * assert (Hh : harmless strptime (VDict d)).
        { exists d. split; [reflexivity|]. right. exact Hid. }
        specialize (IH acc
          (after_print
             (TransformationFailed (or_default (lookup (u "id") d) VNone) e)
             w1)).
        destruct (fst (transform_items strptime utcnow rest acc
                         (after_print
                            (TransformationFailed
                               (or_default (lookup (u "id") d) VNone) e)
                            w1))) as [out|e'].
        -- constructor; assumption.
        -- destruct IH as [Hex He].
           split; [constructor 2; exact Hex | exact He].
      * cbn [fst]. split; [|right; reflexivity]. constructor 1.
        intros (d' & [= <-] & [Ht|Hp]); [|congruence].
        apply (transformable_iff strptime utcnow d w) in Ht
          as (doc & w' & Ht). congruence.
Qed.

(** X10. [transform_data] raises exactly when the batch holds an item the
    handler of the record loop fails on: one that is not a mapping, where
    [item.get] raises an [AttributeError], or a mapping that is not made
    into a document and whose [id] cannot be printed, where the print
    raises a [UnicodeEncodeError]. *)
Theorem transform_data_raises_iff (raw : list value) (w : world W) :
  ((exists e, fst (transform_data strptime utcnow raw w) = Raise e) <->
   Exists (fun item => ~ harmless strptime item) raw) /\
  (forall e,
     fst (transform_data strptime utcnow raw w) = Raise e ->
     e = AttributeError \/ e = UnicodeEncodeError).
Proof.
  unfold transform_data. pose proof (transform_items_outcome raw [] w) as H.
  destruct (fst (transform_items strptime utcnow raw [] w)) as [out|e].
  - split; [split|].
    + intros [e He]. discriminate.
    + intros Hex. exfalso. rewrite Exists_exists in Hex.
      destruct Hex as (v & Hin & Hn). rewrite Forall_forall in H.
      apply Hn, H, Hin.
    + discriminate.
  - destruct H as [Hex He]. split; [split|].
    + intros _. exact Hex.
    + intros _. eexists. reflexivity.
    + intros e' [= <-]. exact He.
Qed.

(** X11. A mapping that lacks a required field is skipped when its [id]
    can be printed: the loop prints the [KeyError] of a missing required
    field with the record's [id] and goes on with the rest of the batch,
    the produced documents unchanged. *)
Theorem transform_items_missing_field (d : dict) (rest acc : list value)
    (w : world W) :
  required_absent d ->
  printable_value (or_default (lookup (u "id") d) VNone) = true ->
  exists k,
    In k required_fields /\ lookup k d = None /\
    transform_items strptime utcnow (VDict d :: rest) acc w =
    transform_items strptime utcnow rest acc
      (after_print
         (TransformationFailed (or_default (lookup (u "id") d) VNone)
            (KeyError k)) w).
Proof.
  intros Hreq Hid. rewrite transform_items_cons.
  assert (Hb : exists k,
             In k required_fields /\ lookup k d = None /\
             build_document strptime utcnow (VDict d) w =
             (Raise (KeyError k), w)).
  { unfold build_document, bind, lift, get, get_default, getitem, or_default.
    unfold required_absent in Hreq. unfold required_fields.
    destruct (lookup (u "ioc_value") d) as [iv|] eqn:Hv.
    2:{ exists (u "ioc_value"). cbn [In]. split; [tauto|].
        split; [exact Hv | reflexivity]. }
    destruct (lookup (u "ioc_type") d) as [it|] eqn:Ht.
    2:{ exists (u "ioc_type"). cbn [In]. split; [tauto|].
        split; [exact Ht | reflexivity]. }
    destruct (lookup (u "malware") d) as [ml|] eqn:Hm.
    2:{ exists (u "malware"). cbn [In]. split; [tauto|].
        split; [exact Hm | reflexivity]. }
    exfalso. destruct Hreq as [H|[H|H]]; discriminate. }
  destruct Hb as (k & Hin & Hk & Hb). exists k.
  split; [exact Hin|]. split; [exact Hk|].
  rewrite Hb, get_id. cbn [printable printable_exn].
  rewrite Hid. reflexivity.
Qed.

(** X12. Every produced document copies the fields of its record under
    their new names, each after presence reduction: a field that is absent,
    [None] or [[]] in the record is absent from the document. *)
Theorem transform_data_copies_fields (raw out : list value) (w w' : world W) :
  transform_data strptime utcnow raw w = (Ok out, w') ->
  Forall
    (fun doc =>
       exists r d,
         In (VDict r) raw /\ doc = VDict d /\
         forall src dst,
           In (src, dst) copied_fields ->
           lookup dst d = reduced (lookup src r))
    out.
Proof.
  intros H. unfold transform_data in H.
  apply (transform_items_origin strptime utcnow) in H
    as (added & -> & Hall).
  cbn [app]. eapply Forall_impl; [|exact Hall].
  intros doc (item & w1 & w2 & d & Hin & Hb & ->).
  apply (build_document_iff strptime utcnow) in Hb
    as (r & fs & ls & cl & wa & wb & -> & _ & _ & _ & _ & _ & _ & _ & ->).
  exists r, (clean (document r fs ls cl (utcnow (ticks wb)))).
  split; [exact Hin|]. split; [reflexivity|].
  intros src dst Hf. rewrite lookup_clean_document.
  unfold copied_fields in Hf. cbn [In] in Hf.
  repeat (destruct Hf as [Hf|Hf];
          [injection Hf as <- <-;
           first [copied_field VNone | copied_field (VList [])]|]).
  destruct Hf.
Qed.

Lemma pipeline_record_document (d : dict) (w : world W) :
  pipeline_record strptime (VDict d) ->
  exists doc w',
    build_document strptime utcnow (VDict d) w = (Ok doc, w') /\
    document_for (VDict d) (VDict (clean doc)).
Proof.
  intros (d' & [= <-] & Hv & Hfs & Hls).
  pose proof (accepted_transformable strptime d Hv Hfs Hls) as Hd.
  destruct (transformable_document strptime utcnow d w Hd)
    as (fs & ls & cl & lines & Hb & Hc & _).
  eexists _, _. split; [exact Hb|].
  destruct (accepted_record d Hv) as ((s & Hi & Hs) & _ & _ & Hconf).
  eexists d, _. split; [reflexivity|]. split; [reflexivity|].
  rewrite !lookup_clean_document. split.
  - replace (lookup (u "indicator")
               (document d fs ls cl (utcnow (ticks w))))
      with (Some (or_default (lookup (u "ioc_value") d) VNone))
      by reflexivity.
    rewrite Hi. reflexivity.
  - change (lookup (u "confidence_level")
              (document d fs ls cl (utcnow (ticks w)))) with (Some cl).
    destruct (lookup (u "confidence_level") d) as [c|]; cbn [or_default] in *.
    + rewrite (clamp_confidence_within c (Hconf c eq_refl)) in Hc.
      injection Hc as <-.
      rewrite (within_0_100_present c (Hconf c eq_refl)). reflexivity.
    + rewrite clamp_confidence_int in Hc. injection Hc as <-. reflexivity.
Qed.

Lemma transform_items_pipeline (raw acc : list value) (w : world W) :
  Forall (pipeline_record strptime) raw ->
  exists added w',
    transform_items strptime utcnow raw acc w = (Ok (acc ++ added), w') /\
    Forall2 document_for raw added.
Proof.
  intros H. revert acc w.
  induction H as [|r rest Hr _ IH]; intros acc w.
  - exists [], w. rewrite app_nil_r. split; [reflexivity | constructor].
  - destruct Hr as (d & -> & Hrest).
    destruct (pipeline_record_document d w) as (doc & w1 & Hb & Hdoc).
    { exists d. split; [reflexivity | exact Hrest]. }
    rewrite transform_items_cons, Hb.
    destruct (IH (acc ++ [VDict (clean doc)]) w1) as (added & w' & Hrun & Hall).
    exists (VDict (clean doc) :: added), w'. rewrite Hrun, <- app_assoc.
    split; [reflexivity|]. constructor; assumption.
Qed.

(** X13. A batch of pipeline records (accepted by [validate_ioc], with
    timestamps [parse_datetime] gets through) is transformed one to one
    and in order: the i-th document has the i-th record's [ioc_value] as
    indicator, and its validated confidence unchanged, or 50 when it had
    none. *)
Theorem transform_data_pipeline_batch (raw : list value) (w : world W) :
  Forall (pipeline_record strptime) raw ->
  exists out w',
    transform_data strptime utcnow raw w = (Ok out, w') /\
    Forall2 document_for raw out.
Proof.
  intros H. destruct (transform_items_pipeline raw [] w H)
    as (added & w' & Hrun & Hall).
  exists added, w'. split; [exact Hrun | exact Hall].
Qed.

(** The store and the call log are left alone by the mapping of one
    record, and the clock is read once, as the last step: not at all when
    the mapping raises. *)
Lemma build_document_resources (item : value) (w : world W) :
  let run := build_document strptime utcnow item w in
  store (snd run) = store w /\ calls (snd run) = calls w /\
  ticks (snd run) =
  (ticks w + match fst run with Ok _ => 1 | Raise _ => 0 end)%nat.
Proof.
  cbv zeta. unfold build_document, bind, lift, get, get_default, getitem.
  destruct item as [| | | | | |d|]; cbn [fst snd];
    try (repeat split; lia).
  destruct (lookup (u "ioc_value") d); cbn [fst snd];
    [|repeat split; lia].
  destruct (lookup (u "ioc_type") d); cbn [fst snd]; [|repeat split; lia].
  destruct (lookup (u "malware") d); cbn [fst snd]; [|repeat split; lia].
  match goal with
  | |- context [parse_datetime strptime ?v w] =>
      destruct (parse_datetime_world strptime v w) as (l1 & H1);
      destruct (parse_datetime strptime v w) as [[fs|e] w1]
  end; cbn [fst snd] in *; subst w1; cbn [store calls ticks];
    [|repeat split; lia].
  match goal with
  | |- context [parse_datetime strptime ?v ?w1] =>
      destruct (parse_datetime_world strptime v w1) as (l2 & H2);
      destruct (parse_datetime strptime v w1) as [[ls|e] w2]
  end; cbn [fst snd store calls ticks stdout] in *; subst w2;
    cbn [store calls ticks]; [|repeat split; lia].
  destruct (max_int _ 0) as [raised|e]; cbn [fst snd store calls ticks];
    [|repeat split; lia].
  destruct (min_int raised 100) as [cl|e]; cbn; repeat split; lia.
Qed.

Lemma transform_items_resources (raw acc : list value) (w : world W) :
  let run := transform_items strptime utcnow raw acc w in
  store (snd run) = store w /\ calls (snd run) = calls w /\
  forall out,
    fst run = Ok out ->
    (length out + ticks w = length acc + ticks (snd run))%nat.
Proof.
  cbv zeta. revert acc w. induction raw as [|item rest IH]; intros acc w.
  - cbn. repeat split. intros out [= <-]. reflexivity.
  - rewrite transform_items_cons.
    pose proof (build_document_resources item w) as (Hs & Hc & Ht).
    destruct (build_document strptime utcnow item w) as [[doc|e] w1];
      cbn [fst snd] in *.
    + destruct (IH (acc ++ [VDict (clean doc)]) w1) as (Hs' & Hc' & Ht').
      split; [congruence|]. split; [congruence|].
      intros out Hout. specialize (Ht' out Hout).
      rewrite length_app in Ht'. cbn in Ht'. lia.
    + destruct (get item (u "id")) as [id|e']; cbn [fst snd];
        [destruct (printable (TransformationFailed id e))|].
      * destruct (IH acc (after_print (TransformationFailed id e) w1))
          as (Hs' & Hc' & Ht').
        cbn [after_print store calls ticks] in *.
        split; [congruence|]. split; [congruence|].
        intros out Hout. specialize (Ht' out Hout). lia.
      * split; [exact Hs|]. split; [exact Hc|]. discriminate.
      * split; [exact Hs|]. split; [exact Hc|]. discriminate.
Qed.

Lemma transform_items_bound (raw acc out : list value) (w w' : world W) :
  transform_items strptime utcnow raw acc w = (Ok out, w') ->
  (length out <= length acc + length raw)%nat.
Proof.
  revert acc w. induction raw as [|item rest IH]; intros acc w.
  - cbn. intros [= <- _]. lia.
  - rewrite transform_items_cons.
    destruct (build_document strptime utcnow item w) as [[doc|e] w1].
    + intros H. apply IH in H. rewrite length_app in H. cbn in *. lia.
    + destruct (get item (u "id")) as [id|e']; [|discriminate].
      destruct (printable (TransformationFailed id e)); [|discriminate].
      intros H. apply IH in H. cbn. lia.
Qed.

(** X14. [transform_data] makes no store call, and reads the clock once
    per document it produces: a skipped record costs no reading. *)
Theorem transform_data_resources (raw : list value) (w : world W) :
  store (snd (transform_data strptime utcnow raw w)) = store w /\
  calls (snd (transform_data strptime utcnow raw w)) = calls w /\
  forall out,
    fst (transform_data strptime utcnow raw w) = Ok out ->
    ticks (snd (transform_data strptime utcnow raw w)) =
    (ticks w + length out)%nat /\
    (length out <= length raw)%nat.
Proof.
  unfold transform_data.
  pose proof (transform_items_resources raw [] w) as (Hs & Hc & Ht).
  split; [exact Hs|]. split; [exact Hc|]. intros out Hout.
  split; [specialize (Ht out Hout); cbn in Ht; lia|].
  destruct (transform_items strptime utcnow raw [] w) as [r w'] eqn:Hrun.
  cbn in Hout. subst r.
  apply (transform_items_bound raw [] out w w') in Hrun. cbn in Hrun. lia.
Qed.

(** X15. A record whose [first_seen_utc] or [last_seen_utc] is truthy and
    not a text (a number, say) yields no document: [strptime] raises a
    [TypeError], which [parse_datetime] does not catch, and the loop,
    when the record's [id] can be printed, prints the transformation
    failure and goes on. *)
Theorem transform_items_non_text_timestamp (d : dict) (v : value)
    (rest acc : list value) (w : world W) :
  lookup (u "ioc_value") d <> None ->
  lookup (u "ioc_type") d <> None ->
  lookup (u "malware") d <> None ->
  lookup (u "first_seen_utc") d = Some v \/
  (readable strptime (lookup (u "first_seen_utc") d) /\
   lookup (u "last_seen_utc") d = Some v) ->
  truthy v = true ->
  isinstance_str v = false ->
  printable_value (or_default (lookup (u "id") d) VNone) = true ->
  exists printed,
    transform_items strptime utcnow (VDict d :: rest) acc w =
    transform_items strptime utcnow rest acc
      (mk_world
         (stdout w ++ printed ++
          [TransformationFailed (or_default (lookup (u "id") d) VNone)
             TypeError])
         (ticks w) (store w) (calls w)).
Proof.
  intros Hi Ht Hm Hts Hv Hs Hid. rewrite transform_items_cons.
  assert (Hb : exists printed,
             build_document strptime utcnow (VDict d) w =
             (Raise TypeError,
              mk_world (stdout w ++ printed) (ticks w) (store w) (calls w))).
  { unfold build_document, get, get_default, getitem.
    destruct (lookup (u "ioc_value") d) as [iv|]; [|congruence].
    destruct (lookup (u "ioc_type") d) as [it|]; [|congruence].
    destruct (lookup (u "malware") d) as [ml|]; [|congruence].
    unfold bind at 1, lift at 1. unfold bind at 1, lift at 1.
    unfold bind at 1, lift at 1. unfold bind at 1, lift at 1.
    unfold bind at 1, lift at 1. unfold bind at 1, lift at 1.
    unfold bind at 1, lift at 1. unfold bind at 1.
    destruct Hts as [Hf|[Hf Hl]].
    - rewrite Hf. unfold or_default.
      rewrite (parse_datetime_not_text strptime v w Hv Hs).
      exists []. rewrite world_eta. reflexivity.
    - destruct (parse_datetime_readable strptime _ w Hf)
        as (fs & lines & Hp & _).
      unfold or_default in Hp |- *. rewrite Hp.
      unfold bind at 1, lift at 1. unfold bind at 1.
      rewrite Hl, (parse_datetime_not_text strptime v _ Hv Hs).
      exists lines. reflexivity. }
  destruct Hb as (printed & Hb). exists printed. rewrite Hb, get_id.
  cbn [printable printable_exn]. rewrite Hid.
  unfold after_print. cbn. rewrite <- app_assoc. reflexivity.
Qed.
End TransformationRuns.

(** *** Loading *)

Lemma build_operations_outcome (docs : list value) :
  match build_operations docs with
  | Ok ops => Forall2 upsert_of docs ops
  | Raise e => Exists (fun doc => getitem doc (u "indicator") = Raise e) docs
  end.
Proof.
  induction docs as [|doc rest IH]; cbn [build_operations]; [constructor|].
  destruct (getitem doc (u "indicator")) as [i|e] eqn:Hi; cbn [rbind].
  - destruct (build_operations rest) as [ops|e]; cbn [rbind].
    + constructor; [exists i; tauto | exact IH].
    + constructor 2. exact IH.
  - constructor 1. exact Hi.
Qed.


Lemma bulk_writes_app (a b : list call) :
  bulk_writes (a ++ b) = bulk_writes a ++ bulk_writes b.
Proof. apply flat_map_app. Qed.

Lemma bulk_writes_index_calls (ic : list call) :
  forallb is_index_call ic = true -> bulk_writes ic = [].
Proof.
  induction ic as [|c ic IH]; [reflexivity|]. cbn [forallb].
  rewrite andb_true_iff. intros [Hc Hic].
  destruct c; try discriminate; cbn; apply IH, Hic.
Qed.

Section LoadingRuns.

Context {W : Type}.
Variable driver : Driver W.

(** The index setup prints nothing, reads no clock and makes index calls
    only. *)
Lemma ensure_indexes_trace (ixs : list (str * list (str * Z)))
    (w : world W) :
  exists ic,
    forallb is_index_call ic = true /\
    calls (snd (ensure_indexes driver ixs w)) = calls w ++ ic /\
    stdout (snd (ensure_indexes driver ixs w)) = stdout w /\
    ticks (snd (ensure_indexes driver ixs w)) = ticks w.
Proof.
  revert w. induction ixs as [|[name fields] rest IH]; intros w.
  - exists []. cbn. rewrite app_nil_r. tauto.
  - destruct (ensure_indexes driver ((name, fields) :: rest) w) as [r w']
      eqn:Hrun.
    cbn [ensure_indexes] in Hrun. unfold bind at 1, driver_call at 1 in Hrun.
    destruct (index_information driver (store w)) as [[info|e] s1].
    2:{ injection Hrun as <- <-. exists [CallIndexInformation].
        cbn. tauto. }
    unfold bind at 1 in Hrun.
    destruct (negb (existsb (str_eqb name) info)).
    + unfold driver_call at 1 in Hrun.
      cbn [store stdout ticks calls] in Hrun.
      destruct (create_index driver fields name s1) as [[[]|e] s2].
      2:{ injection Hrun as <- <-.
          exists [CallIndexInformation; CallCreateIndex name]. cbn.
          rewrite <- app_assoc. tauto. }
      match type of Hrun with
      | ensure_indexes driver rest ?w1 = _ =>
          destruct (IH w1) as (ic & Hic & Hc & Ho & Ht)
      end.
      rewrite Hrun in Hc, Ho, Ht. cbn in Hc, Ho, Ht.
      exists (CallIndexInformation :: CallCreateIndex name :: ic).
      cbn [snd]. rewrite Hc, Ho, Ht, <- !app_assoc. cbn. tauto.
    + unfold ret at 1 in Hrun.
      match type of Hrun with
      | ensure_indexes driver rest ?w1 = _ =>
          destruct (IH w1) as (ic & Hic & Hc & Ho & Ht)
      end.
      rewrite Hrun in Hc, Ho, Ht. cbn in Hc, Ho, Ht.
      exists (CallIndexInformation :: ic).
      cbn [snd]. rewrite Hc, Ho, Ht, <- !app_assoc. cbn. tauto.
Qed.

Variable Config : config.

(** The loading sequence, call by call: on return, the calls made and the
    lines printed; on an exception, that nothing but the batch's own
    operations has been written. *)
Lemma load_with_client_trace (docs : list value) (w : world W) :
  exists made,
    calls (snd (load_with_client driver Config docs w)) = calls w ++ made /\
    match fst (load_with_client driver Config docs w) with
    | Ok b =>
        b = true /\
        exists ops res actual ic,
          build_operations docs = Ok ops /\
          forallb is_index_call ic = true /\
          made =
          [CallGetDatabase; CallGetCollection; CallCountDocuments] ++ ic ++
          [CallBulkWrite ops; CallCountDocuments] /\
          stdout (snd (load_with_client driver Config docs w)) =
          stdout w ++
          [ProcessedRecords (length ops) (upserted_count res)
             (modified_count res);
           MongoVerification actual] /\
          exists initial s0 s1,
            fst (count_documents driver s0) = Ok initial /\
            fst (bulk_write driver ops s1) = Ok res /\
            fst (count_documents driver (snd (bulk_write driver ops s1))) =
            Ok actual /\
            initial + upserted_count res <= actual
    | Raise e =>
        stdout (snd (load_with_client driver Config docs w)) = stdout w \/
        exists res,
          stdout (snd (load_with_client driver Config docs w)) =
          stdout w ++
          [ProcessedRecords (length docs) (upserted_count res)
             (modified_count res)]
    end /\
    (bulk_writes made = [] \/
     exists ops, build_operations docs = Ok ops /\ bulk_writes made = [ops]).
Proof.
  destruct (load_with_client driver Config docs w) as [r w'] eqn:Hrun.
  cbn [fst snd]. unfold load_with_client in Hrun.
  unfold bind at 1, driver_call at 1 in Hrun.
  destruct (get_database driver (MONGO_DB Config) (store w)) as [[[]|e] s1];
    cbn [fst snd stdout ticks store calls] in Hrun.
  2:{ injection Hrun as <- <-. exists [CallGetDatabase]. cbn. tauto. }
  unfold bind at 1, driver_call at 1 in Hrun.
  cbn [fst snd stdout ticks store calls] in Hrun.
  destruct (get_collection driver (MONGO_COLLECTION Config) s1)
    as [[[]|e] s2].
  2:{ injection Hrun as <- <-. exists [CallGetDatabase; CallGetCollection].
      cbn. rewrite <- app_assoc. tauto. }
  unfold bind at 1, driver_call at 1 in Hrun.
  cbn [fst snd stdout ticks store calls] in Hrun.
  destruct (count_documents driver s2) as [[initial_count|e] s3] eqn:Hfirst.
  2:{ injection Hrun as <- <-.
      exists [CallGetDatabase; CallGetCollection; CallCountDocuments].
      cbn. rewrite <- !app_assoc. tauto. }
  unfold bind at 1 in Hrun.
  match type of Hrun with
  | context [ensure_indexes driver indexes ?w1] =>
      destruct (ensure_indexes_trace indexes w1) as (ic & Hic & Hc & Ho & _);
      destruct (ensure_indexes driver indexes w1) as [[[]|e] w4]
  end; cbn [fst snd stdout ticks store calls] in *.
  2:{ injection Hrun as <- <-.
      exists ([CallGetDatabase; CallGetCollection; CallCountDocuments] ++ ic).
      rewrite Hc, Ho, <- !app_assoc. cbn. split; [reflexivity|].
      split; [tauto|]. left. apply bulk_writes_index_calls, Hic. }
  unfold bind at 1, lift at 1 in Hrun.
  pose proof (build_operations_outcome docs) as Hops.
  destruct (build_operations docs) as [ops|e] eqn:Hbuild.
  2:{ injection Hrun as <- <-.
      exists ([CallGetDatabase; CallGetCollection; CallCountDocuments] ++ ic).
      rewrite Hc, Ho, <- !app_assoc. cbn.
      split; [reflexivity|]. split; [tauto|]. left.
      apply bulk_writes_index_calls, Hic. }
  assert (Hlen : length ops = length docs).
  { symmetry. eapply Forall2_length, Hops. }
  assert (Hbulk : bulk_writes
            ([CallGetDatabase; CallGetCollection; CallCountDocuments] ++ ic ++
             [CallBulkWrite ops]) = [ops]).
  { rewrite !bulk_writes_app, (bulk_writes_index_calls ic Hic).
    reflexivity. }
  assert (Hb2 : bulk_writes
            ([CallGetDatabase; CallGetCollection; CallCountDocuments] ++ ic ++
             [CallBulkWrite ops; CallCountDocuments]) = [ops]).
  { rewrite !bulk_writes_app, (bulk_writes_index_calls ic Hic).
    reflexivity. }
  unfold bind at 1, driver_call at 1 in Hrun.
  destruct (bulk_write driver ops (store w4)) as [[res|e] s5] eqn:Hwrite.
  2:{ injection Hrun as <- <-.
      exists ([CallGetDatabase; CallGetCollection; CallCountDocuments] ++ ic ++
              [CallBulkWrite ops]).
      cbn [snd calls stdout]. rewrite Hc, Ho, <- !app_assoc. cbn.
      split; [reflexivity|].
      split; [tauto|]. right. exists ops. split; [reflexivity|].
      exact Hbulk. }
  rewrite bind_print in Hrun. unfold verify_mongodb_insert in Hrun.
  unfold bind at 1 in Hrun. unfold bind at 1, driver_call at 1 in Hrun.
  cbn [after_print fst snd stdout ticks store calls] in Hrun.
  destruct (count_documents driver s5) as [[actual|e] s6] eqn:Hsecond.
  2:{ injection Hrun as <- <-.
      exists ([CallGetDatabase; CallGetCollection; CallCountDocuments] ++ ic ++
              [CallBulkWrite ops; CallCountDocuments]).
      cbn [snd calls stdout]. rewrite Hc, Ho, <- !app_assoc. cbn.
      split; [reflexivity|].
      split; [right; exists res; rewrite <- Hlen; reflexivity|].
      right. exists ops. split; [reflexivity | exact Hb2]. }
  exists ([CallGetDatabase; CallGetCollection; CallCountDocuments] ++ ic ++
          [CallBulkWrite ops; CallCountDocuments]).
  destruct (actual <? initial_count + upserted_count res) eqn:Hlt;
    unfold raise, print, ret, after_print in Hrun;
    cbn [fst snd stdout ticks store calls] in Hrun;
    injection Hrun as <- <-;
    cbn [snd calls stdout]; rewrite Hc, Ho, <- !app_assoc; cbn.
  - split; [reflexivity|].
    split; [right; exists res; rewrite <- Hlen; reflexivity|].
    right. exists ops. split; [reflexivity | exact Hb2].
  - split; [reflexivity|]. split.
    + split; [reflexivity|]. exists ops, res, actual, ic.
      split; [reflexivity|]. split; [exact Hic|]. split; [reflexivity|].
      split; [reflexivity|]. exists initial_count, s2, (store w4).
      rewrite Hfirst, Hwrite. cbn [fst snd]. rewrite Hsecond.
      apply Z.ltb_ge in Hlt.
      split; [reflexivity|]. split; [reflexivity|].
      split; [reflexivity | exact Hlt].
    + right. exists ops. split; [reflexivity | exact Hb2].
Qed.

(** What [load_data] does after the emptiness test, by the outcome of
    [MongoClient(...)], of the loading sequence and of [client.close()]. *)
Lemma load_data_cases (doc : value) (docs : list value) (w : world W) :
  let w1 :=
    mk_world (stdout w) (ticks w)
      (snd (MongoClient driver (MONGO_URI Config) (store w)))
      (calls w ++ [CallMongoClient]) in
  let run := load_with_client driver Config (doc :: docs) w1 in
  let w2 :=
    match fst run with
    | Ok _ => snd run
    | Raise e => after_print (LoadingFailed e) (snd run)
    end in
  let w3 :=
    mk_world (stdout w2) (ticks w2) (snd (close driver (store w2)))
      (calls w2 ++ [CallClose]) in
  load_data driver Config (doc :: docs) w =
  match fst (MongoClient driver (MONGO_URI Config) (store w)) with
  | Ok _ =>
      match fst (close driver (store w2)) with
      | Ok _ =>
          (match fst run with Ok b => Ok b | Raise _ => Ok false end, w3)
      | Raise e => (Raise e, w3)
      end
  | Raise e =>
      (Raise (UnboundLocalError (u "client")),
       after_print (LoadingFailed e) w1)
  end.
Proof.
  cbv zeta. unfold load_data. cbn [truthy negb].
  unfold bind at 1, attempt, driver_call at 1.
  destruct (MongoClient driver (MONGO_URI Config) (store w)) as [[[]|e0] s1];
    cbn [fst snd]; [|reflexivity].
  unfold try_finally, try_except, Exception, loading_failed.
  destruct (load_with_client driver Config (doc :: docs) _) as [[b|e] w2];
    cbn [fst snd].
  - unfold driver_call. destruct (close driver (store w2)) as [[[]|e'] s3];
      reflexivity.
  - rewrite bind_print. cbn [printable]. unfold ret, driver_call.
    destruct (close driver (store (after_print (LoadingFailed e) w2)))
      as [[[]|e'] s3]; reflexivity.
Qed.

(** X16. Whatever its outcome, [load_data] hands the store at most one bulk
    write, and that one carries exactly one upsert per document of the
    batch, keyed by the document's [indicator]; a batch with a document
    that has no [indicator] is not written at all, and is not reported as
    loaded. *)
Theorem load_data_writes_only_the_batch (docs : list value) (w : world W) :
  exists made,
    calls (snd (load_data driver Config docs w)) = calls w ++ made /\
    (bulk_writes made = [] \/
     exists ops, Forall2 upsert_of docs ops /\ bulk_writes made = [ops]) /\
    (Exists (fun doc => forall i, getitem doc (u "indicator") <> Ok i) docs ->
     bulk_writes made = [] /\
     fst (load_data driver Config docs w) <> Ok true).
Proof.
  destruct docs as [|doc docs].
  { exists []. cbn. rewrite app_nil_r. split; [reflexivity|].
    split; [tauto|]. intros _. split; [reflexivity | discriminate]. }
  assert (Hbad :
    Exists (fun doc => forall i, getitem doc (u "indicator") <> Ok i)
      (doc :: docs) ->
    forall ops, build_operations (doc :: docs) <> Ok ops).
  { intros Hex ops Hops.
    pose proof (build_operations_outcome (doc :: docs)) as Hall.
    rewrite Hops in Hall. rewrite Exists_exists in Hex.
    destruct Hex as (bad & Hin & Hn). clear Hops.
    induction Hall as [|x op xs ops (i & Hi & _) _ IH]; [destruct Hin|].
    destruct Hin as [->|Hin]; [exact (Hn i Hi) | exact (IH Hin)]. }
  rewrite load_data_cases.
  destruct (MongoClient driver (MONGO_URI Config) (store w)) as [[[]|e0] s1];
    cbn [fst snd].
  2:{ exists [CallMongoClient]. cbn. split; [reflexivity|].
      split; [tauto|]. intros _. split; [reflexivity | discriminate]. }
  match goal with
  | |- context [load_with_client driver Config (doc :: docs) ?w1] =>
      destruct (load_with_client_trace (doc :: docs) w1)
        as (made & Hc & Hout & Hb);
      destruct (load_with_client driver Config (doc :: docs) w1)
        as [r w2]
  end.
  cbn [fst snd calls] in *.
  exists (CallMongoClient :: made ++ [CallClose]).
  assert (Hw : bulk_writes (CallMongoClient :: made ++ [CallClose]) =
               bulk_writes made).
  { change (CallMongoClient :: made ++ [CallClose])
      with ([CallMongoClient] ++ made ++ [CallClose]).
    rewrite !bulk_writes_app. cbn. apply app_nil_r. }
  rewrite Hw. split; [|split].
  - destruct r as [b|e]; cbn [fst snd calls];
      match goal with
      | |- context [close driver ?s] =>
          destruct (close driver s) as [[[]|e'] s3]
      end; cbn [fst snd calls after_print]; rewrite Hc, <- !app_assoc;
      reflexivity.
  - destruct Hb as [Hb|(ops & Hops & Hb)]; [left; exact Hb|].
    right. exists ops. split; [|exact Hb].
    pose proof (build_operations_outcome (doc :: docs)) as Hall.
    rewrite Hops in Hall. exact Hall.
  - intros Hex. specialize (Hbad Hex). split.
    + destruct Hb as [Hb|(ops & Hops & _)]; [exact Hb|].
      exfalso. exact (Hbad ops Hops).
    + destruct r as [b|e]; cbn [fst].
      * destruct Hout as (_ & ops & _ & _ & _ & Hops & _).
        exfalso. exact (Hbad ops Hops).
      * match goal with
        | |- context [close driver ?s] =>
            destruct (close driver s) as [[[]|e'] s3]
        end; cbn [fst]; discriminate.
Qed.

(** X17. [load_data] returns true only after the whole protocol has run:
    client, database, collection, first count, the index calls, one bulk
    write of the batch's upserts, second count and [close], in that order;
    it has then printed the processed line and the verification line, and
    nothing else. *)
Theorem load_data_success_protocol (docs : list value) (w w' : world W) :
  load_data driver Config docs w = (Ok true, w') ->
  exists ops res actual ic,
    Forall2 upsert_of docs ops /\
    forallb is_index_call ic = true /\
    calls w' =
    calls w ++
    [CallMongoClient; CallGetDatabase; CallGetCollection;
     CallCountDocuments] ++ ic ++
    [CallBulkWrite ops; CallCountDocuments; CallClose] /\
    stdout w' =
    stdout w ++
    [ProcessedRecords (length docs) (upserted_count res)
       (modified_count res);
     MongoVerification actual].
Proof.
  destruct docs as [|doc docs]; [discriminate|].
  rewrite load_data_cases.
  destruct (MongoClient driver (MONGO_URI Config) (store w)) as [[[]|e0] s1];
    cbn [fst snd]; [|discriminate].
  match goal with
  | |- context [load_with_client driver Config (doc :: docs) ?w1] =>
      destruct (load_with_client_trace (doc :: docs) w1)
        as (made & Hc & Hout & _);
      destruct (load_with_client driver Config (doc :: docs) w1)
        as [r w2]
  end.
  cbn [fst snd calls stdout] in *.
  destruct r as [b|e]; cbn [fst snd].
  2:{ match goal with
      | |- context [close driver ?s] =>
          destruct (close driver s) as [[[]|e'] s3]
      end; discriminate. }
  destruct Hout
    as (-> & ops & res & actual & ic & Hops & Hic & -> & Ho & _).
  destruct (close driver (store w2)) as [[[]|e'] s3]; cbn [fst snd];
    [|discriminate].
  intros [= <-]. exists ops, res, actual, ic.
  pose proof (build_operations_outcome (doc :: docs)) as Hall.
  rewrite Hops in Hall. split; [exact Hall|]. split; [exact Hic|].
  cbn [calls stdout]. rewrite Hc, Ho, (Forall2_length Hall).
  repeat rewrite <- app_assoc. cbn. tauto.
Qed.

(** X18. [load_data] raises in two ways only: with the [UnboundLocalError]
    of the [finally] clause when [MongoClient(...)] raised, or with what
    [client.close()] raised; and a false result is always explained by the
    last line printed. *)
Theorem load_data_failures (docs : list value) (w : world W) :
  (forall e,
     fst (load_data driver Config docs w) = Raise e ->
     docs <> [] /\
     ((e = UnboundLocalError (u "client") /\
       exists e0,
         fst (MongoClient driver (MONGO_URI Config) (store w)) = Raise e0) \/
      exists s, fst (close driver s) = Raise e)) /\
  (fst (load_data driver Config docs w) = Ok false ->
   exists printed l,
     stdout (snd (load_data driver Config docs w)) =
     stdout w ++ printed ++ [l] /\
     (l = NoDataToLoad \/ exists e, l = LoadingFailed e)).
Proof.
  destruct docs as [|doc docs].
  { cbn. split; [discriminate|]. intros _. exists [], NoDataToLoad.
    cbn. tauto. }
  rewrite load_data_cases.
  destruct (MongoClient driver (MONGO_URI Config) (store w)) as [[[]|e0] s1];
    cbn [fst snd].
  2:{ split; [|discriminate]. intros e [= <-]. split; [discriminate|].
      left. split; [reflexivity|]. exists e0. reflexivity. }
  match goal with
  | |- context [load_with_client driver Config (doc :: docs) ?w1] =>
      destruct (load_with_client_trace (doc :: docs) w1)
        as (made & _ & Hout & _);
      destruct (load_with_client driver Config (doc :: docs) w1)
        as [r w2]
  end.
  cbn [fst snd calls stdout] in *.
  match goal with
  | |- context [close driver ?s] =>
      destruct (close driver s) as [[[]|e'] s3] eqn:Hclose
  end; cbn [fst snd].
  - destruct r as [b|e]; cbn [fst snd stdout]; (split; [discriminate|]).
    + destruct Hout as (-> & _). discriminate.
    + intros _. cbn [after_print stdout].
      destruct Hout as [->|(res & ->)].
      * exists [], (LoadingFailed e). cbn [app].
        split; [reflexivity|]. right. exists e. reflexivity.
      * eexists [_], (LoadingFailed e). rewrite <- app_assoc. cbn.
        split; [reflexivity|]. right. exists e. reflexivity.
  - split; [|discriminate]. intros e [= <-]. split; [discriminate|].
    right. eexists. rewrite Hclose. reflexivity.
Qed.

(** The loading sequence when it returns: the first count, the index
    setup, the bulk write and the second count of this run, each on the
    store the step before has left. *)
Lemma load_with_client_verified (docs : list value) (b : bool)
    (w w' : world W) :
  load_with_client driver Config docs w = (Ok b, w') ->
  exists ops res initial actual w0 w1 s2 s3,
    build_operations docs = Ok ops /\
    (driver_call CallGetDatabase (get_database driver (MONGO_DB Config)) ;;
     driver_call CallGetCollection
       (get_collection driver (MONGO_COLLECTION Config)) ;;
     driver_call CallCountDocuments (count_documents driver))%py w =
    (Ok initial, w0) /\
    ensure_indexes driver indexes w0 = (Ok tt, w1) /\
    bulk_write driver ops (store w1) = (Ok res, s2) /\
    count_documents driver s2 = (Ok actual, s3) /\
    initial + upserted_count res <= actual /\
    b = true /\ store w' = s3 /\
    stdout w' =
    stdout w1 ++
    [ProcessedRecords (length ops) (upserted_count res) (modified_count res);
     MongoVerification actual].
Proof.
  intros Hrun. unfold load_with_client in Hrun.
  unfold bind at 1, driver_call at 1 in Hrun.
  destruct (get_database driver (MONGO_DB Config) (store w)) as [[[]|e] s1]
    eqn:Hdb; [|discriminate Hrun].
  unfold bind at 1, driver_call at 1 in Hrun.
  cbn [fst snd stdout ticks store calls] in Hrun.
  destruct (get_collection driver (MONGO_COLLECTION Config) s1)
    as [[[]|e] s2] eqn:Hcoll; [|discriminate Hrun].
  unfold bind at 1, driver_call at 1 in Hrun.
  cbn [fst snd stdout ticks store calls] in Hrun.
  destruct (count_documents driver s2) as [[initial|e] s3] eqn:Hfirst;
    [|discriminate Hrun].
  unfold bind at 1 in Hrun.
  match type of Hrun with
  | context [ensure_indexes driver indexes ?w1] =>
      remember w1 as w0 eqn:Hw0;
      destruct (ensure_indexes driver indexes w0) as [[[]|e] w4] eqn:Hidx
  end; [|discriminate Hrun].
  unfold bind at 1, lift at 1 in Hrun.
  destruct (build_operations docs) as [ops|e] eqn:Hbuild;
    [|discriminate Hrun].
  unfold bind at 1, driver_call at 1 in Hrun.
  destruct (bulk_write driver ops (store w4)) as [[res|e] s5] eqn:Hwrite;
    [|discriminate Hrun].
  rewrite bind_print in Hrun. cbn [printable] in Hrun.
  unfold verify_mongodb_insert in Hrun.
  unfold bind at 1 in Hrun. unfold bind at 1, driver_call at 1 in Hrun.
  cbn [after_print fst snd stdout ticks store calls] in Hrun.
  destruct (count_documents driver s5) as [[actual|e] s6] eqn:Hsecond;
    [|discriminate Hrun].
  destruct (actual <? initial + upserted_count res) eqn:Hlt;
    unfold raise, print, ret, after_print in Hrun;
    cbn [printable fst snd stdout ticks store calls] in Hrun;
    [discriminate Hrun|].
  injection Hrun as <- <-. apply Z.ltb_ge in Hlt.
  exists ops, res, initial, actual, w0, w4, s5, s6.
  split; [reflexivity|]. split.
  { unfold bind, driver_call. rewrite Hdb. cbn [fst snd stdout ticks store calls].
    rewrite Hcoll. cbn [fst snd stdout ticks store calls]. rewrite Hfirst.
    rewrite Hw0. reflexivity. }
  split; [exact Hidx|]. split; [exact Hwrite|]. split; [exact Hsecond|].
  split; [exact Hlt|]. split; [reflexivity|]. split; [reflexivity|].
  cbn [stdout]. rewrite <- app_assoc. reflexivity.
Qed.

(** X19. [load_data] returns true only when the count check of this very
    run passed: the run's first four driver calls gave the count
    [initial], the index setup ran from there, the bulk write of the
    batch's upserts ran on the store the index setup left and reported
    [res], the count taken on the store the bulk write left gave [actual],
    with [initial + upserted_count res <= actual]; that count is printed,
    and the client is closed on the store the second count left. *)
Theorem load_data_success_verified (docs : list value) (w w' : world W) :
  load_data driver Config docs w = (Ok true, w') ->
  exists ops res initial actual w0 w1 s2 s3,
    Forall2 upsert_of docs ops /\
    count_before driver Config w = (Ok initial, w0) /\
    ensure_indexes driver indexes w0 = (Ok tt, w1) /\
    bulk_write driver ops (store w1) = (Ok res, s2) /\
    count_documents driver s2 = (Ok actual, s3) /\
    initial + upserted_count res <= actual /\
    store w' = snd (close driver s3) /\
    In (MongoVerification actual) (stdout w').
Proof.
  destruct docs as [|doc docs]; [discriminate|].
  rewrite load_data_cases.
  destruct (MongoClient driver (MONGO_URI Config) (store w)) as [[[]|e0] sc]
    eqn:Hclient; cbn [fst snd]; [|discriminate].
  match goal with
  | |- context [load_with_client driver Config (doc :: docs) ?w1] =>
      destruct (load_with_client driver Config (doc :: docs) w1)
        as [r w2] eqn:Hl
  end.
  cbn [fst snd calls stdout] in *.
  destruct r as [b|e]; cbn [fst snd].
  2:{ match goal with
      | |- context [close driver ?s] =>
          destruct (close driver s) as [[[]|e'] s3]
      end; discriminate. }
  apply load_with_client_verified in Hl
    as (ops & res & initial & actual & w0 & w1 & s2 & s3 & Hops & Hcount &
        Hidx & Hwrite & Hsecond & Hle & -> & Hs & Ho).
  destruct (close driver (store w2)) as [[[]|e'] s4] eqn:Hclose;
    cbn [fst snd]; [|discriminate].
  intros [= <-]. exists ops, res, initial, actual, w0, w1, s2, s3.
  pose proof (build_operations_outcome (doc :: docs)) as Hall.
  rewrite Hops in Hall. split; [exact Hall|]. split.
  { unfold count_before. unfold bind at 1, driver_call at 1.
    rewrite Hclient. exact Hcount. }
  split; [exact Hidx|]. split; [exact Hwrite|]. split; [exact Hsecond|].
  split; [exact Hle|]. cbn [store stdout]. rewrite <- Hs, Hclose.
  split; [reflexivity|]. rewrite Ho.
  apply in_or_app. right. right. left. reflexivity.
Qed.

End LoadingRuns.

(** *** Orchestration *)

Section PipelineRuns.

Context {W : Type}.

Lemma quiet_refl (w : world W) : quiet w w.
Proof. exists []. split; [symmetry; apply app_nil_r | intros []]. Qed.

Lemma quiet_trans (a b c : world W) : quiet a b -> quiet b c -> quiet a c.
Proof.
  intros (l & Hl & Hn) (l' & Hl' & Hn'). exists (l ++ l'). split.
  - rewrite Hl', Hl. symmetry. apply app_assoc.
  - intros H. apply in_app_or in H. destruct H; [apply Hn | apply Hn'];
      assumption.
Qed.

Lemma print_quiet (l : line) :
  l <> Completed -> keeps (W := W) quiet (print l).
Proof.
  intros Hl w. unfold quiet. rewrite print_world. cbn [stdout].
  exists (if printable l then [l] else []). split; [reflexivity|].
  destruct (printable l); [intros [H|[]]; exact (Hl H) | intros []].
Qed.

Lemma after_print_quiet (l : line) (w : world W) :
  l <> Completed -> quiet w (after_print l w).
Proof.
  intros Hl. exists [l]. split; [reflexivity|].
  intros [H|[]]. exact (Hl H).
Qed.

Lemma driver_call_quiet {A} (c : call) (op : W -> result A * W) :
  keeps quiet (driver_call c op).
Proof.
  intros w. unfold driver_call. destruct (op (store w)) as [r s'].
  exists []. split; [symmetry; apply app_nil_r | intros []].
Qed.

Lemma validate_items_quiet (items iocs : list value) :
  keeps (W := W) quiet (validate_items items iocs).
Proof.
  revert iocs. induction items as [|ioc rest IH]; intros iocs;
    cbn [validate_items].
  - apply (keeps_ret _ quiet_refl).
  - repeat keeps_step quiet_refl quiet_trans;
      first [apply print_quiet; discriminate | apply IH].
Qed.

Lemma collect_quiet (groups : dict) (iocs : list value) :
  keeps (W := W) quiet (collect groups iocs).
Proof.
  revert iocs. induction groups as [|[key items] rest IH]; intros iocs;
    cbn [collect].
  - apply (keeps_ret _ quiet_refl).
  - apply (keeps_bind _ quiet_trans); [|intros ?; apply IH].
    destruct items; first [ apply validate_items_quiet
                          | apply (keeps_ret _ quiet_refl) ].
Qed.

Variable requests_get : str -> list (str * str) -> Z -> result response.

Lemma extract_data_quiet : keeps (W := W) quiet (extract_data requests_get).
Proof.
  unfold extract_data.
  repeat keeps_step quiet_refl quiet_trans;
    first [apply print_quiet; discriminate | apply collect_quiet].
Qed.

Variable strptime : str -> option datetime.
Variable utcnow : nat -> datetime.

Lemma datetime_utcnow_quiet : keeps (W := W) quiet (datetime_utcnow utcnow).
Proof.
  intros w. exists []. cbn. split; [symmetry; apply app_nil_r | intros []].
Qed.

Lemma transform_items_quiet (raw acc : list value) :
  keeps (W := W) quiet (transform_items strptime utcnow raw acc).
Proof.
  revert acc. induction raw as [|item rest IH]; intros acc;
    cbn [transform_items].
  - apply (keeps_ret _ quiet_refl).
  - repeat keeps_step quiet_refl quiet_trans;
      first [ apply print_quiet; discriminate
            | apply datetime_utcnow_quiet
            | apply IH ].
Qed.

Variable driver : Driver W.

Lemma ensure_indexes_quiet (ixs : list (str * list (str * Z))) :
  keeps quiet (ensure_indexes driver ixs).
Proof.
  induction ixs as [|[name fields] rest IH]; cbn [ensure_indexes].
  - apply (keeps_ret _ quiet_refl).
  - repeat keeps_step quiet_refl quiet_trans;
      first [apply driver_call_quiet | exact IH].
Qed.

Variable Config : config.

Lemma load_data_quiet (docs : list value) :
  keeps quiet (load_data driver Config docs).
Proof.
  unfold load_data, load_with_client, verify_mongodb_insert, loading_failed.
  apply keeps_if.
  - repeat keeps_step quiet_refl quiet_trans. apply print_quiet. discriminate.
  - apply (keeps_bind _ quiet_trans);
      [apply keeps_attempt, driver_call_quiet|].
    intros [[]|e];
      repeat keeps_step quiet_refl quiet_trans;
      first [ apply driver_call_quiet
            | apply ensure_indexes_quiet
            | apply print_quiet; discriminate ].
Qed.

(** The two ways [run_etl] ends: with the banner after a world reached
    without it, or with false. *)
Lemma run_etl_ends (w : world W) :
  exists w0,
    quiet w w0 /\
    (run_etl driver Config strptime utcnow requests_get w =
     (Ok true,
      after_print (Rule false)
        (after_print Completed (after_print (Rule true) w0))) \/
     run_etl driver Config strptime utcnow requests_get w = (Ok false, w0)).
Proof.
  rewrite run_etl_unfold.
  assert (H0 : quiet w (at_extraction w)).
  { unfold at_extraction.
    repeat (eapply quiet_trans; [|apply after_print_quiet; discriminate]).
    apply quiet_refl. }
  pose proof (extract_data_quiet (at_extraction w)) as H1.
  destruct (extract_data requests_get (at_extraction w)) as [[raw|e] w1];
    cbn [snd] in H1.
  2:{ eexists. split; [|right; reflexivity].
      eapply quiet_trans; [|apply after_print_quiet; discriminate].
      eapply quiet_trans; eassumption. }
  destruct raw as [|r raw].
  { exists w1. split; [eapply quiet_trans; eassumption | right; reflexivity]. }
  assert (H2 : quiet (after_print Transforming w1)
                 (snd (transform_data strptime utcnow (r :: raw)
                         (after_print Transforming w1))))
    by apply transform_items_quiet.
  assert (H12 : quiet w (after_print Transforming w1)).
  { eapply quiet_trans; [|apply after_print_quiet; discriminate].
    eapply quiet_trans; eassumption. }
  destruct (transform_data strptime utcnow (r :: raw)
              (after_print Transforming w1)) as [[docs|e] w2];
    cbn [snd] in H2.
  2:{ eexists. split; [|right; reflexivity].
      eapply quiet_trans; [|apply after_print_quiet; discriminate].
      eapply quiet_trans; eassumption. }
  destruct docs as [|doc docs].
  { exists w2. split; [eapply quiet_trans; eassumption | right; reflexivity]. }
  pose proof (load_data_quiet (doc :: docs) (after_print Loading w2)) as H3.
  assert (H23 : quiet w (after_print Loading w2)).
  { eapply quiet_trans; [|apply after_print_quiet; discriminate].
    eapply quiet_trans; eassumption. }
  destruct (load_data driver Config (doc :: docs) (after_print Loading w2))
    as [[[]|e] w3]; cbn [snd] in H3.
  - exists w3. split; [eapply quiet_trans; eassumption | left; reflexivity].
  - exists w3. split; [eapply quiet_trans; eassumption | right; reflexivity].
  - eexists. split; [|right; reflexivity].
    eapply quiet_trans; [|apply after_print_quiet; discriminate].
    eapply quiet_trans; eassumption.
Qed.

(** X25. [run_etl] prints the success banner exactly when it returns true:
    no stage prints it, and a run that returns false ends without it. *)
Theorem run_etl_banner (w : world W) :
  exists printed,
    stdout (snd (run_etl driver Config strptime utcnow requests_get w)) =
    stdout w ++ printed /\
    (fst (run_etl driver Config strptime utcnow requests_get w) = Ok true <->
     In Completed printed) /\
    (fst (run_etl driver Config strptime utcnow requests_get w) = Ok true ->
     exists earlier,
       printed = earlier ++ [Rule true; Completed; Rule false]).
Proof.
  destruct (run_etl_ends w) as (w0 & (added & Ha & Hn) & [Hrun|Hrun]);
    rewrite Hrun; cbn [fst snd after_print stdout].
  - exists (added ++ [Rule true; Completed; Rule false]).
    rewrite Ha, <- !app_assoc. cbn [app]. split; [reflexivity|]. split.
    + split; [|reflexivity]. intros _. apply in_or_app. right. cbn. auto.
    + intros _. exists added. reflexivity.
  - exists added. split; [exact Ha|]. split.
    + split; [discriminate|]. intros H. exfalso. exact (Hn H).
    + discriminate.
Qed.

(** X26. Without documents to load, [run_etl] returns false and leaves the
    store alone: when the extraction returns nothing, or the transformation
    returns nothing or raises, no driver call is made. *)
Theorem run_etl_without_documents (w : world W) :
  fst (extract_data requests_get (at_extraction w)) = Ok [] \/
  (exists raw w1,
     extract_data requests_get (at_extraction w) = (Ok raw, w1) /\
     forall doc docs,
       fst (transform_data strptime utcnow raw (after_print Transforming w1))
       <> Ok (doc :: docs)) ->
  fst (run_etl driver Config strptime utcnow requests_get w) = Ok false /\
  store (snd (run_etl driver Config strptime utcnow requests_get w)) =
  store w /\
  calls (snd (run_etl driver Config strptime utcnow requests_get w)) =
  calls w.
Proof.
  intros H. rewrite run_etl_unfold.
  pose proof (extract_data_only_prints requests_get (at_extraction w))
    as (_ & Hs1 & Hc1).
  destruct (extract_data requests_get (at_extraction w)) as [[raw|e] w1];
    cbn [fst snd at_extraction after_print store calls] in *.
  2:{ destruct H as [H|(raw & w1' & H & _)]; discriminate. }
  destruct raw as [|r raw]; cbn [fst snd].
  { split; [reflexivity|]. split; assumption. }
  destruct H as [H|(raw' & w1' & [= <- <-] & H)]; [discriminate|].
  pose proof (transform_items_resources strptime utcnow (r :: raw) []
                (after_print Transforming w1)) as (Hs2 & Hc2 & _).
  unfold transform_data in *.
  destruct (transform_items strptime utcnow (r :: raw) []
              (after_print Transforming w1)) as [[docs|e] w2];
    cbn [fst snd after_print store calls] in *.
  - destruct docs as [|doc docs]; [|exfalso; exact (H doc docs eq_refl)].
    cbn [fst snd]. split; [reflexivity|]. split; congruence.
  - split; [reflexivity|]. split; congruence.
Qed.

End PipelineRuns.

(** *** The further properties on concrete runs *)

Lemma validate_ioc_rejects_non_mapping_witness :
  exists e,
    validate_ioc (VList [VStr (u "ioc_value")]) = Raise e /\
    (e = TypeError \/ e = AttributeError).
Proof.
  apply (validate_ioc_rejects_non_mapping (VList [VStr (u "ioc_value")])).
  intros [d H]. discriminate.
Defined.

Lemma extract_data_sound_witness :
  exists iocs w',
    extract_data (feed_of [valid_record; confidence_150_record])
      (fresh_world tt) = (Ok iocs, w') /\
    Forall (fun r => is_mapping r /\ validate_ioc r = Ok tt) iocs.
Proof.
  eexists _, _. split; [vm_compute; reflexivity|].
  eapply (extract_data_sound
            (feed_of [valid_record; confidence_150_record]) (fresh_world tt)).
  vm_compute. reflexivity.
Defined.

Lemma extract_data_orderly_run_witness :
  let groups :=
    [(u "2024-01-01", VList [valid_record; confidence_150_record])] in
  extract_data (feed_of [valid_record; confidence_150_record])
    (fresh_world tt) =
  (Ok (filter accepted (records_of groups)),
   mk_world
     ([] ++
      map SkippingInvalidIOC (rejections (records_of groups)) ++
      [ExtractedValidIOCs (length (filter accepted (records_of groups)))])
     0 tt []).
Proof.
  apply (extract_data_orderly_run
           (feed_of [valid_record; confidence_150_record])
           (mk_response 200 []
              (Ok (VDict
                     [(u "2024-01-01",
                       VList [valid_record; confidence_150_record])])))
           [(u "2024-01-01", VList [valid_record; confidence_150_record])]
           (fresh_world tt)).
  - reflexivity.
  - vm_compute. reflexivity.
  - constructor; [vm_compute; exact I|].
    constructor; [vm_compute; reflexivity|]. constructor.
  - vm_compute. constructor; [reflexivity | constructor].
Defined.

Lemma extract_data_disorderly_record_witness :
  exists printed e,
    extract_data (feed_of [valid_record; text_confidence_record])
      (fresh_world tt) =
    (Ok [],
     mk_world ([] ++ printed ++ [ExtractionFailed e]) 0 tt []) /\
    ends_loop
      (records_of
         [(u "2024-01-01", VList [valid_record; text_confidence_record])]) e.
Proof.
  apply (extract_data_disorderly_record
           (feed_of [valid_record; text_confidence_record])
           (mk_response 200 []
              (Ok (VDict
                     [(u "2024-01-01",
                       VList [valid_record; text_confidence_record])])))
           [(u "2024-01-01", VList [valid_record; text_confidence_record])]
           (fresh_world tt)).
  - reflexivity.
  - vm_compute. reflexivity.
  - change (Exists (fun r => ~ orderly r)
              [valid_record; text_confidence_record]).
    apply Exists_cons_tl, Exists_cons_hd. vm_compute. discriminate.
Defined.

Lemma extract_data_unprintable_rejection_witness :
  exists printed,
    extract_data (feed_of [surrogate_id_record; valid_record])
      (fresh_world tt) =
    (Ok [],
     mk_world ([] ++ printed ++ [ExtractionFailed UnicodeEncodeError])
       0 tt []).
Proof.
  apply (extract_data_unprintable_rejection
           (feed_of [surrogate_id_record; valid_record])
           (mk_response 200 []
              (Ok (VDict
                     [(u "2024-01-01",
                       VList [surrogate_id_record; valid_record])])))
           [(u "2024-01-01", VList [surrogate_id_record; valid_record])]
           (fresh_world tt)).
  - reflexivity.
  - vm_compute. reflexivity.
  - constructor; [vm_compute; reflexivity|].
    constructor; [vm_compute; exact I|]. constructor.
  - vm_compute. apply Exists_cons_hd. reflexivity.
Defined.

Lemma transform_items_missing_field_witness :
  let d :=
    [(u "id", VInt 8); (u "ioc_value", VStr (u "evil.com"));
     (u "ioc_type", VStr (u "domain"))] in
  exists k,
    In k required_fields /\ lookup k d = None /\
    transform_items strptime_strict sample_clock [VDict d; valid_record] []
      (fresh_world tt) =
    transform_items strptime_strict sample_clock [valid_record] []
      (after_print
         (TransformationFailed (or_default (lookup (u "id") d) VNone)
            (KeyError k)) (fresh_world tt)).
Proof.
  apply (transform_items_missing_field strptime_strict sample_clock
           [(u "id", VInt 8); (u "ioc_value", VStr (u "evil.com"));
            (u "ioc_type", VStr (u "domain"))]
           [valid_record] [] (fresh_world tt)).
  - right. right. reflexivity.
  - reflexivity.
Defined.

Lemma transform_data_copies_fields_witness :
  exists out w',
    transform_data strptime_strict sample_clock
      [valid_record; garbled_last_seen_record] (fresh_world tt) =
    (Ok out, w') /\
    Forall
      (fun doc =>
         exists r d,
           In (VDict r) [valid_record; garbled_last_seen_record] /\
           doc = VDict d /\
           forall src dst,
             In (src, dst) copied_fields ->
             lookup dst d = reduced (lookup src r))
      out.
Proof.
  eexists _, _. split; [vm_compute; reflexivity|].
  eapply (transform_data_copies_fields strptime_strict sample_clock
            [valid_record; garbled_last_seen_record] _ (fresh_world tt)).
  vm_compute. reflexivity.
Defined.

Lemma transform_data_pipeline_batch_witness :
  exists out w',
    transform_data strptime_strict sample_clock
      [padded_record; garbled_last_seen_record] (fresh_world tt) =
    (Ok out, w') /\
    Forall2 document_for [padded_record; garbled_last_seen_record] out.
Proof.
  apply (transform_data_pipeline_batch strptime_strict sample_clock
           [padded_record; garbled_last_seen_record] (fresh_world tt)).
  constructor; [|constructor; [|constructor]].
  - eexists. split; [reflexivity|]. split; [vm_compute; reflexivity|].
    split; exact I.
  - eexists. split; [reflexivity|]. split; [vm_compute; reflexivity|].
    split; hnf; right; eexists;
      (split; [reflexivity | intros _; reflexivity]).
Defined.

Lemma transform_items_non_text_timestamp_witness :
  let d :=
    fields_of 4 (VStr (u "evil.com"))
      [(u "first_seen_utc", VInt 1700000000)] in
  exists printed,
    transform_items strptime_strict sample_clock [VDict d; valid_record] []
      (fresh_world tt) =
    transform_items strptime_strict sample_clock [valid_record] []
      (mk_world
         ([] ++ printed ++
          [TransformationFailed (or_default (lookup (u "id") d) VNone)
             TypeError])
         0 tt []).
Proof.
  apply (transform_items_non_text_timestamp strptime_strict sample_clock
           (fields_of 4 (VStr (u "evil.com"))
              [(u "first_seen_utc", VInt 1700000000)])
           (VInt 1700000000) [valid_record] [] (fresh_world tt)).
  - vm_compute. discriminate.
  - vm_compute. discriminate.
  - vm_compute. discriminate.
  - left. reflexivity.
  - reflexivity.
  - reflexivity.
  - reflexivity.
Defined.

Lemma load_data_success_protocol_witness :
  exists w',
    load_data counting_driver sample_config [new_document]
      (fresh_world 0) = (Ok true, w') /\
    exists ops res actual ic,
      Forall2 upsert_of [new_document] ops /\
      forallb is_index_call ic = true /\
      calls w' =
      calls (fresh_world 0) ++
      [CallMongoClient; CallGetDatabase; CallGetCollection;
       CallCountDocuments] ++ ic ++
      [CallBulkWrite ops; CallCountDocuments; CallClose] /\
      stdout w' =
      stdout (fresh_world 0) ++
      [ProcessedRecords (length [new_document]) (upserted_count res)
         (modified_count res);
       MongoVerification actual].
Proof.
  eexists. split; [vm_compute; reflexivity|].
  eapply (load_data_success_protocol counting_driver sample_config
            [new_document] (fresh_world 0)).
  vm_compute. reflexivity.
Defined.

Lemma load_data_success_verified_witness :
  exists w',
    load_data counting_driver sample_config [new_document]
      (fresh_world 0) = (Ok true, w') /\
    exists ops res initial actual w0 w1 s2 s3,
      Forall2 upsert_of [new_document] ops /\
      count_before counting_driver sample_config (fresh_world 0) =
      (Ok initial, w0) /\
      ensure_indexes counting_driver indexes w0 = (Ok tt, w1) /\
      bulk_write counting_driver ops (store w1) = (Ok res, s2) /\
      count_documents counting_driver s2 = (Ok actual, s3) /\
      initial + upserted_count res <= actual /\
      store w' = snd (close counting_driver s3) /\
      In (MongoVerification actual) (stdout w').
Proof.
  eexists. split; [vm_compute; reflexivity|].
  eapply (load_data_success_verified counting_driver sample_config
            [new_document] (fresh_world 0)).
  vm_compute. reflexivity.
Defined.

Lemma run_etl_without_documents_witness :
  let run :=
    run_etl counting_driver sample_config strptime_strict sample_clock
      not_found_feed (fresh_world 0) in
  fst run = Ok false /\
  store (snd run) = store (fresh_world 0) /\
  calls (snd run) = calls (fresh_world 0).
Proof.
  apply (run_etl_without_documents not_found_feed strptime_strict
           sample_clock counting_driver sample_config (fresh_world 0)).
  left. vm_compute. reflexivity.
Defined.
